(** * mediastorage-proxy: a shallow embedding of the request handlers

    The development models the HTTP gateway of [proxy.cpp], [delete.cpp] and
    [lookup_result.cpp].  Handlers are embedded as computations in a small
    writer/exception monad: the trace records every log line, every reply
    sent to the client and every asynchronous storage operation issued, in
    program order; the outcome records whether the C++ body returned, threw
    or left defined behaviour.

    Collaborators whose code lives outside these sources (the balancer, the
    storage client, boost, libc, the data-container codec) are fields of the
    records [mastermind_t], [proxy] and [platform]. *)

From stdpp Require Import gmap strings list fin_maps pretty sorting.
From Stdlib Require Import ZArith Lia Ascii HexadecimalString.

Open Scope Z_scope.

(** ** Exceptions and outcomes *)

Definition dquote : string := String "034"%char EmptyString.
Definition endl : string := String "010"%char EmptyString.

(** What a C++ expression can do besides returning: throw something derived
    from [std::exception] (caught by [catch (const std::exception &)]), throw
    anything else (caught only by [catch (...)]), or leave defined behaviour
    (dereferencing [end()], a failed library assertion). *)
Inductive exn : Type :=
| std_exception (what : string)
| other_exception.

Inductive outcome (A : Type) : Type :=
| Normal (a : A)
| Thrown (e : exn)
| Undefined.
Arguments Normal {A} a.
Arguments Thrown {A} e.
Arguments Undefined {A}.

Definition outcome_bind {A B} (o : outcome A) (k : A -> outcome B) : outcome B :=
  match o with
  | Normal a => k a
  | Thrown e => Thrown e
  | Undefined => Undefined
  end.

Definition is_normal {A} (o : outcome A) : bool :=
  match o with Normal _ => true | _ => false end.

Notation "'eval' x <- o ; k" := (outcome_bind o (fun x => k))
  (at level 10, x name, o at level 100, k at level 200).

(** ** [size_t] and [std::string] primitives *)

Module std_string.

Definition size_t_modulus : Z := 2 ^ 64.
Definition size_t_wrap (z : Z) : Z := z mod size_t_modulus.
(** [std::string::npos] *)
Definition npos : Z := size_t_modulus - 1.

Definition size (s : string) : Z := Z.of_nat (String.length s).

Fixpoint drop_string (n : nat) (s : string) : string :=
  match n, s with
  | O, _ => s
  | S n', String _ s' => drop_string n' s'
  | S _, EmptyString => EmptyString
  end.

Fixpoint take_string (n : nat) (s : string) : string :=
  match n, s with
  | O, _ => EmptyString
  | S n', String c s' => String c (take_string n' s')
  | S _, EmptyString => EmptyString
  end.

(** Offset of the first [c] in [s], counted from the head of [s]. *)
Fixpoint index_of (c : ascii) (s : string) : option nat :=
  match s with
  | EmptyString => None
  | String d s' => if Ascii.eqb d c then Some O else option_map S (index_of c s')
  end.

(** [s.find(c, pos)]: position of the first [c] at or after [pos], [npos]
    when there is none (in particular when [pos] is past the end). *)
Definition find (s : string) (c : ascii) (pos : Z) : Z :=
  if size s <? pos then npos
  else match index_of c (drop_string (Z.to_nat pos) s) with
       | Some k => pos + Z.of_nat k
       | None => npos
       end.

(** [s.substr(pos, n)]: throws [std::out_of_range] when [pos > size()],
    otherwise the [min(n, size() - pos)] characters from [pos]. *)
Definition substr (s : string) (pos n : Z) : outcome string :=
  if size s <? pos then Thrown (std_exception "basic_string::substr")
  else Normal (take_string (Z.to_nat (Z.min n (size s - pos)))
                            (drop_string (Z.to_nat pos) s)).

(** [s.substr(pos)] *)
Definition substr_from (s : string) (pos : Z) : outcome string := substr s pos npos.

Definition empty (s : string) : bool :=
  match s with EmptyString => true | _ => false end.

End std_string.

(** ** Requests, headers and queries *)

Definition http_headers := list (string * string).

Fixpoint assoc_find (name : string) (l : list (string * string)) : option string :=
  match l with
  | [] => None
  | (k, v) :: l' => if String.eqb k name then Some v else assoc_find name l'
  end.

(** [headers.get(name)] *)
Definition headers_get (h : http_headers) (name : string) : option string :=
  assoc_find name h.

(** [headers.add(name, value)] *)
Definition headers_add (h : http_headers) (name value : string) : http_headers :=
  h ++ [(name, value)].

(** [headers.set(name, value)]: replaces the entry of that name, adds one
    when there is none. *)
Fixpoint headers_set (h : http_headers) (name value : string) : http_headers :=
  match h with
  | [] => [(name, value)]
  | (k, v) :: h' =>
      if String.eqb k name then (k, value) :: h' else (k, v) :: headers_set h' name value
  end.

Definition set_content_length (h : http_headers) (n : Z) : http_headers :=
  headers_set h "Content-Length" (pretty n).

Definition set_content_type (h : http_headers) (t : string) : http_headers :=
  headers_set h "Content-Type" t.

Definition url_query := list (string * string).

(** [query_list.has_item(name)] *)
Definition has_item (q : url_query) (name : string) : bool :=
  existsb (fun kv => String.eqb (fst kv) name) q.

(** [query_list.item_value(name)] *)
Definition item_value (q : url_query) (name : string) : option string :=
  assoc_find name q.

Record http_request : Type := {
  url_to_string : string;      (* req.url().to_string() *)
  url_query_list : url_query;  (* req.url().query() *)
  request_headers : http_headers
}.

Record http_response : Type := {
  response_code : Z;
  response_headers : http_headers
}.

(** ** Storage client: keys, sessions, results *)

Inductive key : Type :=
| key_remote (remote : string)
| key_id (id : string).

Definition by_id (k : key) : bool :=
  match k with key_id _ => true | key_remote _ => false end.

Definition remote (k : key) : string :=
  match k with key_remote r => r | key_id _ => EmptyString end.

Inductive checker_t : Type := checkers_all | checkers_quorum | checkers_at_least_one.
Inductive filter_t : Type := filters_positive | filters_all.
Inductive error_handler_t : Type := error_handlers_none | error_handlers_remove_on_fail.

Record session : Type := {
  get_groups : list Z;
  get_checker : option checker_t;
  get_filter : filter_t;
  get_error_handler : error_handler_t;
  get_user_flags : Z;
  state_num : Z       (* number of live connections of the node *)
}.

Definition set_groups (s : session) (g : list Z) : session :=
  {| get_groups := g; get_checker := get_checker s; get_filter := get_filter s;
     get_error_handler := get_error_handler s; get_user_flags := get_user_flags s;
     state_num := state_num s |}.

Definition set_checker (s : session) (c : option checker_t) : session :=
  {| get_groups := get_groups s; get_checker := c; get_filter := get_filter s;
     get_error_handler := get_error_handler s; get_user_flags := get_user_flags s;
     state_num := state_num s |}.

Definition set_filter (s : session) (f : filter_t) : session :=
  {| get_groups := get_groups s; get_checker := get_checker s; get_filter := f;
     get_error_handler := get_error_handler s; get_user_flags := get_user_flags s;
     state_num := state_num s |}.

Definition set_error_handler (s : session) (h : error_handler_t) : session :=
  {| get_groups := get_groups s; get_checker := get_checker s; get_filter := get_filter s;
     get_error_handler := h; get_user_flags := get_user_flags s;
     state_num := state_num s |}.

Definition set_user_flags (s : session) (f : Z) : session :=
  {| get_groups := get_groups s; get_checker := get_checker s; get_filter := get_filter s;
     get_error_handler := get_error_handler s; get_user_flags := f;
     state_num := state_num s |}.

(** [ioremap::elliptics::error_info]: [None] is "no error". *)
Record error_data : Type := {
  error_code : Z;
  error_message : string
}.
Definition error_info := option error_data.

Definition ENOENT : Z := 2.

(** The four ways [write] of proxy.cpp starts a write. *)
Inductive write_mode : Type :=
| write_prepare (size : Z)
| write_commit (size : Z)
| write_plain
| write_data (chunk_size : Z).

(** ** Traces *)

(** The levels of swarm's logger, in the order of its enumeration. *)
Inductive log_level : Type :=
| SWARM_LOG_DATA | SWARM_LOG_ERROR | SWARM_LOG_INFO | SWARM_LOG_NOTICE | SWARM_LOG_DEBUG.

Definition level_rank (l : log_level) : Z :=
  match l with
  | SWARM_LOG_DATA => 0 | SWARM_LOG_ERROR => 1 | SWARM_LOG_INFO => 2
  | SWARM_LOG_NOTICE => 3 | SWARM_LOG_DEBUG => 4
  end.

Inductive event : Type :=
| ev_log (level : log_level) (message : string)
| ev_send_code (c : Z)                                 (* send_reply(int) *)
| ev_send_reply (r : http_response)                    (* send_reply(reply) *)
| ev_send_data (r : http_response) (data : string)     (* send_reply(reply, data) *)
| ev_remove (s : session) (k : key)
| ev_write (s : session) (k : key) (data : string) (offset : Z) (m : write_mode)
| ev_read_data (s : session) (k : key) (offset sz : Z)
| ev_lookup (s : session) (k : key)
| ev_stat_log (s : session).

(** A computation: the events emitted so far and how it ended. *)
Definition io (A : Type) : Type := list event * outcome A.

Definition ret {A} (a : A) : io A := ([], Normal a).

Definition bind {A B} (m : io A) (k : A -> io B) : io B :=
  match m with
  | (t, Normal a) => let '(t', o) := k a in (t ++ t', o)
  | (t, Thrown e) => (t, Thrown e)
  | (t, Undefined) => (t, Undefined)
  end.

Definition emit (e : event) : io unit := ([e], Normal tt).
Definition throw {A} (e : exn) : io A := ([], Thrown e).
Definition lift {A} (o : outcome A) : io A := ([], o).

Notation "'do' x <- m ; k" := (bind m (fun x => k))
  (at level 10, x name, m at level 100, k at level 200).
Notation "'run' m ; k" := (bind m (fun _ => k))
  (at level 10, m at level 100, k at level 200).

(** [try { body } catch (const std::exception &ex) { on_std ex.what() }
     catch (...) { on_other }] *)
Definition try_catch (body : io unit) (on_std : string -> io unit) (on_other : io unit)
  : io unit :=
  match body with
  | (t, Thrown (std_exception what)) => let '(t', o) := on_std what in (t ++ t', o)
  | (t, Thrown other_exception) => let '(t', o) := on_other in (t ++ t', o)
  | r => r
  end.

(** [try { body } catch (...) { on_any }] *)
Definition try_catch_all {A} (body : io A) (on_any : io A) : io A :=
  match body with
  | (t, Thrown _) => let '(t', o) := on_any in (t ++ t', o)
  | r => r
  end.

Definition log (l : log_level) (msg : string) : io unit := emit (ev_log l msg).
Definition send_reply_code (c : Z) : io unit := emit (ev_send_code c).
Definition send_reply (r : http_response) : io unit := emit (ev_send_reply r).
Definition send_reply_data (r : http_response) (d : string) : io unit := emit (ev_send_data r d).

(** The storage operations a trace issues. *)
Definition is_storage_op (e : event) : bool :=
  match e with
  | ev_remove _ _ | ev_write _ _ _ _ _ | ev_read_data _ _ _ _
  | ev_lookup _ _ | ev_stat_log _ => true
  | _ => false
  end.

Definition storage_ops (t : list event) : list event := List.filter is_storage_op t.

(** ** The data container *)

(** Modelled from the spec: the type [elliptics::data_container_t] of
    data_container.hpp, which is not part of these sources.  A container
    holds the payload and the embeds; the only embed kind is the timestamp
    (seconds and nanoseconds). *)
Record data_container_t : Type := {
  data : string;
  embed_timestamp : option (Z * Z)
}.

(** [data_container_t dc(data)] *)
Definition data_container_of (d : string) : data_container_t :=
  {| data := d; embed_timestamp := None |}.

(** [dc.set<DNET_FCGI_EMBED_TIMESTAMP>(ts)] *)
Definition set_timestamp (dc : data_container_t) (ts : Z * Z) : data_container_t :=
  {| data := data dc; embed_timestamp := Some ts |}.

(** [dc.embeds_count()] *)
Definition embeds_count (dc : data_container_t) : Z :=
  match embed_timestamp dc with Some _ => 1 | None => 0 end.

(** ** Namespaces, the balancer and the server object *)

(** [elliptics::namespace_t].  proxy.hpp, which declares it, is not part of
    these sources: the members are the ones the sources read and write. *)
Record namespace_t : Type := {
  name : string;
  groups_count : Z;
  result_checker : option checker_t;
  auth_key : string
}.

(** [elliptics::namespace_t()]: every member default-constructed. *)
Definition namespace_t_default : namespace_t :=
  {| name := EmptyString; groups_count := 0; result_checker := None;
     auth_key := EmptyString |}.

(** [elliptics::mastermind_t]: the balancer, an external collaborator. *)
Record mastermind_t : Type := {
  get_symmetric_groups : Z -> outcome (list Z);
  get_cache_groups : string -> outcome (list Z);
  get_metabalancer_groups : Z -> string -> outcome (list Z);
  json_group_weights : outcome string;
  json_symmetric_groups : outcome string;
  json_bad_groups : outcome string;
  json_cache_groups : outcome string
}.

(** [ioremap::elliptics::lookup_result_entry] (also the entry type of a
    write result): what the accessors used by the sources return. *)
Record lookup_result_entry : Type := {
  entry_error : error_info;       (* error() *)
  command_status : Z;             (* command()->status *)
  command_group_id : Z;           (* command()->id.group_id *)
  storage_address : string;       (* storage_address(), the raw dnet_addr *)
  file_info_offset : Z;           (* file_info()->offset *)
  file_info_size : Z;             (* file_info()->size *)
  file_info_trailer : string;     (* the C string at (char * )(file_info() + 1) *)
  file_path : string              (* file_path() *)
}.

(** An entry of a [sync_remove_result]. *)
Record callback_result_entry : Type := {
  callback_status : Z;
  callback_group_id : Z
}.
Definition sync_remove_result := list callback_result_entry.

(** [ioremap::elliptics::read_result_entry] *)
Record read_result_entry : Type := {
  file : string;                  (* file(), the bytes read *)
  io_attribute_user_flags : Z     (* io_attribute()->user_flags, a uint64 *)
}.

(** [ioremap::elliptics::stat_result_entry]: the address, the id of the
    command and the [dnet_stat] of the node.  [dnet_stat] is declared in the
    storage client's packet.h, not in these sources: its load averages are
    16-bit and its counters 64-bit unsigned integers. *)
Record stat_result_entry : Type := {
  stat_address : string;          (* address(), the raw dnet_addr *)
  stat_command_id : string;       (* command()->id.id *)
  stat_la : Z * Z * Z;            (* statistics()->la[0..2] *)
  vm_total : Z;
  vm_free : Z;
  vm_cached : Z;
  frsize : Z;
  blocks : Z;
  bavail : Z;
  bsize : Z;
  files : Z;
  fsid : Z
}.

(** [elliptics::lookup_result]: the entry, the signing port and the five
    memo cells ([boost::optional], all empty after construction). *)
Record lookup_result : Type := {
  m_entry : lookup_result_entry;
  m_sign_port : string;
  m_host : option string;
  m_port : option Z;
  m_addr : option string;
  m_path : option string;
  m_full_path : option string
}.

(** The [proxy] server object.  [check_basic_auth], the two-argument
    [get_groups], [get_namespace] and the two-argument [prepare_session] are
    members that the delete handlers call and proxy.hpp declares; their
    bodies are not part of these sources.  [parse_lookup] calls a
    four-argument constructor of [lookup_result] that lookup_result.cpp does
    not define: [lookup_sign_port] is the signing port the object is built
    with, as a function of the three configuration values it is passed. *)
Record proxy : Type := {
  m_namespaces : gmap string namespace_t;
  m_elliptics_session : session;
  m_mastermind : mastermind_t;
  m_die_limit : Z;
  m_eblob_style_path : bool;
  m_direction_bit_num : Z;
  m_base_port : Z;
  m_proxy_logger_level : log_level;
  check_basic_auth : string -> string -> option string -> bool;
  proxy_get_groups : Z -> string -> outcome (list Z);
  get_namespace : string -> string -> outcome namespace_t;
  prepare_session_ns : string -> namespace_t -> outcome (session * key);
  lookup_sign_port : bool -> Z -> Z -> string
}.

(** Library routines the handlers call: boost, libc and the storage
    client's helpers. *)
Record platform : Type := {
  lexical_cast_int : string -> outcome Z;
  lexical_cast_uint64 : string -> outcome Z;
  getnameinfo : string -> Z -> option string;     (* address, flags; [None]: non-zero return *)
  http_date : Z -> string;                        (* gmtime_r, then strftime *)
  transform : string -> string;                   (* session.transform *)
  dnet_dump_id_len_raw : string -> string;
  dnet_server_convert_dnet_addr_raw : string -> string;
  dnet_server_convert_port : string -> Z;
  pack : data_container_t -> string;              (* data_container_t::pack *)
  unpack : string -> bool -> outcome data_container_t
}.

Definition get_session (srv : proxy) : session := m_elliptics_session srv.
Definition die_limit (srv : proxy) : Z := m_die_limit srv.

(** ** proxy.cpp: [get_filename] and [get_file_info] *)

Definition get_filename (req : http_request) : outcome (string * string) :=
  let scriptname := url_to_string req in
  let begin := std_string.size_t_wrap (std_string.find scriptname "/" 1 + 1) in
  let end_ := std_string.find scriptname "?" begin in
  eval filename <- std_string.substr scriptname begin (std_string.size_t_wrap (end_ - begin));
  let namespace_end := std_string.size_t_wrap (begin - 1) in
  let namespace_beg := std_string.find scriptname "-" 0 in
  if namespace_beg =? std_string.npos then
    Normal (filename, "default"%string)
  else
    let namespace_beg := std_string.size_t_wrap (namespace_beg + 1) in
    if namespace_beg <? namespace_end then
      eval str_namespace <-
        std_string.substr scriptname namespace_beg
          (std_string.size_t_wrap (namespace_end - namespace_beg));
      Normal (filename, str_namespace)
    else
      Normal (filename, EmptyString).

Definition get_file_info (srv : proxy) (req : http_request) : outcome (key * namespace_t) :=
  eval p <- get_filename req;
  let it := m_namespaces srv !! p.2 in
  Normal (key_remote p.1,
          match it with Some ns => ns | None => namespace_t_default end).

(** ** delete.cpp *)

Module delete_cpp.

(** [req_delete::on_request] of delete.cpp.  [file_info.first] is used
    there as the string the key was built from. *)
Definition on_request (lib : platform) (srv : proxy) (req : http_request) : io unit :=
  try_catch
    (run log SWARM_LOG_INFO ("Delete: handle request: " +:+ url_to_string req);
     do file_info <- lift (get_file_info srv req);
     if std_string.empty (name file_info.2) then
       run log SWARM_LOG_INFO "Delete: cannot determine a namespace";
       send_reply_code 400
     else
       run (if negb (check_basic_auth srv (name file_info.2) (auth_key file_info.2)
                      (headers_get (request_headers req) "Authorization"))
            then
              send_reply
                {| response_code := 401;
                   response_headers :=
                     headers_add [] "WWW-Authenticate"
                       ("Basic realm=" +:+ dquote +:+ name file_info.2 +:+ dquote) |}
            else ret tt);
       let session := get_session srv in
       let group_key := remote file_info.1 in
       let pos := std_string.find group_key "/" 0 in
       if pos =? std_string.npos then
         run log SWARM_LOG_INFO "Delete: cannot determine a group from key";
         send_reply_code 400
       else
         do filename <- lift (std_string.substr_from group_key (std_string.size_t_wrap (pos + 1)));
         do group <- lift (std_string.substr group_key 0 pos);
         do session' <-
           try_catch_all
             (do g <- lift (lexical_cast_int lib group);
              do gs <- lift (proxy_get_groups srv g filename);
              ret (Some (set_groups session gs)))
             (run log SWARM_LOG_INFO "Delete: cannot determine a group from key";
              run send_reply_code 400;
              ret None);
         match session' with
         | None => ret tt
         | Some session =>
             let key := key_remote (name file_info.2 +:+ "." +:+ filename) in
             if bool_decide (get_groups session = []) then
               send_reply_code 404
             else if state_num session <? die_limit srv then
               throw (std_exception "Too low number of existing states")
             else
               let session := set_filter session filters_all in
               run log SWARM_LOG_DEBUG "Delete: removing data";
               emit (ev_remove session key)
         end)
    (fun what =>
       run log SWARM_LOG_ERROR ("Delete request error: " +:+ what);
       send_reply_code 500)
    (run log SWARM_LOG_ERROR "Delete request error: unknown";
     send_reply_code 500).

Definition on_finished (srr : sync_remove_result) (error : error_info) : io unit :=
  match error with
  | Some e =>
      run log SWARM_LOG_ERROR (error_message e);
      send_reply_code (if error_code e =? - ENOENT then 404 else 500)
  | None =>
      run log SWARM_LOG_DEBUG "Delete: sending reply";
      send_reply_code 200
  end.

End delete_cpp.

(** ** lookup_result.cpp *)

Module lookup_result_cpp.

(** [lookup_result::lookup_result(entry, sign_port)] *)
Definition make (entry : lookup_result_entry) (sign_port : string) : lookup_result :=
  {| m_entry := entry; m_sign_port := sign_port; m_host := None; m_port := None;
     m_addr := None; m_path := None; m_full_path := None |}.

Definition reset_host (self : lookup_result) (v : string) : lookup_result :=
  {| m_entry := m_entry self; m_sign_port := m_sign_port self; m_host := Some v;
     m_port := m_port self; m_addr := m_addr self; m_path := m_path self;
     m_full_path := m_full_path self |}.

Definition reset_port (self : lookup_result) (v : Z) : lookup_result :=
  {| m_entry := m_entry self; m_sign_port := m_sign_port self; m_host := m_host self;
     m_port := Some v; m_addr := m_addr self; m_path := m_path self;
     m_full_path := m_full_path self |}.

Definition reset_addr (self : lookup_result) (v : string) : lookup_result :=
  {| m_entry := m_entry self; m_sign_port := m_sign_port self; m_host := m_host self;
     m_port := m_port self; m_addr := Some v; m_path := m_path self;
     m_full_path := m_full_path self |}.

Definition reset_path (self : lookup_result) (v : string) : lookup_result :=
  {| m_entry := m_entry self; m_sign_port := m_sign_port self; m_host := m_host self;
     m_port := m_port self; m_addr := m_addr self; m_path := Some v;
     m_full_path := m_full_path self |}.

Definition reset_full_path (self : lookup_result) (v : string) : lookup_result :=
  {| m_entry := m_entry self; m_sign_port := m_sign_port self; m_host := m_host self;
     m_port := m_port self; m_addr := m_addr self; m_path := m_path self;
     m_full_path := Some v |}.

(** [lookup_result::host]: the value returned and the object afterwards
    (the memo cell is [mutable]). *)
Definition host (lib : platform) (self : lookup_result) : outcome (string * lookup_result) :=
  match m_host self with
  | Some h => Normal (h, self)
  | None =>
      let addr := storage_address (m_entry self) in
      match getnameinfo lib addr 0 with
      | None => Thrown (std_exception "can not make dns lookup")
      | Some hbuf =>
          let oss := hbuf in
          let oss :=
            if negb (std_string.empty (m_sign_port self))
            then oss +:+ ":" +:+ m_sign_port self
            else oss in
          Normal (oss, reset_host self oss)
      end
  end.

Definition port (lib : platform) (self : lookup_result) : Z * lookup_result :=
  match m_port self with
  | Some p => (p, self)
  | None =>
      let p := dnet_server_convert_port lib (storage_address (m_entry self)) in
      (p, reset_port self p)
  end.

Definition group (self : lookup_result) : Z := command_group_id (m_entry self).

Definition status (self : lookup_result) : Z := command_status (m_entry self).

Definition addr (lib : platform) (self : lookup_result) : string * lookup_result :=
  match m_addr self with
  | Some a => (a, self)
  | None =>
      let addr_dst := dnet_server_convert_dnet_addr_raw lib (storage_address (m_entry self)) in
      (addr_dst, reset_addr self addr_dst)
  end.

Definition path (self : lookup_result) : string * lookup_result :=
  match m_path self with
  | Some p => (p, self)
  | None =>
      let p := file_path (m_entry self) in
      let oss := p +:+ ":" +:+ pretty (file_info_offset (m_entry self))
                   +:+ ":" +:+ pretty (file_info_size (m_entry self)) in
      (oss, reset_path self oss)
  end.

Definition full_path (self : lookup_result) : string * lookup_result :=
  match m_full_path self with
  | Some p => (p, self)
  | None =>
      let p := file_info_trailer (m_entry self) in
      (p, reset_full_path self p)
  end.

End lookup_result_cpp.

(** ** rapidjson values *)

(** A [rapidjson::Value].  An accessor whose [RAPIDJSON_ASSERT] fails has
    no defined result. *)
#[warnings="-register-all"]
Inductive Value : Type :=
| kNull
| kBool (b : bool)
| kNumber (z : Z)
| kString (s : string)
| kArray (elements : list Value)
| kObject (members : list (string * Value)).

Fixpoint FindMember (members : list (string * Value)) (n : string) : option Value :=
  match members with
  | [] => None
  | (k, v) :: rest => if String.eqb k n then Some v else FindMember rest n
  end.

Definition HasMember (v : Value) (n : string) : outcome bool :=
  match v with
  | kObject members => Normal (bool_decide (is_Some (FindMember members n)))
  | _ => Undefined
  end.

(** [v[n]] *)
Definition member (v : Value) (n : string) : outcome Value :=
  match v with
  | kObject members =>
      match FindMember members n with Some x => Normal x | None => Undefined end
  | _ => Undefined
  end.

Definition GetInt (v : Value) : outcome Z :=
  match v with
  | kNumber z => if (- 2 ^ 31 <=? z) && (z <? 2 ^ 31) then Normal z else Undefined
  | _ => Undefined
  end.

Definition GetBool (v : Value) : outcome bool :=
  match v with kBool b => Normal b | _ => Undefined end.

Definition GetString (v : Value) : outcome string :=
  match v with kString s => Normal s | _ => Undefined end.

(** The members between [MemberBegin()] and [MemberEnd()]. *)
Definition Members (v : Value) : outcome (list (string * Value)) :=
  match v with kObject members => Normal members | _ => Undefined end.

(** The elements between [Begin()] and [End()]. *)
Definition Elements (v : Value) : outcome (list Value) :=
  match v with kArray elements => Normal elements | _ => Undefined end.

(** ** The objects built at start-up *)

(** [struct dnet_config], the three members [generate_node] sets after the
    [memset]. *)
Record dnet_config : Type := {
  wait_timeout : Z;
  check_timeout : Z;
  dnet_flags : Z
}.

(** The constructors and calls of the libraries behind [initialize]:
    [ioremap::swarm::logger(path, mask)], [ioremap::elliptics::node(logger,
    config)], [node.add_remote(host)], which answers the node afterwards and
    how the call ended, [ioremap::elliptics::session(node)],
    [elliptics::mastermind_t(remotes, logger, period)], and the two log
    masks of the storage client. *)
Record runtime : Type := {
  logger_t : Type;
  node_t : Type;
  new_logger : string -> Z -> outcome logger_t;
  new_node : logger_t -> dnet_config -> outcome node_t;
  add_remote : node_t -> string -> node_t * outcome unit;
  new_session : node_t -> outcome session;
  new_mastermind : list (string * Z) -> logger_t -> Z -> outcome mastermind_t;
  DNET_LOG_INFO : Z;
  DNET_LOG_ERROR : Z
}.

(** What start-up writes: a line on a logger, by [logger.log] with
    [DNET_LOG_INFO], by [COCAINE_LOG_INFO] or by [log] with
    [SWARM_LOG_ERROR], or a line on [std::cerr]. *)
Inductive init_event (rt : runtime) : Type :=
| dnet_log_info (l : logger_t rt) (msg : string)
| cocaine_log_info (l : logger_t rt) (msg : string)
| swarm_log_error (l : logger_t rt) (msg : string)
| cerr_line (msg : string).
Arguments dnet_log_info {rt} l msg.
Arguments cocaine_log_info {rt} l msg.
Arguments swarm_log_error {rt} l msg.
Arguments cerr_line {rt} msg.

(** ** proxy.cpp *)

Module proxy_cpp.

Definition UF_EMBEDS : Z := 1.

(** [get_arg<uint64_t>(query_list, name, default_value)] *)
Definition get_arg (lib : platform) (query_list : url_query) (n : string) (default_value : Z)
  : outcome Z :=
  match item_value query_list n with
  | Some arg => lexical_cast_uint64 lib arg
  | None => Normal default_value
  end.

Definition get_int (config : Value) (n : string) (def_val : Z) : outcome Z :=
  eval h <- HasMember config n;
  if h then (eval v <- member config n; GetInt v) else Normal def_val.

Definition get_bool (config : Value) (n : string) (def_val : bool) : outcome bool :=
  eval h <- HasMember config n;
  if h then (eval v <- member config n; GetBool v) else Normal def_val.

Definition get_string (config : Value) (n : string) (def_val : string) : outcome string :=
  eval h <- HasMember config n;
  if h then (eval v <- member config n; GetString v) else Normal def_val.

(** [res.insert(value_type(k, v))]: a key already present keeps its value. *)
Definition map_insert (res : gmap string namespace_t) (k : string) (v : namespace_t)
  : gmap string namespace_t :=
  match res !! k with
  | Some _ => res
  | None => <[k := v]> res
  end.

(** One iteration of the loop of [generate_namespaces]. *)
Definition generate_namespace (it : string * Value) : outcome namespace_t :=
  let n := it.1 in
  let value := it.2 in
  let item_name := n in
  eval has_gc <- HasMember value "groups-count";
  if negb has_gc then
    Thrown (std_exception
              ("Missing 'groups-count' in '" +:+ item_name +:+ "' namespace"))
  else
  eval has_scn <- HasMember value "success-copies-num";
  if negb has_scn then
    Thrown (std_exception
              ("Missing 'success-copies-num' in '" +:+ item_name +:+ "' namespace"))
  else
  eval gc <- member value "groups-count";
  eval item_groups_count <- GetInt gc;
  eval sv <- member value "success-copies-num";
  eval scn <- GetString sv;
  eval item_result_checker <-
    (if String.eqb scn "all" then Normal checkers_all
     else if String.eqb scn "quorum" then Normal checkers_quorum
     else if String.eqb scn "any" then Normal checkers_at_least_one
     else Thrown (std_exception
                    ("Unknown type of success-copies-num '" +:+ scn +:+ "' in '"
                     +:+ item_name
                     +:+ "' namespace. Allowed types: any, quorum, all.")));
  Normal {| name := item_name; groups_count := item_groups_count;
            result_checker := Some item_result_checker;
            auth_key := EmptyString |}.

Fixpoint generate_namespaces_loop (members : list (string * Value))
    (res : gmap string namespace_t) : outcome (gmap string namespace_t) :=
  match members with
  | [] => Normal res
  | it :: rest =>
      eval item <- generate_namespace it;
      generate_namespaces_loop rest (map_insert res (name item) item)
  end.

Definition generate_namespaces (config : Value) : outcome (gmap string namespace_t) :=
  eval h <- HasMember config "namespaces";
  if negb h then Thrown (std_exception "You should set a dict of namespaces")
  else
    eval namespaces <- member config "namespaces";
    eval members <- Members namespaces;
    generate_namespaces_loop members ∅.

(** *** Helpers of the handlers *)

(** The loops that print a vector of groups: [", "] before every element
    but the first. *)
Fixpoint print_groups_from (first : bool) (l : list Z) (oss : string) : string :=
  match l with
  | [] => oss
  | x :: rest =>
      let oss := if first then oss else oss +:+ ", " in
      print_groups_from false rest (oss +:+ pretty x)
  end.

Definition print_groups (l : list Z) (oss : string) : string :=
  print_groups_from true l oss.

(** [std::sort] on a [std::vector<int>] *)
Definition sort (l : list Z) : list Z := merge_sort Z.le l.

(** [std::set_difference(a.begin(), a.end(), b.begin(), b.end(),
    std::back_inserter(out))] *)
Fixpoint set_difference (a b : list Z) : list Z :=
  match a with
  | [] => []
  | x :: a' =>
      (fix scan (b : list Z) : list Z :=
         match b with
         | [] => x :: a'
         | y :: b' =>
             if x <? y then x :: set_difference a' (y :: b')
             else if y <? x then scan b'
             else set_difference a' b'
         end) b
  end.

(** [*std::min_element(v.begin(), v.end())]: dereferences [end()] on an
    empty vector. *)
Definition min_element (v : list Z) : outcome Z :=
  match v with
  | [] => Undefined
  | x :: rest => Normal (fold_left Z.min rest x)
  end.

(** [srr.front()] *)
Definition front {A} (v : list A) : outcome A :=
  match v with
  | [] => Undefined
  | x :: _ => Normal x
  end.

(** [static_cast<int>] of a [size_t] *)
Definition static_cast_int (z : Z) : Z := (z + 2 ^ 31) mod 2 ^ 32 - 2 ^ 31.

Definition level_ge (srv : proxy) (l : log_level) : bool :=
  level_rank l <=? level_rank (m_proxy_logger_level srv).

Definition key_to_string (lib : platform) (k : key) : string :=
  match k with
  | key_remote r => r
  | key_id i => dnet_dump_id_len_raw lib i
  end.

Definition id_str (lib : platform) (k : key) : string :=
  let id := match k with
            | key_id i => i
            | key_remote r => transform lib r
            end in
  dnet_dump_id_len_raw lib id.

(** [write] of the anonymous namespace: the session is passed by reference
    and keeps its new error handler. *)
Definition write (lib : platform) (s : session) (k : key) (d : string)
    (query_list : url_query) : io session :=
  let s := set_error_handler s error_handlers_remove_on_fail in
  do offset <- lift (get_arg lib query_list "offset" 0);
  match item_value query_list "prepare" with
  | Some arg =>
      do sz <- lift (lexical_cast_uint64 lib arg);
      run emit (ev_write s k d offset (write_prepare sz));
      ret s
  | None =>
      match item_value query_list "commit" with
      | Some arg =>
          do sz <- lift (lexical_cast_uint64 lib arg);
          run emit (ev_write s k d offset (write_commit sz));
          ret s
      | None =>
          if has_item query_list "plain_write" || has_item query_list "plain-write" then
            run emit (ev_write s k d offset write_plain);
            ret s
          else
            run emit (ev_write s k d offset (write_data 0));
            ret s
      end
  end.

Definition parse_lookup (srv : proxy) (entry : lookup_result_entry) : lookup_result :=
  lookup_result_cpp.make entry
    (lookup_sign_port srv (m_eblob_style_path srv) (m_base_port srv)
       (m_direction_bit_num srv)).

Definition groups_for_upload (srv : proxy) (name_space : namespace_t) : outcome (list Z) :=
  get_metabalancer_groups (m_mastermind srv) (groups_count name_space) (name name_space).

Definition prepare_session (lib : platform) (srv : proxy) (req : http_request)
  : io (session * key) :=
  let session := get_session srv in
  let url := url_to_string req in
  let bg := std_string.size_t_wrap (std_string.find url "/" 1 + 1) in
  let eg := std_string.find url "/" bg in
  let bf := std_string.size_t_wrap (eg + 1) in
  let ef := std_string.find url "?" bf in
  do g <- lift (std_string.substr url bg (std_string.size_t_wrap (eg - bg)));
  do filename <- lift (std_string.substr url bf (std_string.size_t_wrap (ef - bf)));
  do session <-
    try_catch_all
      (do group <- lift (lexical_cast_int lib g);
       do vec_groups1 <- lift (get_symmetric_groups (m_mastermind srv) group);
       do vec_groups2 <- lift (get_cache_groups (m_mastermind srv) filename);
       ret (set_groups session (vec_groups1 ++ vec_groups2)))
      (run log SWARM_LOG_ERROR "Cannot to determine groups";
       ret session);
  run (if level_ge srv SWARM_LOG_INFO then
         run log SWARM_LOG_INFO
               (print_groups (get_groups session) "Fetched groups for request: [" +:+ "]");
         log SWARM_LOG_INFO ("filename: " +:+ filename)
       else ret tt);
  ret (session, key_remote filename).

(** *** [req_upload] *)

Record req_upload : Type := {
  m_session : session;
  m_key : key;
  m_content : string;
  m_beg_time : Z        (* milliseconds on the system clock *)
}.

Fixpoint print_headers (h : http_headers) (oss : string) : string :=
  match h with
  | [] => oss
  | (k, v) :: rest => print_headers rest (oss +:+ k +:+ ": " +:+ v +:+ endl)
  end.

Definition upload_catch (body : io unit) : io unit :=
  try_catch body
    (fun what =>
       run log SWARM_LOG_ERROR ("Upload request ERROR: " +:+ what);
       send_reply_code 500)
    (run log SWARM_LOG_ERROR "Upload request ERROR: unknown";
     send_reply_code 500).

Definition req_upload_on_request (lib : platform) (srv : proxy) (req : http_request)
    (buffer : string) : io unit :=
  upload_catch
    (run log SWARM_LOG_INFO
           ("Upload: handle request: " +:+ url_to_string req +:+ "; body size: "
            +:+ pretty (static_cast_int (std_string.size buffer)));
     run (if level_ge srv SWARM_LOG_DEBUG then
            log SWARM_LOG_DEBUG (print_headers (request_headers req) ("Headers:" +:+ endl))
          else ret tt);
     let m_session := get_session srv in
     do file_info <- lift (get_file_info srv req);
     if std_string.empty (name file_info.2) then
       run log SWARM_LOG_INFO "Upload: Cannot determine a namespace";
       send_reply_code 400
     else
       let m_key := file_info.1 in
       let m_session := set_checker m_session (result_checker file_info.2) in
       do gs <- lift (groups_for_upload srv file_info.2);
       let m_session := set_groups m_session gs in
       let query_list := url_query_list req in
       if state_num m_session <? die_limit srv then
         throw (std_exception "Too low number of existing states")
       else
         let dc := data_container_of buffer in
         do dc <-
           (if has_item query_list "embed" || has_item query_list "embed_timestamp" then
              do tv_sec <- lift (get_arg lib query_list "timestamp" 0);
              ret (set_timestamp dc (tv_sec, 0))
            else ret dc);
         let m_session :=
           if negb (embeds_count dc =? 0)
           then set_user_flags m_session (Z.lor (get_user_flags m_session) UF_EMBEDS)
           else m_session in
         let m_content := pack lib dc in
         run (if level_ge srv SWARM_LOG_INFO then
                log SWARM_LOG_INFO
                  (print_groups (get_groups m_session)
                     ("Upload: writing content by key=" +:+ key_to_string lib m_key
                      +:+ " into groups=[") +:+ "]")
              else ret tt);
         do _ <- write lib m_session m_key m_content query_list;
         ret tt).

Definition good_groups_of (swr : list lookup_result_entry) : list Z :=
  map command_group_id swr.

(** The [bad_groups] vector of the error branch of [on_finished]. *)
Definition bad_groups_of (self : req_upload) (swr : list lookup_result_entry) : list Z :=
  let all_groups := sort (get_groups (m_session self)) in
  let good_groups := sort (good_groups_of swr) in
  set_difference all_groups good_groups.

(** The loop that prints one [<complete .../>] line per entry of the write
    result and counts the entries of status 0. *)
Fixpoint complete_loop (lib : platform) (srv : proxy) (swr : list lookup_result_entry)
    (oss : string) (written : Z) : string * Z :=
  match swr with
  | [] => (oss, written)
  | it :: rest =>
      let pl := parse_lookup srv it in
      let written :=
        if lookup_result_cpp.status pl =? 0 then written + 1 else written in
      let '(a, pl) := lookup_result_cpp.addr lib pl in
      let '(fp, pl) := lookup_result_cpp.full_path pl in
      let oss :=
        oss +:+ "<complete addr=" +:+ dquote +:+ a +:+ dquote
            +:+ " path=" +:+ dquote +:+ fp +:+ dquote
            +:+ " group=" +:+ dquote +:+ pretty (lookup_result_cpp.group pl) +:+ dquote
            +:+ " status=" +:+ dquote +:+ pretty (lookup_result_cpp.status pl) +:+ dquote
            +:+ "/>" +:+ endl in
      complete_loop lib srv rest oss written
  end.

Definition xml_declaration : string :=
  "<?xml version=" +:+ dquote +:+ "1.0" +:+ dquote
  +:+ " encoding=" +:+ dquote +:+ "utf-8" +:+ dquote +:+ "?>".

Definition req_upload_on_finished (lib : platform) (srv : proxy) (self : req_upload)
    (now : Z) (swr : list lookup_result_entry) (error : error_info) : io unit :=
  try_catch
    (run log SWARM_LOG_DEBUG "Upload: prepare response";
     let good_groups := good_groups_of swr in
     match error with
     | Some e =>
         let all_groups := sort (get_groups (m_session self)) in
         let good_groups := sort good_groups in
         run log SWARM_LOG_ERROR
               (print_groups all_groups
                  (print_groups good_groups "good groups: [" +:+ "]; all groups: [")
                +:+ "]");
         let bad_groups := set_difference all_groups good_groups in
         let oss :=
           print_groups bad_groups
             (print_groups good_groups "wrote into groups: [" +:+ "]; cannot write into: [")
           +:+ "]" in
         run log SWARM_LOG_ERROR
               ("Upload finish ERROR: " +:+ error_message e +:+ "; " +:+ oss);
         send_reply_code 500
     | None =>
         let oss :=
           xml_declaration +:+ endl
           +:+ "<post obj=" +:+ dquote +:+ remote (m_key self) +:+ dquote
           +:+ " id=" +:+ dquote +:+ id_str lib (m_key self) +:+ dquote
           +:+ " groups=" +:+ dquote +:+ pretty (Z.of_nat (length swr)) +:+ dquote
           +:+ " size=" +:+ dquote +:+ pretty (std_string.size (m_content self)) +:+ dquote
           +:+ " key=" +:+ dquote +:+ "/" in
         do git <- lift (min_element (get_groups (m_session self)));
         let oss := oss +:+ pretty git in
         let oss := oss +:+ "/" +:+ remote (m_key self) +:+ dquote +:+ ">" +:+ endl in
         let '(oss, written) := complete_loop lib srv swr oss 0 in
         let oss := oss +:+ "<written>" +:+ pretty written +:+ "</written>" +:+ endl
                        +:+ "</post>" in
         let res_str := oss in
         let headers := set_content_length [] (std_string.size res_str) in
         let headers := set_content_type headers "text/plain" in
         let reply := {| response_code := 200; response_headers := headers |} in
         let end_time := now in
         run (if level_ge srv SWARM_LOG_INFO then
                log SWARM_LOG_INFO
                  (print_groups good_groups
                     ("Upload: done; status code: 200; spent time: "
                      +:+ pretty (end_time - m_beg_time self)
                      +:+ "; wrote into groups: [") +:+ "]")
              else ret tt);
         send_reply_data reply res_str
     end)
    (fun what =>
       run log SWARM_LOG_ERROR ("Upload finish ERROR: " +:+ what);
       send_reply_code 500)
    (run log SWARM_LOG_ERROR "Upload finish ERROR: unknown";
     send_reply_code 500).

(** *** [req_get] *)

Definition req_get_on_request (lib : platform) (srv : proxy) (req : http_request) : io unit :=
  try_catch
    (run log SWARM_LOG_INFO ("Get: handle request: " +:+ url_to_string req);
     do prep_session <- prepare_session lib srv req;
     let session := prep_session.1 in
     if bool_decide (get_groups session = []) then
       send_reply_code 404
     else
       let m_query_list := url_query_list req in
       let key := prep_session.2 in
       do offset <- lift (get_arg lib m_query_list "offset" 0);
       do sz <- lift (get_arg lib m_query_list "size" 0);
       run log SWARM_LOG_DEBUG "Get: reading data";
       emit (ev_read_data session key offset sz))
    (fun what =>
       run log SWARM_LOG_ERROR ("Get request error: " +:+ what);
       send_reply_code 500)
    (run log SWARM_LOG_ERROR "Get request error: unknown";
     send_reply_code 500).

(** The flag [embeded] that [on_finished] passes to [unpack]. *)
Definition embeded_flag (m_query_list : url_query) (rr : read_result_entry) : bool :=
  let embeded := has_item m_query_list "embed" || has_item m_query_list "embed_timestamp" in
  if negb (Z.land (io_attribute_user_flags rr) UF_EMBEDS =? 0) then true else embeded.

Definition req_get_on_finished (lib : platform) (m_query_list : url_query)
    (srr : list read_result_entry) (error : error_info)
    (if_modified_since : option string) : io unit :=
  try_catch
    (run log SWARM_LOG_DEBUG "Get: prepare response";
     match error with
     | Some e =>
         run log SWARM_LOG_ERROR (error_message e);
         send_reply_code (if error_code e =? - ENOENT then 404 else 500)
     | None =>
         do rr <- lift (front srr);
         let embeded := embeded_flag m_query_list rr in
         do dc <- lift (unpack lib (file rr) embeded);
         let ts := embed_timestamp dc in
         let headers : http_headers := [] in
         let finish (headers : http_headers) : io unit :=
           let res_str := data dc in
           let headers := set_content_length headers (std_string.size res_str) in
           let headers := set_content_type headers "text/plain" in
           let reply := {| response_code := 200; response_headers := headers |} in
           run log SWARM_LOG_DEBUG "Get: sending response";
           send_reply_data reply res_str in
         match ts with
         | Some ts =>
             let ts_str := http_date lib ts.1 in
             if bool_decide (if_modified_since = Some ts_str) then
               send_reply_code 304
             else
               finish (headers_set headers "Last-Modified" ts_str)
         | None => finish headers
         end
     end)
    (fun what =>
       run log SWARM_LOG_ERROR ("Get finish error: " +:+ what);
       send_reply_code 500)
    (run log SWARM_LOG_ERROR "Get finish error: unknown";
     send_reply_code 500).

(** *** [req_delete], as proxy.cpp defines it *)

Definition req_delete_on_request (lib : platform) (srv : proxy) (req : http_request) : io unit :=
  try_catch
    (run log SWARM_LOG_INFO ("Delete: handle request: " +:+ url_to_string req);
     do prep_session <- prepare_session lib srv req;
     let session := prep_session.1 in
     if bool_decide (get_groups session = []) then
       send_reply_code 404
     else if state_num session <? die_limit srv then
       throw (std_exception "Too low number of existing states")
     else
       let session := set_filter session filters_all in
       let key := prep_session.2 in
       run log SWARM_LOG_DEBUG "Delete: removing data";
       emit (ev_remove session key))
    (fun what =>
       run log SWARM_LOG_ERROR ("Delete request error: " +:+ what);
       send_reply_code 500)
    (run log SWARM_LOG_ERROR "Delete request error: unknown";
     send_reply_code 500).

Definition req_delete_on_finished (srr : sync_remove_result) (error : error_info)
  : io unit :=
  match error with
  | Some e =>
      run log SWARM_LOG_ERROR (error_message e);
      send_reply_code (if error_code e =? - ENOENT then 404 else 500)
  | None =>
      run log SWARM_LOG_DEBUG "Delete: sending reply";
      send_reply_code 200
  end.

(** *** [req_download_info] *)

Definition req_download_info_on_request (lib : platform) (srv : proxy) (req : http_request)
  : io unit :=
  try_catch
    (run log SWARM_LOG_INFO ("Download info: handle request: " +:+ url_to_string req);
     do prep_session <- prepare_session lib srv req;
     let session := prep_session.1 in
     if bool_decide (get_groups session = []) then
       send_reply_code 404
     else
       let session := set_filter session filters_all in
       let key := prep_session.2 in
       run log SWARM_LOG_DEBUG "Download info: looking up";
       emit (ev_lookup session key))
    (fun what =>
       run log SWARM_LOG_ERROR ("Download info request error: " +:+ what);
       send_reply_code 500)
    (run log SWARM_LOG_ERROR "Download info request error: unknown";
     send_reply_code 500).

(** The body of the [for] loop of [on_finished] for an entry without an
    error: it renders the document and replies. *)
Definition download_info_reply (lib : platform) (srv : proxy) (it : lookup_result_entry)
  : io unit :=
  let oss := xml_declaration in
  let region := "-1"%string in
  let entry := parse_lookup srv it in
  let oss := oss +:+ "<download-info>" in
  do h <- lift (lookup_result_cpp.host lib entry);
  let oss := oss +:+ "<host>" +:+ h.1 +:+ "</host>" in
  let '(p, entry) := lookup_result_cpp.path h.2 in
  let oss := oss +:+ "<path>" +:+ p +:+ "</path>" in
  let oss := oss +:+ "<region>" +:+ region +:+ "</region>" in
  let oss := oss +:+ "</download-info>" in
  let str := oss in
  let headers := set_content_length [] (std_string.size str) in
  let headers := set_content_type headers "text/xml" in
  let reply := {| response_code := 200; response_headers := headers |} in
  send_reply_data reply str.

Fixpoint download_info_loop (lib : platform) (srv : proxy) (slr : list lookup_result_entry)
  : io unit :=
  match slr with
  | [] =>
      run log SWARM_LOG_DEBUG "Download info: sending response";
      send_reply_code 503
  | it :: rest =>
      match entry_error it with
      | None => download_info_reply lib srv it
      | Some _ => download_info_loop lib srv rest
      end
  end.

Definition req_download_info_on_finished (lib : platform) (srv : proxy)
    (slr : list lookup_result_entry) (error : error_info) : io unit :=
  try_catch
    (run log SWARM_LOG_DEBUG "Download info: prepare response";
     match error with
     | Some e =>
         run log SWARM_LOG_ERROR (error_message e);
         send_reply_code (if error_code e =? - ENOENT then 404 else 500)
     | None => download_info_loop lib srv slr
     end)
    (fun what =>
       run log SWARM_LOG_ERROR ("Download info finish error: " +:+ what);
       send_reply_code 500)
    (run log SWARM_LOG_ERROR "Download info finish error: unknown";
     send_reply_code 500).

(** *** [req_ping] *)

Definition req_ping_on_request (srv : proxy) (req : http_request) : io unit :=
  try_catch
    (run log SWARM_LOG_INFO ("Ping: handle request: " +:+ url_to_string req);
     let code := 200 in
     let session := get_session srv in
     let code := if state_num session <? die_limit srv then 500 else code in
     send_reply_code code)
    (fun what =>
       run log SWARM_LOG_ERROR ("Ping request error: " +:+ what);
       send_reply_code 500)
    (run log SWARM_LOG_ERROR "Ping request error: unknown";
     send_reply_code 500).

(** *** [req_cache] *)

(** One of the four [if (query_list.has_item(flag))] blocks: the stream
    and the flag [g] before and after. *)
Definition cache_field (query_list : url_query) (flag : string) (json : outcome string)
    (first_block : bool) (st : string * bool) : outcome (string * bool) :=
  let '(oss, g) := st in
  if has_item query_list flag then
    let oss := if negb first_block && g then oss +:+ "," +:+ endl else oss in
    let oss := oss +:+ dquote +:+ flag +:+ dquote +:+ " : " in
    eval j <- json;
    Normal (oss +:+ j, true)
  else Normal (oss, g).

(** The string [res_str] that [on_request] builds. *)
Definition cache_body (srv : proxy) (query_list : url_query) : outcome string :=
  let mm := m_mastermind srv in
  let g := false in
  let oss := "{" +:+ endl in
  eval st <- cache_field query_list "group-weights" (json_group_weights mm) true (oss, g);
  eval st <- cache_field query_list "symmetric-groups" (json_symmetric_groups mm) false st;
  eval st <- cache_field query_list "bad-groups" (json_bad_groups mm) false st;
  eval st <- cache_field query_list "cache-groups" (json_cache_groups mm) false st;
  let '(oss, g) := st in
  let oss := if g then oss +:+ endl else oss in
  Normal (oss +:+ "}" +:+ endl).

Definition req_cache_on_request (srv : proxy) (req : http_request) : io unit :=
  try_catch
    (run log SWARM_LOG_INFO ("Cache: handle request: " +:+ url_to_string req);
     let query_list := url_query_list req in
     do res_str <- lift (cache_body srv query_list);
     let headers := set_content_length [] (std_string.size res_str) in
     let headers := set_content_type headers "text/plain" in
     let reply := {| response_code := 200; response_headers := headers |} in
     run log SWARM_LOG_DEBUG "Cache: sending response";
     send_reply_data reply res_str)
    (fun what =>
       run log SWARM_LOG_ERROR ("Cache request error: " +:+ what);
       send_reply_code 500)
    (run log SWARM_LOG_ERROR "Cache request error: unknown";
     send_reply_code 500).

(** *** [req_stat_log], the request *)

Definition req_stat_log_on_request (srv : proxy) (req : http_request) : io unit :=
  try_catch
    (run log SWARM_LOG_INFO ("Stat log: handle request: " +:+ url_to_string req);
     let session := get_session srv in
     run log SWARM_LOG_DEBUG "Stat log: process 'stat_log'";
     emit (ev_stat_log session))
    (fun what =>
       run log SWARM_LOG_ERROR ("Stat log request error: " +:+ what);
       send_reply_code 500)
    (run log SWARM_LOG_ERROR "Stat log request error: unknown";
     send_reply_code 500).

(** *** [req_stat_log], the completion *)

(** The [basefield] of an output stream. *)
Inductive basefield : Type := ios_dec | ios_hex.

(** [oss << z] for an unsigned integer [z]: no [showbase], no [uppercase]. *)
Definition put_unsigned (base : basefield) (z : Z) : string :=
  match base with
  | ios_dec => pretty z
  | ios_hex => NilZero.string_of_uint (N.to_hex_uint (Z.to_N z))
  end.

Definition uint64_t (z : Z) : Z := z mod 2 ^ 64.

(** The [for] loop of [on_finished]: the stream, that is its text and its
    [basefield], before and after.  [render_load la] is what
    [oss << std::fixed << std::setprecision(2) << static_cast<float>(la) / 100.0]
    appends. *)
Fixpoint stat_loop (lib : platform) (render_load : Z -> string)
    (ssr : list stat_result_entry) (oss : string) (base : basefield) : string * basefield :=
  match ssr with
  | [] => (oss, base)
  | data :: rest =>
      let addr_str := dnet_server_convert_dnet_addr_raw lib (stat_address data) in
      let id_str := dnet_dump_id_len_raw lib (stat_command_id data) in
      let oss := oss +:+ "<stat addr=" +:+ dquote +:+ addr_str +:+ dquote
                     +:+ " id=" +:+ dquote +:+ id_str +:+ dquote +:+ ">" in
      let oss := oss +:+ "<la>" in
      let '(la0, la1, la2) := stat_la data in
      let oss := oss +:+ render_load la0 +:+ " " in
      let oss := oss +:+ render_load la1 +:+ " " in
      let oss := oss +:+ render_load la2 in
      let oss := oss +:+ "</la>" in
      let oss := oss +:+ "<memtotal>" +:+ put_unsigned base (vm_total data)
                     +:+ "</memtotal>" in
      let oss := oss +:+ "<memfree>" +:+ put_unsigned base (vm_free data)
                     +:+ "</memfree>" in
      let oss := oss +:+ "<memcached>" +:+ put_unsigned base (vm_cached data)
                     +:+ "</memcached>" in
      let oss := oss +:+ "<storage_size>"
                     +:+ put_unsigned base
                           (uint64_t (frsize data * blocks data) / 1024 / 1024)
                     +:+ "</storage_size>" in
      let oss := oss +:+ "<available_size>"
                     +:+ put_unsigned base
                           (uint64_t (bavail data * bsize data) / 1024 / 1024)
                     +:+ "</available_size>" in
      let oss := oss +:+ "<files>" +:+ put_unsigned base (files data) +:+ "</files>" in
      let base := ios_hex in
      let oss := oss +:+ "<fsid>" +:+ put_unsigned base (fsid data) +:+ "</fsid>" in
      let oss := oss +:+ "</stat>" in
      stat_loop lib render_load rest oss base
  end.

Definition req_stat_log_on_finished (lib : platform) (render_load : Z -> string)
    (ssr : list stat_result_entry) (error : error_info) : io unit :=
  try_catch
    (run log SWARM_LOG_DEBUG "Stat log: prepare response";
     match error with
     | Some e =>
         run log SWARM_LOG_ERROR (error_message e);
         send_reply_code 500
     | None =>
         let oss := xml_declaration in
         let oss := oss +:+ "<data>" +:+ endl in
         let '(oss, _) := stat_loop lib render_load ssr oss ios_dec in
         let oss := oss +:+ "</data>" in
         let body := oss in
         let headers := set_content_type [] "text/xml" in
         let headers := set_content_length headers (std_string.size body) in
         let reply := {| response_code := 200; response_headers := headers |} in
         run log SWARM_LOG_DEBUG "Stat log: sending response";
         send_reply_data reply body
     end)
    (fun what =>
       run log SWARM_LOG_ERROR ("Stat log finish error: " +:+ what);
       send_reply_code 500)
    (run log SWARM_LOG_ERROR "Stat log finish error: unknown";
     send_reply_code 500).

(** *** Start-up *)

Definition generate_logger (rt : runtime) (config : Value) (n : string)
  : outcome (logger_t rt) :=
  let log_path := "/dev/stderr"%string in
  let log_mask := Z.lor (DNET_LOG_INFO rt) (DNET_LOG_ERROR rt) in
  eval has_log <- HasMember config (n +:+ "-log");
  eval p <-
    (if has_log then
       eval log <- member config (n +:+ "-log");
       eval has_path <- HasMember log "path";
       eval log_path <-
         (if has_path then (eval v <- member log "path"; GetString v)
          else Normal log_path);
       eval has_level <- HasMember log "level";
       eval log_mask <-
         (if has_level then (eval v <- member log "level"; GetInt v)
          else Normal log_mask);
       Normal (log_path, log_mask)
     else Normal (log_path, log_mask));
  new_logger rt p.1 p.2.

Definition generate_node (rt : runtime) (config : Value) (logger : logger_t rt)
  : outcome (node_t rt) :=
  let dnet_conf := {| wait_timeout := 0; check_timeout := 0; dnet_flags := 0 |} in
  eval has_timeouts <- HasMember config "timeouts";
  eval dnet_conf <-
    (if has_timeouts then
       eval timeouts <- member config "timeouts";
       eval has_wait <- HasMember timeouts "wait";
       eval dnet_conf <-
         (if has_wait then
            eval v <- member timeouts "wait";
            eval i <- GetInt v;
            Normal {| wait_timeout := i; check_timeout := check_timeout dnet_conf;
                      dnet_flags := dnet_flags dnet_conf |}
          else Normal dnet_conf);
       eval has_check <- HasMember timeouts "check";
       (if has_check then
          eval v <- member timeouts "check";
          eval i <- GetInt v;
          Normal {| wait_timeout := wait_timeout dnet_conf; check_timeout := i;
                    dnet_flags := dnet_flags dnet_conf |}
        else Normal dnet_conf)
     else Normal dnet_conf);
  eval has_flags <- HasMember config "cfg-flags";
  eval dnet_conf <-
    (if has_flags then
       eval v <- member config "cfg-flags";
       eval i <- GetInt v;
       Normal {| wait_timeout := wait_timeout dnet_conf;
                 check_timeout := check_timeout dnet_conf; dnet_flags := i |}
     else Normal dnet_conf);
  new_node rt logger dnet_conf.

(** The loop of [generate_session] over the "remotes" array: the lines
    logged and the node afterwards. *)
Fixpoint add_remotes (rt : runtime) (logger : logger_t rt) (elements : list Value)
    (node : node_t rt) : list (init_event rt) * outcome (node_t rt) :=
  match elements with
  | [] => ([], Normal node)
  | it :: rest =>
      match GetString it with
      | Normal host =>
          let '(node, r) := add_remote rt node host in
          match r with
          | Normal _ => add_remotes rt logger rest node
          | Thrown (std_exception what) =>
              let oss := "Can't connect to remote node " +:+ host +:+ " : " +:+ what in
              let '(t, o) := add_remotes rt logger rest node in
              (dnet_log_info logger oss :: t, o)
          | Thrown other_exception => ([], Thrown other_exception)
          | Undefined => ([], Undefined)
          end
      | Thrown e => ([], Thrown e)
      | Undefined => ([], Undefined)
      end
  end.

Definition generate_session (rt : runtime) (config : Value) (logger : logger_t rt)
  : list (init_event rt) * outcome session :=
  match generate_node rt config logger with
  | Normal node =>
      match HasMember config "remotes" with
      | Normal false =>
          ([], Thrown (std_exception "You should set a list of remote addresses"))
      | Normal true =>
          match (eval conf_remotes <- member config "remotes"; Elements conf_remotes) with
          | Normal elements =>
              let '(t, o) := add_remotes rt logger elements node in
              (t, eval node <- o;
                  eval session <- new_session rt node;
                  Normal (set_error_handler session error_handlers_none))
          | Thrown e => ([], Thrown e)
          | Undefined => ([], Undefined)
          end
      | Thrown e => ([], Thrown e)
      | Undefined => ([], Undefined)
      end
  | Thrown e => ([], Thrown e)
  | Undefined => ([], Undefined)
  end.

(** The loop of [generate_mastermind] over the "nodes" array: the lines
    logged and the remotes collected. *)
Fixpoint mastermind_remotes (rt : runtime) (sp_lg : logger_t rt) (nodes : list Value)
    (remotes : list (string * Z)) : list (init_event rt) * outcome (list (string * Z)) :=
  match nodes with
  | [] => ([], Normal remotes)
  | node :: rest =>
      match HasMember node "host" with
      | Normal false =>
          let '(t, o) := mastermind_remotes rt sp_lg rest remotes in
          (cocaine_log_info sp_lg
             "You should set a host address in each node of mastermind settings" :: t, o)
      | Normal true =>
          match (eval v <- member node "host";
                 eval host <- GetString v;
                 eval port <- get_int node "port" 10053;
                 Normal (host, port)) with
          | Normal remote => mastermind_remotes rt sp_lg rest (remotes ++ [remote])
          | Thrown e => ([], Thrown e)
          | Undefined => ([], Undefined)
          end
      | Thrown e => ([], Thrown e)
      | Undefined => ([], Undefined)
      end
  end.

Definition generate_mastermind (rt : runtime) (config : Value) (logger : logger_t rt)
  : list (init_event rt) * outcome mastermind_t :=
  match HasMember config "mastermind" with
  | Normal false => ([], Thrown (std_exception "You should set settings for mastermind"))
  | Normal true =>
      match member config "mastermind" with
      | Normal mastermind =>
          match HasMember mastermind "nodes" with
          | Normal false =>
              ([], Thrown (std_exception
                             "You should set at least one node to connect to mastermind"))
          | Normal true =>
              match (eval nodes <- member mastermind "nodes"; Elements nodes) with
              | Normal nodes =>
                  let sp_lg := logger in
                  let '(t, o) := mastermind_remotes rt sp_lg nodes [] in
                  (t, eval remotes <- o;
                      eval group_info_update_period <-
                        get_int mastermind "group-info-update-period" 60;
                      new_mastermind rt remotes sp_lg group_info_update_period)
              | Thrown e => ([], Thrown e)
              | Undefined => ([], Undefined)
              end
          | Thrown e => ([], Thrown e)
          | Undefined => ([], Undefined)
          end
      | Thrown e => ([], Thrown e)
      | Undefined => ([], Undefined)
      end
  | Thrown e => ([], Thrown e)
  | Undefined => ([], Undefined)
  end.

Inductive handler_t : Type :=
| on_req_upload | on_req_get | on_req_delete | on_req_download_info
| on_req_stat_log | on_req_ping | on_req_cache.

(** [options::prefix_match] and [options::exact_match] *)
Inductive match_t : Type :=
| prefix_match (p : string)
| exact_match (p : string).

(** The members of [proxy] that [initialize] assigns, and the handlers
    registered with the server. *)
Record members (rt : runtime) : Type := {
  m_proxy_logger : option (logger_t rt);
  m_elliptics_logger : option (logger_t rt);
  m_mastermind_logger : option (logger_t rt);
  m_elliptics_session : option session;
  m_mastermind : option mastermind_t;
  m_namespaces : gmap string namespace_t;
  m_die_limit : Z;
  m_eblob_style_path : bool;
  m_direction_bit_num : Z;
  m_base_port : Z;
  handlers : list (match_t * handler_t)
}.
Arguments m_proxy_logger {rt} _.
Arguments m_elliptics_logger {rt} _.
Arguments m_mastermind_logger {rt} _.
Arguments m_elliptics_session {rt} _.
Arguments m_mastermind {rt} _.
Arguments m_namespaces {rt} _.
Arguments m_die_limit {rt} _.
Arguments m_eblob_style_path {rt} _.
Arguments m_direction_bit_num {rt} _.
Arguments m_base_port {rt} _.
Arguments handlers {rt} _.

(** The assignments to one member. *)
Definition reset_proxy_logger {rt} (self : members rt) (v : logger_t rt) : members rt :=
  {| m_proxy_logger := Some v;
     m_elliptics_logger := m_elliptics_logger self;
     m_mastermind_logger := m_mastermind_logger self;
     m_elliptics_session := m_elliptics_session self;
     m_mastermind := m_mastermind self;
     m_namespaces := m_namespaces self;
     m_die_limit := m_die_limit self;
     m_eblob_style_path := m_eblob_style_path self;
     m_direction_bit_num := m_direction_bit_num self;
     m_base_port := m_base_port self;
     handlers := handlers self |}.

Definition reset_elliptics_logger {rt} (self : members rt) (v : logger_t rt) : members rt :=
  {| m_proxy_logger := m_proxy_logger self;
     m_elliptics_logger := Some v;
     m_mastermind_logger := m_mastermind_logger self;
     m_elliptics_session := m_elliptics_session self;
     m_mastermind := m_mastermind self;
     m_namespaces := m_namespaces self;
     m_die_limit := m_die_limit self;
     m_eblob_style_path := m_eblob_style_path self;
     m_direction_bit_num := m_direction_bit_num self;
     m_base_port := m_base_port self;
     handlers := handlers self |}.

Definition reset_mastermind_logger {rt} (self : members rt) (v : logger_t rt) : members rt :=
  {| m_proxy_logger := m_proxy_logger self;
     m_elliptics_logger := m_elliptics_logger self;
     m_mastermind_logger := Some v;
     m_elliptics_session := m_elliptics_session self;
     m_mastermind := m_mastermind self;
     m_namespaces := m_namespaces self;
     m_die_limit := m_die_limit self;
     m_eblob_style_path := m_eblob_style_path self;
     m_direction_bit_num := m_direction_bit_num self;
     m_base_port := m_base_port self;
     handlers := handlers self |}.

Definition reset_elliptics_session {rt} (self : members rt) (v : session) : members rt :=
  {| m_proxy_logger := m_proxy_logger self;
     m_elliptics_logger := m_elliptics_logger self;
     m_mastermind_logger := m_mastermind_logger self;
     m_elliptics_session := Some v;
     m_mastermind := m_mastermind self;
     m_namespaces := m_namespaces self;
     m_die_limit := m_die_limit self;
     m_eblob_style_path := m_eblob_style_path self;
     m_direction_bit_num := m_direction_bit_num self;
     m_base_port := m_base_port self;
     handlers := handlers self |}.

Definition assign_mastermind {rt} (self : members rt) (v : mastermind_t) : members rt :=
  {| m_proxy_logger := m_proxy_logger self;
     m_elliptics_logger := m_elliptics_logger self;
     m_mastermind_logger := m_mastermind_logger self;
     m_elliptics_session := m_elliptics_session self;
     m_mastermind := Some v;
     m_namespaces := m_namespaces self;
     m_die_limit := m_die_limit self;
     m_eblob_style_path := m_eblob_style_path self;
     m_direction_bit_num := m_direction_bit_num self;
     m_base_port := m_base_port self;
     handlers := handlers self |}.

Definition assign_namespaces {rt} (self : members rt) (v : gmap string namespace_t) : members rt :=
  {| m_proxy_logger := m_proxy_logger self;
     m_elliptics_logger := m_elliptics_logger self;
     m_mastermind_logger := m_mastermind_logger self;
     m_elliptics_session := m_elliptics_session self;
     m_mastermind := m_mastermind self;
     m_namespaces := v;
     m_die_limit := m_die_limit self;
     m_eblob_style_path := m_eblob_style_path self;
     m_direction_bit_num := m_direction_bit_num self;
     m_base_port := m_base_port self;
     handlers := handlers self |}.

Definition assign_die_limit {rt} (self : members rt) (v : Z) : members rt :=
  {| m_proxy_logger := m_proxy_logger self;
     m_elliptics_logger := m_elliptics_logger self;
     m_mastermind_logger := m_mastermind_logger self;
     m_elliptics_session := m_elliptics_session self;
     m_mastermind := m_mastermind self;
     m_namespaces := m_namespaces self;
     m_die_limit := v;
     m_eblob_style_path := m_eblob_style_path self;
     m_direction_bit_num := m_direction_bit_num self;
     m_base_port := m_base_port self;
     handlers := handlers self |}.

Definition assign_eblob_style_path {rt} (self : members rt) (v : bool) : members rt :=
  {| m_proxy_logger := m_proxy_logger self;
     m_elliptics_logger := m_elliptics_logger self;
     m_mastermind_logger := m_mastermind_logger self;
     m_elliptics_session := m_elliptics_session self;
     m_mastermind := m_mastermind self;
     m_namespaces := m_namespaces self;
     m_die_limit := m_die_limit self;
     m_eblob_style_path := v;
     m_direction_bit_num := m_direction_bit_num self;
     m_base_port := m_base_port self;
     handlers := handlers self |}.

Definition assign_direction_bit_num {rt} (self : members rt) (v : Z) : members rt :=
  {| m_proxy_logger := m_proxy_logger self;
     m_elliptics_logger := m_elliptics_logger self;
     m_mastermind_logger := m_mastermind_logger self;
     m_elliptics_session := m_elliptics_session self;
     m_mastermind := m_mastermind self;
     m_namespaces := m_namespaces self;
     m_die_limit := m_die_limit self;
     m_eblob_style_path := m_eblob_style_path self;
     m_direction_bit_num := v;
     m_base_port := m_base_port self;
     handlers := handlers self |}.

Definition assign_base_port {rt} (self : members rt) (v : Z) : members rt :=
  {| m_proxy_logger := m_proxy_logger self;
     m_elliptics_logger := m_elliptics_logger self;
     m_mastermind_logger := m_mastermind_logger self;
     m_elliptics_session := m_elliptics_session self;
     m_mastermind := m_mastermind self;
     m_namespaces := m_namespaces self;
     m_die_limit := m_die_limit self;
     m_eblob_style_path := m_eblob_style_path self;
     m_direction_bit_num := m_direction_bit_num self;
     m_base_port := v;
     handlers := handlers self |}.

Definition register {rt} (self : members rt) (v : list (match_t * handler_t)) : members rt :=
  {| m_proxy_logger := m_proxy_logger self;
     m_elliptics_logger := m_elliptics_logger self;
     m_mastermind_logger := m_mastermind_logger self;
     m_elliptics_session := m_elliptics_session self;
     m_mastermind := m_mastermind self;
     m_namespaces := m_namespaces self;
     m_die_limit := m_die_limit self;
     m_eblob_style_path := m_eblob_style_path self;
     m_direction_bit_num := m_direction_bit_num self;
     m_base_port := m_base_port self;
     handlers := handlers self ++ v |}.

(** The assignments of the [try] block of [initialize], in their order:
    the lines written, the members when the block is left, and how the block
    is left. *)
Definition initialize_try (rt : runtime) (config : Value) (self : members rt)
  : list (init_event rt) * members rt * outcome unit :=
  match generate_logger rt config "proxy" with
  | Normal proxy_logger =>
  let self := reset_proxy_logger self proxy_logger in
  match generate_logger rt config "elliptics" with
  | Normal elliptics_logger =>
  let self := reset_elliptics_logger self elliptics_logger in
  match generate_logger rt config "mastermind" with
  | Normal mastermind_logger =>
  let self := reset_mastermind_logger self mastermind_logger in
  match generate_session rt config elliptics_logger with
  | (t1, Normal session) =>
  let self := reset_elliptics_session self session in
  match generate_mastermind rt config mastermind_logger with
  | (t2, Normal mastermind) =>
  let self := assign_mastermind self mastermind in
  match generate_namespaces config with
  | Normal namespaces =>
  let self := assign_namespaces self namespaces in
  match get_int config "die-limit" 1 with
  | Normal die_limit =>
  let self := assign_die_limit self die_limit in
  match get_bool config "eblob-style-path" true with
  | Normal eblob_style_path =>
  let self := assign_eblob_style_path self eblob_style_path in
  match get_int config "direction-bit-num" 16 with
  | Normal direction_bit_num =>
  let self := assign_direction_bit_num self direction_bit_num in
  match get_int config "base-port" 1024 with
  | Normal base_port =>
  let self := assign_base_port self base_port in
  (t1 ++ t2, self, Normal tt)
  | Thrown e => (t1 ++ t2, self, Thrown e)
  | Undefined => (t1 ++ t2, self, Undefined)
  end
  | Thrown e => (t1 ++ t2, self, Thrown e)
  | Undefined => (t1 ++ t2, self, Undefined)
  end
  | Thrown e => (t1 ++ t2, self, Thrown e)
  | Undefined => (t1 ++ t2, self, Undefined)
  end
  | Thrown e => (t1 ++ t2, self, Thrown e)
  | Undefined => (t1 ++ t2, self, Undefined)
  end
  | Thrown e => (t1 ++ t2, self, Thrown e)
  | Undefined => (t1 ++ t2, self, Undefined)
  end
  | (t2, Thrown e) => (t1 ++ t2, self, Thrown e)
  | (t2, Undefined) => (t1 ++ t2, self, Undefined)
  end
  | (t1, Thrown e) => (t1, self, Thrown e)
  | (t1, Undefined) => (t1, self, Undefined)
  end
  | Thrown e => ([], self, Thrown e)
  | Undefined => ([], self, Undefined)
  end
  | Thrown e => ([], self, Thrown e)
  | Undefined => ([], self, Undefined)
  end
  | Thrown e => ([], self, Thrown e)
  | Undefined => ([], self, Undefined)
  end.

(** The [on<...>(...)] calls of [initialize], in their order. *)
Definition routes : list (match_t * handler_t) :=
  [(prefix_match "/upload", on_req_upload);
   (prefix_match "/get/", on_req_get);
   (prefix_match "/delete/", on_req_delete);
   (prefix_match "/download_info/", on_req_download_info);
   (prefix_match "/download-info/", on_req_download_info);
   (exact_match "/stat-log", on_req_stat_log);
   (exact_match "/stat_log", on_req_stat_log);
   (exact_match "/ping", on_req_ping);
   (exact_match "/stat", on_req_ping);
   (exact_match "/cache", on_req_cache)].

(** [proxy::initialize]: the lines written, the members afterwards and the
    value returned.  The [catch] block reports to the proxy's logger when
    there is one by then, to [std::cerr] otherwise. *)
Definition initialize (rt : runtime) (config : Value) (self : members rt)
  : list (init_event rt) * members rt * outcome bool :=
  let '(t, self, o) := initialize_try rt config self in
  let caught : list (init_event rt) * outcome unit :=
    match o with
    | Thrown (std_exception what) =>
        match m_proxy_logger self with
        | Some l => ([swarm_log_error l what], Normal tt)
        | None => ([cerr_line (what +:+ endl)], Normal tt)
        end
    | _ => ([], o)
    end in
  match caught.2 with
  | Normal _ => (t ++ caught.1, register self routes, Normal true)
  | Thrown e => (t ++ caught.1, self, Thrown e)
  | Undefined => (t ++ caught.1, self, Undefined)
  end.

End proxy_cpp.

(** ** delete.cpp, the revision that resolves the namespace first *)

Module delete_cpp_ns.

Definition on_request (srv : proxy) (req : http_request) : io unit :=
  try_catch
    (run log SWARM_LOG_INFO ("Delete: handle request: " +:+ url_to_string req);
     let url_str := url_to_string req in
     do ns <-
       match get_namespace srv url_str "/delete" with
       | Thrown (std_exception what) =>
           run log SWARM_LOG_INFO
                 ("Delete: request = " +:+ dquote +:+ url_str +:+ dquote
                  +:+ ", err = " +:+ dquote +:+ what +:+ dquote);
           run send_reply_code 400;
           ret None
       | o => do ns <- lift o; ret (Some ns)
       end;
     match ns with
     | None => ret tt
     | Some ns =>
         if negb (check_basic_auth srv (name ns) (auth_key ns)
                    (headers_get (request_headers req) "Authorization"))
         then
           send_reply
             {| response_code := 401;
                response_headers :=
                  headers_add [] "WWW-Authenticate"
                    ("Basic realm=" +:+ dquote +:+ name ns +:+ dquote) |}
         else
           do prep_session <- lift (prepare_session_ns srv url_str ns);
           let session := prep_session.1 in
           let key := prep_session.2 in
           if state_num session <? die_limit srv then
             throw (std_exception "Too low number of existing states")
           else
             let session := set_filter session filters_all in
             run log SWARM_LOG_DEBUG "Delete: removing data";
             emit (ev_remove session key)
     end)
    (fun what =>
       run log SWARM_LOG_ERROR ("Delete request error: " +:+ what);
       send_reply_code 500)
    (run log SWARM_LOG_ERROR "Delete request error: unknown";
     send_reply_code 500).

Definition on_finished (srr : sync_remove_result) (error : error_info) : io unit :=
  match error with
  | Some e =>
      run log SWARM_LOG_ERROR (error_message e);
      send_reply_code (if error_code e =? - ENOENT then 404 else 500)
  | None =>
      run log SWARM_LOG_DEBUG "Delete: sending reply";
      send_reply_code 200
  end.

End delete_cpp_ns.

(** ** Observations on traces *)

Definition is_log (e : event) : bool :=
  match e with ev_log _ _ => true | _ => false end.

(** Everything a trace does besides logging: the replies and the storage
    operations, in order. *)
Definition sent (t : list event) : list event :=
  List.filter (fun e => negb (is_log e)) t.

(** ** Vocabulary of the statements *)

(** The name [host] answers for a resolved [hostname]. *)
Definition host_name (hostname sign_port : string) : string :=
  if std_string.empty sign_port then hostname else hostname +:+ ":" +:+ sign_port.

Definition sign_port_of (srv : proxy) : string :=
  lookup_sign_port srv (m_eblob_style_path srv) (m_base_port srv) (m_direction_bit_num srv).

(** The path [path] answers for an entry. *)
Definition entry_path (it : lookup_result_entry) : string :=
  file_path it +:+ ":" +:+ pretty (file_info_offset it) +:+ ":" +:+ pretty (file_info_size it).

Definition download_info_document (h p : string) : string :=
  proxy_cpp.xml_declaration +:+ "<download-info>" +:+ "<host>" +:+ h +:+ "</host>"
  +:+ "<path>" +:+ p +:+ "</path>" +:+ "<region>-1</region>" +:+ "</download-info>".

(** A 200 reply with a body, as the handlers build it. *)
Definition reply_200 (content_type body : string) : event :=
  ev_send_data
    {| response_code := 200;
       response_headers := [("Content-Length"%string, pretty (std_string.size body));
                            ("Content-Type"%string, content_type)] |}
    body.

Definition xml_reply (body : string) : event := reply_200 "text/xml" body.
Definition text_reply (body : string) : event := reply_200 "text/plain" body.

(** The four fields of the cache document in the order the handler tests
    them, each with the balancer call that renders its value. *)
Definition cache_flags (mm : mastermind_t) : list (string * outcome string) :=
  [("group-weights"%string, json_group_weights mm);
   ("symmetric-groups"%string, json_symmetric_groups mm);
   ("bad-groups"%string, json_bad_groups mm);
   ("cache-groups"%string, json_cache_groups mm)].

Definition requested (q : url_query) (fields : list (string * outcome string))
  : list (string * outcome string) :=
  List.filter (fun f => has_item q f.1) fields.

(** Calls the balancer for each field in turn; the first call that does not
    return decides the outcome. *)
Fixpoint fetch (fields : list (string * outcome string)) : outcome (list (string * string)) :=
  match fields with
  | [] => Normal []
  | (n, json) :: rest =>
      eval j <- json;
      eval js <- fetch rest;
      Normal ((n, j) :: js)
  end.

Definition render_field (f : string * string) : string :=
  dquote +:+ f.1 +:+ dquote +:+ " : " +:+ f.2.

Fixpoint join (sep : string) (l : list string) : string :=
  match l with
  | [] => EmptyString
  | [x] => x
  | x :: rest => x +:+ sep +:+ join sep rest
  end.

Definition cache_document (fields : list (string * string)) : string :=
  "{" +:+ endl +:+ join ("," +:+ endl) (map render_field fields)
  +:+ (match fields with [] => EmptyString | _ => endl end) +:+ "}" +:+ endl.

(** The request asked for embeds. *)
Definition embed_requested (q : url_query) : bool :=
  has_item q "embed" || has_item q "embed_timestamp".

(** The result's user flags mark embeds. *)
Definition embeds_marked (rr : read_result_entry) : bool :=
  Z.testbit (io_attribute_user_flags rr) 0.

(** What an entry of the "namespaces" dictionary that was accepted looks
    like, next to the namespace made of it. *)
Definition accepted_entry (value : Value) (ns : namespace_t) : Prop :=
  member value "groups-count" = Normal (kNumber (groups_count ns)) /\
  - 2 ^ 31 <= groups_count ns < 2 ^ 31 /\
  exists scn c,
    member value "success-copies-num" = Normal (kString scn) /\
    result_checker ns = Some c /\
    (scn, c) ∈ [("all"%string, checkers_all); ("quorum"%string, checkers_quorum);
                ("any"%string, checkers_at_least_one)].

(** The three ways for an entry to be refused. *)
Inductive rejected_entry (value : Value) : Prop :=
| missing_groups_count :
    HasMember value "groups-count" = Normal false -> rejected_entry value
| missing_success_copies_num :
    HasMember value "success-copies-num" = Normal false -> rejected_entry value
| unknown_success_copies_num scn :
    member value "success-copies-num" = Normal (kString scn) ->
    scn ∉ ["all"%string; "quorum"%string; "any"%string] ->
    rejected_entry value.



Definition concat_strings (l : list string) : string := foldr String.append EmptyString l.

(** The line [on_finished] prints for one entry of the write result. *)
Definition complete_element (lib : platform) (it : lookup_result_entry) : string :=
  "<complete addr=" +:+ dquote
  +:+ dnet_server_convert_dnet_addr_raw lib (storage_address it) +:+ dquote
  +:+ " path=" +:+ dquote +:+ file_info_trailer it +:+ dquote
  +:+ " group=" +:+ dquote +:+ pretty (command_group_id it) +:+ dquote
  +:+ " status=" +:+ dquote +:+ pretty (command_status it) +:+ dquote
  +:+ "/>" +:+ endl.

(** The number of entries of the write result whose status is 0. *)
Definition written_count (swr : list lookup_result_entry) : Z :=
  Z.of_nat (length (filter (fun it => command_status it = 0) swr)).

Definition upload_document (lib : platform) (self : proxy_cpp.req_upload) (git : Z)
    (swr : list lookup_result_entry) : string :=
  proxy_cpp.xml_declaration +:+ endl
  +:+ "<post obj=" +:+ dquote +:+ remote (proxy_cpp.m_key self) +:+ dquote
  +:+ " id=" +:+ dquote +:+ proxy_cpp.id_str lib (proxy_cpp.m_key self) +:+ dquote
  +:+ " groups=" +:+ dquote +:+ pretty (Z.of_nat (length swr)) +:+ dquote
  +:+ " size=" +:+ dquote +:+ pretty (std_string.size (proxy_cpp.m_content self)) +:+ dquote
  +:+ " key=" +:+ dquote +:+ "/" +:+ pretty git +:+ "/"
  +:+ remote (proxy_cpp.m_key self) +:+ dquote +:+ ">" +:+ endl
  +:+ concat_strings (map (complete_element lib) swr)
  +:+ "<written>" +:+ pretty (written_count swr) +:+ "</written>" +:+ endl
  +:+ "</post>".

(** Occurrences of [needle] in [hay]. *)
Fixpoint occurrences (needle hay : string) : nat :=
  match hay with
  | EmptyString => O
  | String _ rest =>
      ((if String.prefix needle hay then 1 else 0) + occurrences needle rest)%nat
  end.

(** A reply, through any of the three [send_reply] overloads. *)
Definition is_reply (e : event) : bool :=
  match e with
  | ev_send_code _ | ev_send_reply _ | ev_send_data _ _ => true
  | _ => false
  end.

(** A computation that only logs. *)
Definition quiet {A} (m : io A) : Prop := sent m.1 = [].

(** A computation that, when it returns, has sent or issued exactly one
    thing, an event that satisfies [P], and otherwise nothing. *)
Definition once_or_nothing {A} (P : event -> bool) (m : io A) : Prop :=
  match m.2 with
  | Normal _ => exists e, sent m.1 = [e] /\ P e = true
  | _ => sent m.1 = []
  end.

(** A handler that lets no exception out and, when it returns, has sent or
    issued exactly one thing, an event that satisfies [P]; when it runs into
    undefined behaviour it has sent nothing before. *)
Definition acts_once (P : event -> bool) (m : io unit) : Prop :=
  match m.2 with
  | Normal _ => exists e, sent m.1 = [e] /\ P e = true
  | Thrown _ => False
  | Undefined => sent m.1 = []
  end.

(** A [catch] block: it returns, having sent exactly one thing, an event
    that satisfies [P]. *)
Definition replies_once (P : event -> bool) (h : io unit) : Prop :=
  h.2 = Normal tt /\ exists e, sent h.1 = [e] /\ P e = true.

Definition any_event (e : event) : bool := true.

(** What the accessors of a [lookup_result] answer, [host] first. *)
Definition answers (lib : platform) (self : lookup_result)
  : outcome string * Z * string * string * string * Z * Z :=
  (eval h <- lookup_result_cpp.host lib self; Normal h.1,
   (lookup_result_cpp.port lib self).1,
   (lookup_result_cpp.addr lib self).1,
   (lookup_result_cpp.path self).1,
   (lookup_result_cpp.full_path self).1,
   lookup_result_cpp.group self,
   lookup_result_cpp.status self).

(** The object after a call of each of the memoising accessors; a call
    of [host] that throws leaves it as it is. *)
Definition after_call (lib : platform) (self : lookup_result) : list lookup_result :=
  [match lookup_result_cpp.host lib self with Normal h => h.2 | _ => self end;
   (lookup_result_cpp.port lib self).2;
   (lookup_result_cpp.addr lib self).2;
   (lookup_result_cpp.path self).2;
   (lookup_result_cpp.full_path self).2].

(** What a load makes of the member of the name [n] that [FindMember]
    finds, the first one. *)
Definition first_member (members : list (string * Value)) (n : string)
  : option (outcome namespace_t) :=
  option_map (fun value => proxy_cpp.generate_namespace (n, value)) (FindMember members n).

(** The groups the balancer names for the group [g] of a URL and a file:
    the symmetric groups of [g], then the cache groups of the file. *)
Definition fetched_groups (lib : platform) (srv : proxy) (g filename : string)
  : outcome (list Z) :=
  eval group <- lexical_cast_int lib g;
  eval vec_groups1 <- get_symmetric_groups (m_mastermind srv) group;
  eval vec_groups2 <- get_cache_groups (m_mastermind srv) filename;
  Normal (vec_groups1 ++ vec_groups2).

(** The conditions under which the handlers issue a storage operation: a
    write or a remove only when the node has as many live connections as the
    die limit asks, a write with the error handler [remove_on_fail], a
    remove or a lookup with the filter [all], a read or a lookup only on a
    session that targets some group. *)
Definition guarded (srv : proxy) (e : event) : Prop :=
  match e with
  | ev_write s _ _ _ _ =>
      die_limit srv <= state_num s /\ get_error_handler s = error_handlers_remove_on_fail
  | ev_remove s _ => die_limit srv <= state_num s /\ get_filter s = filters_all
  | ev_lookup s _ => get_filter s = filters_all /\ get_groups s <> []
  | ev_read_data s _ _ _ => get_groups s <> []
  | _ => True
  end.

(** The [<stat>] element of one node, its counters printed in the given
    base and its filesystem id in hexadecimal. *)
Definition stat_element (lib : platform) (render_load : Z -> string)
    (base : proxy_cpp.basefield) (data : stat_result_entry) : string :=
  "<stat addr=" +:+ dquote +:+ dnet_server_convert_dnet_addr_raw lib (stat_address data)
  +:+ dquote +:+ " id=" +:+ dquote +:+ dnet_dump_id_len_raw lib (stat_command_id data)
  +:+ dquote +:+ ">"
  +:+ "<la>" +:+ render_load (stat_la data).1.1 +:+ " " +:+ render_load (stat_la data).1.2
  +:+ " " +:+ render_load (stat_la data).2 +:+ "</la>"
  +:+ "<memtotal>" +:+ proxy_cpp.put_unsigned base (vm_total data) +:+ "</memtotal>"
  +:+ "<memfree>" +:+ proxy_cpp.put_unsigned base (vm_free data) +:+ "</memfree>"
  +:+ "<memcached>" +:+ proxy_cpp.put_unsigned base (vm_cached data) +:+ "</memcached>"
  +:+ "<storage_size>"
  +:+ proxy_cpp.put_unsigned base ((frsize data * blocks data) mod 2 ^ 64 / 1024 / 1024)
  +:+ "</storage_size>"
  +:+ "<available_size>"
  +:+ proxy_cpp.put_unsigned base ((bavail data * bsize data) mod 2 ^ 64 / 1024 / 1024)
  +:+ "</available_size>"
  +:+ "<files>" +:+ proxy_cpp.put_unsigned base (files data) +:+ "</files>"
  +:+ "<fsid>" +:+ proxy_cpp.put_unsigned proxy_cpp.ios_hex (fsid data) +:+ "</fsid>"
  +:+ "</stat>".

(** The node after [add_remote] was called for each host in turn. *)
Fixpoint connect (rt : runtime) (hosts : list string) (node : node_t rt) : node_t rt :=
  match hosts with
  | [] => node
  | host :: rest => connect rt rest (add_remote rt node host).1
  end.

(** The hosts for which [add_remote] threw, each with the message of its
    exception. *)
Fixpoint refused (rt : runtime) (hosts : list string) (node : node_t rt)
  : list (string * string) :=
  match hosts with
  | [] => []
  | host :: rest =>
      match (add_remote rt node host).2 with
      | Thrown (std_exception what) => [(host, what)]
      | _ => []
      end ++ refused rt rest (add_remote rt node host).1
  end.

(** [add_remote] returns or throws something derived from
    [std::exception]. *)
Definition add_remote_throws_std (rt : runtime) : Prop :=
  forall node host,
    (add_remote rt node host).2 = Normal tt \/
    exists what, (add_remote rt node host).2 = Thrown (std_exception what).








(** The remote [generate_mastermind] makes of a node of the "nodes" array:
    its "host" with its "port" or 10053. *)
Definition hosted (node : Value) : option (string * Z) :=
  match member node "host", proxy_cpp.get_int node "port" 10053 with
  | Normal (kString host), Normal port => Some (host, port)
  | _, _ => None
  end.

(** A node without a "host". *)
Definition hostless (node : Value) : bool :=
  match HasMember node "host" with Normal false => true | _ => false end.

(** The query string of a URL: nothing, or a '?' and what follows. *)
Definition is_query (query : string) : Prop :=
  query = EmptyString \/ exists q, query = String "?" q.

(** Every namespace of the registry is stored under its own name, as
    [generate_namespaces] stores them. *)
Definition registry_by_name (reg : gmap string namespace_t) : Prop :=
  forall k ns, reg !! k = Some ns -> name ns = k.

(** ** A small deployment, for evaluating the handlers *)

Module example.

Fixpoint digits_value (s : string) (acc : Z) : option Z :=
  match s with
  | EmptyString => Some acc
  | String c rest =>
      let d := Z.of_nat (nat_of_ascii c) - 48 in
      if (0 <=? d) && (d <=? 9) then digits_value rest (10 * acc + d) else None
  end.

Definition decimal (s : string) : outcome Z :=
  match s with
  | EmptyString => Thrown (std_exception "bad lexical cast")
  | _ => match digits_value s 0 with
         | Some z => Normal z
         | None => Thrown (std_exception "bad lexical cast")
         end
  end.

Definition lib : platform :=
  {| lexical_cast_int := decimal;
     lexical_cast_uint64 := decimal;
     getnameinfo := fun a _ =>
       if String.eqb a "10.0.0.1" then Some "node1.example"%string else None;
     http_date := fun z => "date:" +:+ pretty z;
     transform := fun r => "id:" +:+ r;
     dnet_dump_id_len_raw := fun i => i;
     dnet_server_convert_dnet_addr_raw := fun a => a +:+ ":1025";
     dnet_server_convert_port := fun _ => 1025;
     pack := fun dc => data dc;
     unpack := fun d embeded =>
       Normal {| data := d; embed_timestamp := if embeded then Some (7, 0) else None |} |}.



Definition the_session : session :=
  {| get_groups := []; get_checker := Some checkers_at_least_one;
     get_filter := filters_positive; get_error_handler := error_handlers_none;
     get_user_flags := 0; state_num := 3 |}.

Definition mastermind : mastermind_t :=
  {| get_symmetric_groups := fun g => Normal [g];
     get_cache_groups := fun _ => Normal [];
     get_metabalancer_groups := fun n _ => Normal (map Z.of_nat (seq 1 (Z.to_nat n)));
     json_group_weights := Normal "{W}"%string;
     json_symmetric_groups := Normal "{S}"%string;
     json_bad_groups := Normal "{B}"%string;
     json_cache_groups := Normal "{C}"%string |}.

Definition bar : namespace_t :=
  {| name := "bar"; groups_count := 2; result_checker := Some checkers_all;
     auth_key := "secret" |}.

Definition basic_auth (ns key : string) (header : option string) : bool :=
  if std_string.empty key then true
  else match header with
       | Some h => String.eqb h ("Basic " +:+ key)
       | None => false
       end.

Definition srv : proxy :=
  {| m_namespaces := {[ "bar"%string := bar ]};
     m_elliptics_session := the_session;
     m_mastermind := mastermind;
     m_die_limit := 1;
     m_eblob_style_path := true;
     m_direction_bit_num := 16;
     m_base_port := 1024;
     m_proxy_logger_level := SWARM_LOG_INFO;
     check_basic_auth := basic_auth;
     proxy_get_groups := fun g _ => Normal [g];
     get_namespace := fun url prefix =>
       if String.eqb url "/delete-bar/1/file.txt" then Normal bar
       else Thrown (std_exception "Cannot detect namespace");
     prepare_session_ns := fun url ns =>
       Normal (set_groups the_session [1], key_remote "bar.file.txt");
     lookup_sign_port := fun _ _ _ => EmptyString |}.

Definition request (url : string) : http_request :=
  {| url_to_string := url; url_query_list := []; request_headers := [] |}.

(** A namespace dictionary whose only entry asks for zero groups. *)
Definition config_zero : Value :=
  kObject
    [("namespaces"%string,
      kObject [("foo"%string,
                kObject [("groups-count"%string, kNumber 0);
                         ("success-copies-num"%string, kString "all")])])].

(** The result a group reports for a write. *)
Definition entry (g st : Z) : lookup_result_entry :=
  {| entry_error := None; command_status := st; command_group_id := g;
     storage_address := "10.0.0." +:+ pretty g; file_info_offset := 0;
     file_info_size := 7; file_info_trailer := "/srv/data-0." +:+ pretty g;
     file_path := "/srv/data-0." +:+ pretty g |}.

(** An upload of "payload" as file.txt that targets the groups 1, 2, 3. *)
Definition upload : proxy_cpp.req_upload :=
  {| proxy_cpp.m_session :=
       set_checker (set_groups the_session [1; 2; 3]) (Some checkers_quorum);
     proxy_cpp.m_key := key_remote "file.txt";
     proxy_cpp.m_content := "payload";
     proxy_cpp.m_beg_time := 0 |}.

Definition read_result : read_result_entry :=
  {| file := "payload"; io_attribute_user_flags := 0 |}.

(** A load average in hundredths, with two decimals. *)
Definition load (la : Z) : string :=
  pretty (la / 100) +:+ "." +:+ pretty (la mod 100 / 10) +:+ pretty (la mod 10).

(** The statistics of a node with 255 KB of memory. *)
Definition node (n : Z) : stat_result_entry :=
  {| stat_address := "10.0.0." +:+ pretty n; stat_command_id := "0" +:+ pretty n;
     stat_la := (125, 50, 7);
     vm_total := 255; vm_free := 16; vm_cached := 9;
     frsize := 4096; blocks := 2560; bavail := 512; bsize := 4096;
     files := 10; fsid := 48879 |}.

(** A runtime whose loggers and nodes are what they were built from, and
    in which only the host "down" cannot be reached. *)
Definition rt : runtime :=
  {| logger_t := string * Z;
     node_t := list string;
     new_logger := fun path mask => Normal (path, mask);
     new_node := fun _ _ => Normal [];
     add_remote := fun node host =>
       if String.eqb host "down" then (node, Thrown (std_exception "timed out"))
       else (node ++ [host], Normal tt);
     new_session := fun _ => Normal the_session;
     new_mastermind := fun _ _ _ => Normal mastermind;
     DNET_LOG_INFO := 2;
     DNET_LOG_ERROR := 1 |}.

(** The logger [generate_logger] makes when the configuration says
    nothing about it. *)
Definition stderr_logger : logger_t rt := ("/dev/stderr"%string, 3).

(** A configuration with two remotes and no balancer. *)
Definition config_remotes : Value :=
  kObject [("remotes"%string, kArray [kString "down"; kString "node1:1025:2"])].

(** A configuration of the balancer with a node that has no host. *)
Definition config_mastermind : Value :=
  kObject
    [("mastermind"%string,
      kObject
        [("nodes"%string,
          kArray [kObject [("host"%string, kString "mm1")];
                  kObject [("port"%string, kNumber 10054)];
                  kObject [("host"%string, kString "mm2");
                           ("port"%string, kNumber 10054)]])])].

Definition blank : proxy_cpp.members rt :=
  {| proxy_cpp.m_proxy_logger := None; proxy_cpp.m_elliptics_logger := None;
     proxy_cpp.m_mastermind_logger := None; proxy_cpp.m_elliptics_session := None;
     proxy_cpp.m_mastermind := None; proxy_cpp.m_namespaces := ∅;
     proxy_cpp.m_die_limit := 0; proxy_cpp.m_eblob_style_path := false;
     proxy_cpp.m_direction_bit_num := 0; proxy_cpp.m_base_port := 0;
     proxy_cpp.handlers := [] |}.

End example.

(** * Properties *)

(** ** Strings *)

Lemma append_assoc (a b c : string) : (a +:+ b) +:+ c = a +:+ (b +:+ c).
Proof.
  induction a as [|x a IH]; [done|].
  change (String x ((a +:+ b) +:+ c) = String x (a +:+ (b +:+ c))). by rewrite IH.
Qed.

Lemma append_nil_r (a : string) : a +:+ EmptyString = a.
Proof.
  induction a as [|x a IH]; [done|].
  change (String x (a +:+ EmptyString) = String x a). by rewrite IH.
Qed.

Lemma append_nil_l (a : string) : EmptyString +:+ a = a.
Proof. reflexivity. Qed.

(** Rewriting with [string_norm] nests a concatenation to the right and
    drops its empty pieces; what is left differs by computation only. *)
Create Rewrite HintDb string_norm.
#[local] Hint Rewrite append_assoc append_nil_l append_nil_r : string_norm.

Lemma index_of_lt c s k :
  std_string.index_of c s = Some k -> (k < String.length s)%nat.
Proof.
  revert k. induction s as [|d s IH]; intros k; simpl; [discriminate|].
  destruct (Ascii.eqb d c).
  - intros [= <-]. lia.
  - destruct (std_string.index_of c s) as [j|]; simpl; [|discriminate].
    intros [= <-]. specialize (IH j eq_refl). lia.
Qed.

Lemma index_of_absent c s :
  c ∉ String.list_ascii_of_string s -> std_string.index_of c s = None.
Proof.
  induction s as [|d s IH]; simpl; [done|].
  intros Hnotin. destruct (Ascii.eqb_spec d c) as [->|Hne].
  - exfalso. apply Hnotin. left.
  - rewrite IH; [done|]. intros Hin. apply Hnotin. by right.
Qed.

Lemma length_drop_string n s :
  String.length (std_string.drop_string n s) = (String.length s - n)%nat.
Proof.
  revert s. induction n as [|n IH]; intros [|c s]; simpl; auto.
Qed.

Lemma size_nonneg s : 0 <= std_string.size s.
Proof. unfold std_string.size. lia. Qed.

Lemma size_t_wrap_le x : 0 <= x -> 0 <= std_string.size_t_wrap x <= x.
Proof.
  intros Hx. unfold std_string.size_t_wrap, std_string.size_t_modulus.
  split; [apply Z.mod_pos_bound; lia | apply Z.mod_le; lia].
Qed.

Lemma size_t_wrap_npos_succ : std_string.size_t_wrap (std_string.npos + 1) = 0.
Proof. reflexivity. Qed.

(** [find] answers [npos] or a position inside the string, not before [pos]. *)
Lemma find_range s c pos :
  0 <= pos ->
  std_string.find s c pos = std_string.npos \/
  (pos <= std_string.find s c pos < std_string.size s).
Proof.
  intros Hpos. unfold std_string.find.
  destruct (Z.ltb_spec (std_string.size s) pos) as [Hlt|Hge]; [by left|].
  destruct (std_string.index_of c _) as [k|] eqn:Hk; [|by left].
  right. apply index_of_lt in Hk. rewrite length_drop_string in Hk.
  unfold std_string.size in *. lia.
Qed.

(** The position after a [find] result, wrapped the way [size_t] arithmetic
    wraps it, is a valid first argument of [substr]. *)
Lemma after_find_le_size s c pos :
  0 <= pos ->
  0 <= std_string.size_t_wrap (std_string.find s c pos + 1) <= std_string.size s.
Proof.
  intros Hpos. destruct (find_range s c pos Hpos) as [-> | Hin].
  - rewrite size_t_wrap_npos_succ. pose proof (size_nonneg s). lia.
  - pose proof (size_t_wrap_le (std_string.find s c pos + 1)). lia.
Qed.

Lemma substr_in_range s pos n :
  pos <= std_string.size s -> exists r, std_string.substr s pos n = Normal r.
Proof.
  intros Hle. unfold std_string.substr.
  destruct (Z.ltb_spec (std_string.size s) pos); [lia|]. eauto.
Qed.

Lemma find_absent s c :
  c ∉ String.list_ascii_of_string s -> std_string.find s c 0 = std_string.npos.
Proof.
  intros Hc. unfold std_string.find.
  destruct (Z.ltb_spec (std_string.size s) 0); [done|].
  simpl. by rewrite index_of_absent.
Qed.

(** ** Namespace resolution *)

(** [get_filename] returns for every URL: neither [substr] can throw. *)
Lemma get_filename_total req : exists p, get_filename req = Normal p.
Proof.
  unfold get_filename.
  pose proof (after_find_le_size (url_to_string req) "/" 1 ltac:(lia)) as Hb.
  set (begin := std_string.size_t_wrap _) in *.
  destruct (substr_in_range (url_to_string req) begin
              (std_string.size_t_wrap
                 (std_string.find (url_to_string req) "?" begin - begin)))
    as [filename ->]; [lia|].
  simpl.
  destruct (_ =? std_string.npos) eqn:Hn; [eauto|].
  destruct (_ <? _) eqn:Hlt; [|eauto].
  apply Z.ltb_lt in Hlt.
  set (nb := std_string.size_t_wrap (std_string.find (url_to_string req) "-" 0 + 1)) in *.
  destruct (substr_in_range (url_to_string req) nb
              (std_string.size_t_wrap (std_string.size_t_wrap (begin - 1) - nb)))
    as [ns ->]; [|simpl; eauto].
  pose proof (after_find_le_size (url_to_string req) "-" 0 ltac:(lia)). subst nb. lia.
Qed.

Lemma get_filename_default req :
  "-"%char ∉ String.list_ascii_of_string (url_to_string req) ->
  exists filename, get_filename req = Normal (filename, "default"%string).
Proof.
  intros Hdash. unfold get_filename.
  pose proof (after_find_le_size (url_to_string req) "/" 1 ltac:(lia)) as Hb.
  set (begin := std_string.size_t_wrap _) in *.
  destruct (substr_in_range (url_to_string req) begin
              (std_string.size_t_wrap
                 (std_string.find (url_to_string req) "?" begin - begin)))
    as [filename ->]; [lia|].
  simpl. rewrite (find_absent _ _ Hdash). simpl. eauto.
Qed.

Lemma get_file_info_unknown srv req filename str_namespace :
  get_filename req = Normal (filename, str_namespace) ->
  m_namespaces srv !! str_namespace = None ->
  get_file_info srv req = Normal (key_remote filename, namespace_t_default).
Proof. intros Hf Hn. unfold get_file_info. rewrite Hf. simpl. by rewrite Hn. Qed.

(** C10.  A URL without a '-' resolves to the namespace name "default".
    Whatever name the URL resolves to, when the registry has no namespace of
    that name [get_file_info] answers the empty namespace (its name is the
    empty string), and both the upload handler and the delete handler of
    delete.cpp then do nothing but reply 400: no storage operation is
    issued. *)
Theorem unresolved_namespace_400 lib srv req buffer :
  ("-"%char ∉ String.list_ascii_of_string (url_to_string req) ->
   exists filename, get_filename req = Normal (filename, "default"%string)) /\
  (forall filename str_namespace,
     get_filename req = Normal (filename, str_namespace) ->
     m_namespaces srv !! str_namespace = None ->
     get_file_info srv req = Normal (key_remote filename, namespace_t_default) /\
     name namespace_t_default = EmptyString /\
     sent (proxy_cpp.req_upload_on_request lib srv req buffer).1 = [ev_send_code 400] /\
     sent (delete_cpp.on_request lib srv req).1 = [ev_send_code 400]).
Proof.
  split; [apply get_filename_default|].
  intros filename str_namespace Hf Hn.
  pose proof (get_file_info_unknown srv req _ _ Hf Hn) as Hinfo.
  split; [done|]. split; [done|]. split.
  - unfold proxy_cpp.req_upload_on_request, proxy_cpp.upload_catch.
    rewrite Hinfo. simpl. by destruct (proxy_cpp.level_ge srv SWARM_LOG_DEBUG).
  - unfold delete_cpp.on_request. by rewrite Hinfo.
Qed.

Example unresolved_default_namespace :
  get_filename (example.request "/delete/1/file.txt")
  = Normal ("1/file.txt"%string, "default"%string) /\
  m_namespaces example.srv !! "default"%string = None /\
  delete_cpp.on_request example.lib example.srv (example.request "/delete/1/file.txt")
  = ([ev_log SWARM_LOG_INFO "Delete: handle request: /delete/1/file.txt";
      ev_log SWARM_LOG_INFO "Delete: cannot determine a namespace";
      ev_send_code 400], Normal tt).
Proof. by vm_compute. Qed.

(** A first path segment without a second '/' after it: [find] answers
    [npos], the addition wraps to 0, and the namespace runs to the end. *)
Example get_filename_wraps :
  get_filename (example.request "/upload-foo")
  = Normal ("/upload-foo"%string, "foo"%string).
Proof. reflexivity. Qed.

(** ** delete *)

(** The three revisions of [req_delete::on_finished] are one function. *)
Lemma delete_on_finished_revisions srr error :
  proxy_cpp.req_delete_on_finished srr error = delete_cpp.on_finished srr error /\
  delete_cpp_ns.on_finished srr error = delete_cpp.on_finished srr error.
Proof. by split. Qed.

(** C5.  Completion of a delete, whatever the remove result holds: the
    error with code -ENOENT is answered 404, any other error 500, and no
    error 200 through [send_reply(int)], which carries no body. *)
Theorem delete_on_finished_codes (srr : sync_remove_result) :
  (forall e, error_code e = - ENOENT ->
     delete_cpp.on_finished srr (Some e)
     = ([ev_log SWARM_LOG_ERROR (error_message e); ev_send_code 404], Normal tt)) /\
  (forall e, error_code e <> - ENOENT ->
     delete_cpp.on_finished srr (Some e)
     = ([ev_log SWARM_LOG_ERROR (error_message e); ev_send_code 500], Normal tt)) /\
  delete_cpp.on_finished srr None
  = ([ev_log SWARM_LOG_DEBUG "Delete: sending reply"; ev_send_code 200], Normal tt).
Proof.
  split; [|split]; [intros e He | intros e He | reflexivity];
    unfold delete_cpp.on_finished; simpl.
  - by rewrite (proj2 (Z.eqb_eq _ _) He).
  - by rewrite (proj2 (Z.eqb_neq _ _) He).
Qed.

(** C1, on delete.cpp.  A delete of /delete-bar/1/file.txt whose
    credentials [check_basic_auth] refuses is answered 401 with the
    challenge for realm "bar", and the handler goes on: the [if] that sends
    the reply does not return, so once the group token is read and the
    balancer names groups the remove is issued all the same. *)
Theorem delete_cpp_unauthorized_still_removes lib srv ns g gs header :
  let req := {| url_to_string := "/delete-bar/1/file.txt";
                url_query_list := [];
                request_headers := header |} in
  m_namespaces srv !! "bar"%string = Some ns ->
  name ns = "bar"%string ->
  check_basic_auth srv (name ns) (auth_key ns) (headers_get header "Authorization") = false ->
  lexical_cast_int lib "1" = Normal g ->
  proxy_get_groups srv g "file.txt" = Normal gs ->
  gs <> [] ->
  m_die_limit srv <= state_num (m_elliptics_session srv) ->
  sent (delete_cpp.on_request lib srv req).1
  = [ev_send_reply
       {| response_code := 401;
          response_headers :=
            [("WWW-Authenticate"%string, "Basic realm=" +:+ dquote +:+ "bar" +:+ dquote)] |};
     ev_remove (set_filter (set_groups (get_session srv) gs) filters_all)
       (key_remote "bar.file.txt")].
Proof.
  intros req Hns Hname Hauth Hcast Hgroups Hgs Hlive.
  unfold delete_cpp.on_request.
  assert (get_file_info srv req = Normal (key_remote "1/file.txt", ns)) as ->.
  { unfold get_file_info.
    change (get_filename req) with (Normal ("1/file.txt"%string, "bar"%string)).
    simpl. by rewrite Hns. }
  subst req. cbn [bind lift fst snd request_headers url_to_string].
  rewrite Hauth, Hname. simpl.
  rewrite Hcast. simpl. rewrite Hgroups. simpl.
  destruct gs as [|g0 gs]; [done|]. simpl.
  unfold die_limit, get_session.
  destruct (Z.ltb_spec (state_num (m_elliptics_session srv)) (m_die_limit srv)); [lia|].
  reflexivity.
Qed.

Lemma delete_cpp_unauthorized_still_removes_witness :
  sent (delete_cpp.on_request example.lib example.srv
          (example.request "/delete-bar/1/file.txt")).1
  = [ev_send_reply
       {| response_code := 401;
          response_headers :=
            [("WWW-Authenticate"%string, "Basic realm=" +:+ dquote +:+ "bar" +:+ dquote)] |};
     ev_remove (set_filter (set_groups (get_session example.srv) [1]) filters_all)
       (key_remote "bar.file.txt")].
Proof.
  apply (delete_cpp_unauthorized_still_removes example.lib example.srv example.bar 1 [1] []);
    first [reflexivity | done | vm_compute; congruence].
Defined.

(** The revision of delete.cpp that resolves the namespace first returns
    after the 401: the challenge is all it sends. *)
Lemma delete_cpp_ns_unauthorized_stops srv req ns :
  get_namespace srv (url_to_string req) "/delete" = Normal ns ->
  check_basic_auth srv (name ns) (auth_key ns)
    (headers_get (request_headers req) "Authorization") = false ->
  delete_cpp_ns.on_request srv req
  = ([ev_log SWARM_LOG_INFO ("Delete: handle request: " +:+ url_to_string req);
      ev_send_reply
        {| response_code := 401;
           response_headers :=
             [("WWW-Authenticate"%string,
               "Basic realm=" +:+ dquote +:+ name ns +:+ dquote)] |}],
     Normal tt).
Proof.
  intros Hns Hauth. unfold delete_cpp_ns.on_request. rewrite Hns. simpl.
  by rewrite Hauth.
Qed.

Lemma delete_cpp_ns_unauthorized_stops_witness :
  storage_ops
    (delete_cpp_ns.on_request example.srv (example.request "/delete-bar/1/file.txt")).1
  = [].
Proof.
  by rewrite (delete_cpp_ns_unauthorized_stops example.srv
                (example.request "/delete-bar/1/file.txt") example.bar eq_refl eq_refl).
Defined.

(** ** The namespace registry *)

Lemma member_HasMember value n x :
  member value n = Normal x -> HasMember value n = Normal true.
Proof.
  destruct value as [| | | | |members]; simpl; try discriminate.
  destruct (FindMember members n) eqn:Hf; [|discriminate].
  intros _. f_equal.
Qed.

Lemma generate_namespace_accepted n value ns :
  proxy_cpp.generate_namespace (n, value) = Normal ns ->
  name ns = n /\ accepted_entry value ns.
Proof.
  unfold proxy_cpp.generate_namespace, accepted_entry. simpl.
  destruct (HasMember value "groups-count") as [[|]| |]; simpl; try discriminate.
  destruct (HasMember value "success-copies-num") as [[|]| |]; simpl; try discriminate.
  destruct (member value "groups-count") as [gc| |]; simpl; try discriminate.
  destruct gc as [| |z| | |]; simpl; try discriminate.
  destruct ((- 2 ^ 31 <=? z) && (z <? 2 ^ 31)) eqn:Hr; simpl; try discriminate.
  apply andb_true_iff in Hr as [Hlo Hhi].
  apply Z.leb_le in Hlo. apply Z.ltb_lt in Hhi.
  destruct (member value "success-copies-num") as [sv| |]; simpl; try discriminate.
  destruct sv as [| | |scn| |]; simpl; try discriminate.
  destruct (String.eqb_spec scn "all") as [->|].
  { intros [= <-]. simpl. repeat split; try lia.
    exists "all"%string, checkers_all. repeat split. left. }
  destruct (String.eqb_spec scn "quorum") as [->|].
  { intros [= <-]. simpl. repeat split; try lia.
    exists "quorum"%string, checkers_quorum. repeat split. right; left. }
  destruct (String.eqb_spec scn "any") as [->|]; [|discriminate].
  intros [= <-]. simpl. repeat split; try lia.
  exists "any"%string, checkers_at_least_one. repeat split. do 2 right; left.
Qed.

Lemma accepted_success_copies_num scn c :
  (scn, c) ∈ [("all"%string, checkers_all); ("quorum"%string, checkers_quorum);
              ("any"%string, checkers_at_least_one)] ->
  scn ∈ ["all"%string; "quorum"%string; "any"%string].
Proof.
  intros Hin. repeat (apply elem_of_cons in Hin as [[= -> _]|Hin]);
    [left | right; left | do 2 right; left | by apply elem_of_nil in Hin].
Qed.

Lemma generate_namespace_rejected n value :
  rejected_entry value ->
  forall ns, proxy_cpp.generate_namespace (n, value) <> Normal ns.
Proof.
  intros Hrej ns Hgen.
  apply generate_namespace_accepted in Hgen as [_ (Hgc & _ & scn & c & Hscn & _ & Hin)].
  destruct Hrej as [Hm | Hm | scn' Hm Hout].
  - apply member_HasMember in Hgc. congruence.
  - apply member_HasMember in Hscn. congruence.
  - rewrite Hm in Hscn. injection Hscn as ->.
    by apply Hout, (accepted_success_copies_num scn c).
Qed.

(** The exception each refusal throws. *)
Lemma generate_namespace_throws n value :
  (HasMember value "groups-count" = Normal false ->
   proxy_cpp.generate_namespace (n, value)
   = Thrown (std_exception ("Missing 'groups-count' in '" +:+ n +:+ "' namespace"))) /\
  (HasMember value "groups-count" = Normal true ->
   HasMember value "success-copies-num" = Normal false ->
   proxy_cpp.generate_namespace (n, value)
   = Thrown (std_exception ("Missing 'success-copies-num' in '" +:+ n +:+ "' namespace"))) /\
  (forall gc scn,
     member value "groups-count" = Normal (kNumber gc) ->
     - 2 ^ 31 <= gc < 2 ^ 31 ->
     member value "success-copies-num" = Normal (kString scn) ->
     scn ∉ ["all"%string; "quorum"%string; "any"%string] ->
     proxy_cpp.generate_namespace (n, value)
     = Thrown (std_exception
                 ("Unknown type of success-copies-num '" +:+ scn +:+ "' in '" +:+ n
                  +:+ "' namespace. Allowed types: any, quorum, all."))).
Proof.
  unfold proxy_cpp.generate_namespace. simpl. repeat split.
  - by intros ->.
  - by intros -> ->.
  - intros gc scn Hgc Hr Hscn Hout.
    rewrite (member_HasMember _ _ _ Hgc), (member_HasMember _ _ _ Hscn), Hgc, Hscn. simpl.
    destruct (Z.leb_spec (- 2 ^ 31) gc); [|lia].
    destruct (Z.ltb_spec gc (2 ^ 31)); [|lia]. simpl.
    destruct (String.eqb_spec scn "all") as [->|]; [exfalso; apply Hout; left|].
    destruct (String.eqb_spec scn "quorum") as [->|]; [exfalso; apply Hout; right; left|].
    destruct (String.eqb_spec scn "any") as [->|];
      [exfalso; apply Hout; do 2 right; left|].
    reflexivity.
Qed.

Lemma map_insert_lookup res k v n ns :
  proxy_cpp.map_insert res k v !! n = Some ns ->
  res !! n = Some ns \/ (n = k /\ ns = v).
Proof.
  unfold proxy_cpp.map_insert. destruct (res !! k) eqn:Hk; [by left|].
  rewrite lookup_insert. case_decide as Heq.
  - intros [= <-]. by right.
  - by left.
Qed.

(** The loop returns only when [generate_namespace] accepted every member,
    and what it stores under a name is what was made of a member of that
    name. *)
Lemma generate_namespaces_loop_stored members :
  forall res reg,
    proxy_cpp.generate_namespaces_loop members res = Normal reg ->
    (forall it, it ∈ members -> exists item, proxy_cpp.generate_namespace it = Normal item) /\
    forall n ns, reg !! n = Some ns ->
      res !! n = Some ns \/
      exists value, (n, value) ∈ members /\
                    proxy_cpp.generate_namespace (n, value) = Normal ns.
Proof.
  induction members as [|[k value] rest IH]; intros res reg; simpl.
  - intros [= <-]. split; [intros it Hin; by apply elem_of_nil in Hin | auto].
  - destruct (proxy_cpp.generate_namespace (k, value)) as [item| |] eqn:Hitem;
      simpl; try discriminate.
    intros Hloop. destruct (IH _ _ Hloop) as [Hall Hstored]. split.
    + intros it [->|Hin]%elem_of_cons; eauto.
    + intros n ns Hreg. destruct (Hstored n ns Hreg) as [Hres | (v & Hin & Hgen)].
      * apply map_insert_lookup in Hres as [Hres | [-> ->]]; [by left|].
        right. exists value.
        destruct (generate_namespace_accepted _ _ _ Hitem) as [-> _].
        split; [left | done].
      * right. exists v. split; [by right | done].
Qed.

Lemma generate_namespaces_members config reg :
  proxy_cpp.generate_namespaces config = Normal reg ->
  exists members,
    member config "namespaces" = Normal (kObject members) /\
    proxy_cpp.generate_namespaces_loop members ∅ = Normal reg.
Proof.
  unfold proxy_cpp.generate_namespaces.
  destruct (HasMember config "namespaces") as [[|]| |]; simpl; try discriminate.
  destruct (member config "namespaces") as [namespaces| |]; simpl; try discriminate.
  destruct namespaces as [| | | | |members]; simpl; try discriminate.
  eauto.
Qed.

(** The loop stops at the first member that [generate_namespace] does not
    accept, with the outcome of that member. *)
Lemma generate_namespaces_loop_first_refusal pre it post e :
  Forall (fun it => is_normal (proxy_cpp.generate_namespace it) = true) pre ->
  proxy_cpp.generate_namespace it = Thrown e ->
  forall res, proxy_cpp.generate_namespaces_loop (pre ++ it :: post) res = Thrown e.
Proof.
  intros Hpre Hit. induction Hpre as [|it' pre Hit' _ IH]; intros res; simpl.
  - by rewrite Hit.
  - destruct (proxy_cpp.generate_namespace it') as [item| |]; try discriminate.
    simpl. apply IH.
Qed.

(** C8, as the code has it.  A namespace stored by a load that returned
    carries the name of an entry of the "namespaces" dictionary, the
    groups-count of that entry, any 32-bit integer, and the checker its
    success-copies-num names among all, quorum and any.  A dictionary with an
    entry that lacks groups-count or success-copies-num, or whose
    success-copies-num is another string, is never loaded; and when the
    entries before the first one that throws are accepted, the load throws
    what that entry throws. *)
Theorem generate_namespaces_registry config :
  (forall reg n ns,
     proxy_cpp.generate_namespaces config = Normal reg ->
     reg !! n = Some ns ->
     exists members value,
       member config "namespaces" = Normal (kObject members) /\
       (n, value) ∈ members /\
       name ns = n /\
       accepted_entry value ns) /\
  (forall members n value,
     member config "namespaces" = Normal (kObject members) ->
     (n, value) ∈ members ->
     rejected_entry value ->
     forall reg, proxy_cpp.generate_namespaces config <> Normal reg) /\
  (forall pre it post e,
     member config "namespaces" = Normal (kObject (pre ++ it :: post)) ->
     Forall (fun it => is_normal (proxy_cpp.generate_namespace it) = true) pre ->
     proxy_cpp.generate_namespace it = Thrown e ->
     proxy_cpp.generate_namespaces config = Thrown e).
Proof.
  split; [|split].
  - intros reg n ns Hgen Hreg.
    apply generate_namespaces_members in Hgen as (members & Hm & Hloop).
    apply generate_namespaces_loop_stored in Hloop as [_ Hstored].
    destruct (Hstored n ns Hreg) as [Hempty | (value & Hin & Hitem)];
      [by rewrite lookup_empty in Hempty|].
    apply generate_namespace_accepted in Hitem as [Hname Hacc].
    by exists members, value.
  - intros members n value Hm Hin Hrej reg Hgen.
    apply generate_namespaces_members in Hgen as (members' & Hm' & Hloop).
    rewrite Hm in Hm'. injection Hm' as <-.
    apply generate_namespaces_loop_stored in Hloop as [Hall _].
    destruct (Hall _ Hin) as [item Hitem].
    by apply (generate_namespace_rejected n value Hrej item).
  - intros pre it post e Hm Hpre Hit. unfold proxy_cpp.generate_namespaces.
    rewrite (member_HasMember _ _ _ Hm), Hm. simpl.
    by apply generate_namespaces_loop_first_refusal.
Qed.

(** C8 as stated fails: a namespace configured with groups-count 0 is
    loaded and stored with [groups_count] 0. *)
Lemma generate_namespaces_zero_groups_count :
  proxy_cpp.generate_namespaces example.config_zero
  = Normal {[ "foo"%string :=
              {| name := "foo"; groups_count := 0;
                 result_checker := Some checkers_all; auth_key := EmptyString |} ]} /\
  ~ (forall reg n ns,
       proxy_cpp.generate_namespaces example.config_zero = Normal reg ->
       reg !! n = Some ns -> groups_count ns > 0).
Proof.
  split; [reflexivity|]. intros Hpos.
  specialize (Hpos _ "foo"%string _ eq_refl (lookup_insert_eq _ _ _)).
  simpl in Hpos. lia.
Qed.

Example generate_namespaces_missing_groups_count :
  proxy_cpp.generate_namespaces
    (kObject
       [("namespaces"%string,
         kObject [("foo"%string,
                   kObject [("success-copies-num"%string, kString "all")])])])
  = Thrown (std_exception "Missing 'groups-count' in 'foo' namespace").
Proof. reflexivity. Qed.

(** ** lookup_result.cpp *)

Lemma host_fresh lib entry sign_port :
  lookup_result_cpp.host lib (lookup_result_cpp.make entry sign_port)
  = match getnameinfo lib (storage_address entry) 0 with
    | None => Thrown (std_exception "can not make dns lookup")
    | Some hostname =>
        Normal (host_name hostname sign_port,
                lookup_result_cpp.reset_host (lookup_result_cpp.make entry sign_port)
                  (host_name hostname sign_port))
    end.
Proof.
  unfold lookup_result_cpp.host, host_name. simpl.
  destruct (getnameinfo lib (storage_address entry) 0); [|done].
  by destruct (std_string.empty sign_port).
Qed.




Example host_with_signing_port :
  lookup_result_cpp.host example.lib
    (lookup_result_cpp.make (example.entry 1 0) "8080")
  = Normal ("node1.example:8080"%string,
            lookup_result_cpp.reset_host
              (lookup_result_cpp.make (example.entry 1 0) "8080") "node1.example:8080") /\
  lookup_result_cpp.host example.lib
    (lookup_result_cpp.make (example.entry 2 0) "8080")
  = Thrown (std_exception "can not make dns lookup").
Proof. by vm_compute. Qed.

(** ** download-info *)

Lemma download_info_body h p :
  ((((proxy_cpp.xml_declaration +:+ "<download-info>")
     +:+ "<host>" +:+ h +:+ "</host>")
    +:+ "<path>" +:+ p +:+ "</path>")
   +:+ "<region>" +:+ "-1" +:+ "</region>")
  +:+ "</download-info>"
  = download_info_document h p.
Proof. unfold download_info_document. by autorewrite with string_norm. Qed.

Lemma download_info_reply_spec lib srv it :
  proxy_cpp.download_info_reply lib srv it
  = match getnameinfo lib (storage_address it) 0 with
    | None => ([], Thrown (std_exception "can not make dns lookup"))
    | Some hostname =>
        ([xml_reply (download_info_document (host_name hostname (sign_port_of srv))
                       (entry_path it))],
         Normal tt)
    end.
Proof.
  unfold proxy_cpp.download_info_reply, proxy_cpp.parse_lookup.
  rewrite host_fresh. fold (sign_port_of srv).
  destruct (getnameinfo lib (storage_address it) 0) as [hostname|]; [|done].
  cbn [lift bind fst snd lookup_result_cpp.path lookup_result_cpp.reset_host
       lookup_result_cpp.make m_path m_entry].
  fold (entry_path it). by rewrite download_info_body.
Qed.

Lemma download_info_loop_skip lib srv pre rest :
  Forall (fun e => is_Some (entry_error e)) pre ->
  proxy_cpp.download_info_loop lib srv (pre ++ rest)
  = proxy_cpp.download_info_loop lib srv rest.
Proof.
  induction 1 as [|e pre [err Herr] _ IH]; [done|]. simpl. by rewrite Herr.
Qed.

(** C6.  Completion of a download-info lookup without an aggregate error.
    With [it] the first entry, in result order, that carries no error: when
    its address resolves, the reply is the 200 document built from [it]
    alone, host and path of [it] and the region -1; when it does not
    resolve, the reply is 500 and no later entry is tried.  When every entry
    carries an error the reply is 503. *)
Theorem download_info_first_good_entry lib srv slr :
  (forall pre it post,
     slr = pre ++ it :: post ->
     Forall (fun e => is_Some (entry_error e)) pre ->
     entry_error it = None ->
     (forall hostname,
        getnameinfo lib (storage_address it) 0 = Some hostname ->
        proxy_cpp.req_download_info_on_finished lib srv slr None
        = ([ev_log SWARM_LOG_DEBUG "Download info: prepare response";
            xml_reply (download_info_document (host_name hostname (sign_port_of srv))
                         (entry_path it))],
           Normal tt)) /\
     (getnameinfo lib (storage_address it) 0 = None ->
      proxy_cpp.req_download_info_on_finished lib srv slr None
      = ([ev_log SWARM_LOG_DEBUG "Download info: prepare response";
          ev_log SWARM_LOG_ERROR "Download info finish error: can not make dns lookup";
          ev_send_code 500],
         Normal tt))) /\
  (Forall (fun e => is_Some (entry_error e)) slr ->
   proxy_cpp.req_download_info_on_finished lib srv slr None
   = ([ev_log SWARM_LOG_DEBUG "Download info: prepare response";
       ev_log SWARM_LOG_DEBUG "Download info: sending response";
       ev_send_code 503],
      Normal tt)).
Proof.
  unfold proxy_cpp.req_download_info_on_finished. split.
  - intros pre it post -> Hpre Hit.
    rewrite (download_info_loop_skip _ _ _ _ Hpre). simpl. rewrite Hit.
    rewrite download_info_reply_spec.
    split; [intros hostname -> | intros ->]; reflexivity.
  - intros Hall. rewrite <- (app_nil_r slr).
    by rewrite (download_info_loop_skip _ _ _ _ Hall).
Qed.

Example download_info_second_entry :
  sent (proxy_cpp.req_download_info_on_finished example.lib example.srv
          [{| entry_error := Some {| error_code := -110; error_message := "timeout" |};
              command_status := -110; command_group_id := 2;
              storage_address := "10.0.0.2"; file_info_offset := 0; file_info_size := 0;
              file_info_trailer := EmptyString; file_path := EmptyString |};
           example.entry 1 0;
           example.entry 3 0] None).1
  = [xml_reply
       (proxy_cpp.xml_declaration
        +:+ "<download-info><host>node1.example</host><path>/srv/data-0.1:0:7</path>"
        +:+ "<region>-1</region></download-info>")].
Proof. by vm_compute. Qed.

(** ** cache *)

Lemma cache_body_fetch srv q :
  proxy_cpp.cache_body srv q
  = (eval fs <- fetch (requested q (cache_flags (m_mastermind srv)));
     Normal (cache_document fs)).
Proof.
  unfold proxy_cpp.cache_body, proxy_cpp.cache_field, requested, cache_flags.
  cbn [List.filter fst snd].
  destruct (has_item q "group-weights");
    [destruct (json_group_weights (m_mastermind srv)); [|done..]|];
    (destruct (has_item q "symmetric-groups");
       [destruct (json_symmetric_groups (m_mastermind srv)); [|done..]|]);
    (destruct (has_item q "bad-groups");
       [destruct (json_bad_groups (m_mastermind srv)); [|done..]|]);
    (destruct (has_item q "cache-groups");
       [destruct (json_cache_groups (m_mastermind srv)); [|done..]|]);
    cbn [fetch outcome_bind negb andb]; unfold cache_document, render_field;
    cbn [map join fst snd]; f_equal; by autorewrite with string_norm.
Qed.

Lemma has_item_Permutation q q' n : q ≡ₚ q' -> has_item q n = has_item q' n.
Proof.
  intros Hp. unfold has_item. apply eq_true_iff_eq.
  rewrite !existsb_exists. split; intros (x & Hin & Hx); exists x; split; try done.
  - apply list_elem_of_In. rewrite <- Hp. by apply list_elem_of_In.
  - apply list_elem_of_In. rewrite Hp. by apply list_elem_of_In.
Qed.

Lemma cache_body_ext srv q q' :
  (forall n, has_item q n = has_item q' n) ->
  proxy_cpp.cache_body srv q = proxy_cpp.cache_body srv q'.
Proof.
  intros Hq. unfold proxy_cpp.cache_body, proxy_cpp.cache_field. by rewrite !Hq.
Qed.

(** C7.  The body of a cache reply holds the fields whose flags the query
    carries and no other, taken in the order group-weights,
    symmetric-groups, bad-groups, cache-groups, each rendered as
    "name" : value, joined by a comma and a line break between an opening
    and a closing brace; a query that lists the same flags in another order
    gets the same body; without any of the four flags the body is the two
    braces, a line break after each; and the body goes out in a 200
    reply. *)
Theorem cache_fields_in_fixed_order srv req :
  let q := url_query_list req in
  proxy_cpp.cache_body srv q
  = (eval fs <- fetch (requested q (cache_flags (m_mastermind srv)));
     Normal (cache_document fs)) /\
  (forall q', q' ≡ₚ q -> proxy_cpp.cache_body srv q' = proxy_cpp.cache_body srv q) /\
  (requested q (cache_flags (m_mastermind srv)) = [] ->
   proxy_cpp.cache_body srv q = Normal ("{" +:+ endl +:+ "}" +:+ endl)) /\
  (forall body,
     proxy_cpp.cache_body srv q = Normal body ->
     proxy_cpp.req_cache_on_request srv req
     = ([ev_log SWARM_LOG_INFO ("Cache: handle request: " +:+ url_to_string req);
         ev_log SWARM_LOG_DEBUG "Cache: sending response";
         text_reply body],
        Normal tt)).
Proof.
  intros q. split; [apply cache_body_fetch|]. split; [|split].
  - intros q' Hp. apply cache_body_ext. intros n. by apply has_item_Permutation.
  - intros Hnone. by rewrite cache_body_fetch, Hnone.
  - intros body Hbody. unfold proxy_cpp.req_cache_on_request. fold q. by rewrite Hbody.
Qed.

Example cache_bad_groups_then_group_weights :
  proxy_cpp.cache_body example.srv
    [("bad-groups"%string, EmptyString); ("group-weights"%string, EmptyString)]
  = Normal ("{" +:+ endl +:+ dquote +:+ "group-weights" +:+ dquote +:+ " : {W}," +:+ endl
            +:+ dquote +:+ "bad-groups" +:+ dquote +:+ " : {B}" +:+ endl +:+ "}" +:+ endl).
Proof. reflexivity. Qed.

(** ** get *)

Lemma land_one_testbit z : (Z.land z 1 =? 0) = negb (Z.testbit z 0).
Proof.
  rewrite Z.bit0_odd. change 1 with (Z.ones 1). rewrite Z.land_ones by lia.
  change (2 ^ 1) with 2. rewrite Zmod_odd. by destruct (Z.odd z).
Qed.

Lemma embeded_flag_or q rr :
  proxy_cpp.embeded_flag q rr = embed_requested q || embeds_marked rr.
Proof.
  unfold proxy_cpp.embeded_flag, embed_requested, embeds_marked, proxy_cpp.UF_EMBEDS.
  rewrite land_one_testbit, negb_involutive.
  destruct (Z.testbit _ 0); by rewrite ?orb_true_r, ?orb_false_r.
Qed.

(** C4.  Completion of a get that read a result [rr] without error.  The
    container is unpacked with the flag "the query carries embed or
    embed_timestamp, or the user flags of [rr] have the embeds bit".  For the
    container [dc] that unpacking returns: with a timestamp whose HTTP date
    is the If-Modified-Since header the reply is 304 through
    [send_reply(int)], without a body; with a timestamp otherwise, 200 with
    Last-Modified set to that date and the payload as body; without a
    timestamp, 200 with the payload and no Last-Modified. *)
Theorem get_on_finished_conditional lib q rr rest if_modified_since :
  let embeded := embed_requested q || embeds_marked rr in
  let completion :=
    proxy_cpp.req_get_on_finished lib q (rr :: rest) None if_modified_since in
  forall dc,
    unpack lib (file rr) embeded = Normal dc ->
    (forall ts,
       embed_timestamp dc = Some ts ->
       if_modified_since = Some (http_date lib ts.1) ->
       completion = ([ev_log SWARM_LOG_DEBUG "Get: prepare response"; ev_send_code 304],
                     Normal tt)) /\
    (forall ts,
       embed_timestamp dc = Some ts ->
       if_modified_since <> Some (http_date lib ts.1) ->
       completion
       = ([ev_log SWARM_LOG_DEBUG "Get: prepare response";
           ev_log SWARM_LOG_DEBUG "Get: sending response";
           ev_send_data
             {| response_code := 200;
                response_headers :=
                  [("Last-Modified"%string, http_date lib ts.1);
                   ("Content-Length"%string, pretty (std_string.size (data dc)));
                   ("Content-Type"%string, "text/plain"%string)] |}
             (data dc)],
          Normal tt)) /\
    (embed_timestamp dc = None ->
     completion = ([ev_log SWARM_LOG_DEBUG "Get: prepare response";
                    ev_log SWARM_LOG_DEBUG "Get: sending response";
                    text_reply (data dc)],
                   Normal tt)).
Proof.
  intros embeded completion dc Hdc. subst completion embeded.
  unfold proxy_cpp.req_get_on_finished.
  cbn [lift bind proxy_cpp.front]. rewrite embeded_flag_or, Hdc.
  repeat split.
  - intros ts -> ->. simpl. by rewrite bool_decide_eq_true_2.
  - intros ts -> Hne. simpl. by rewrite bool_decide_eq_false_2.
  - by intros ->.
Qed.

Lemma get_on_finished_conditional_witness :
  proxy_cpp.req_get_on_finished example.lib [("embed"%string, EmptyString)]
    [example.read_result] None (Some "date:7"%string)
  = ([ev_log SWARM_LOG_DEBUG "Get: prepare response"; ev_send_code 304], Normal tt).
Proof.
  exact (proj1 (get_on_finished_conditional example.lib [("embed"%string, EmptyString)]
                  example.read_result [] (Some "date:7"%string)
                  {| data := "payload"; embed_timestamp := Some (7, 0) |} eq_refl)
           (7, 0) eq_refl eq_refl).
Defined.

Example get_unmarked_result_has_no_timestamp :
  sent (proxy_cpp.req_get_on_finished example.lib [] [example.read_result] None
          (Some "date:7"%string)).1
  = [text_reply "payload"].
Proof. by vm_compute. Qed.

(** ** upload: sorting and set difference *)

Lemma sort_sorted l : StronglySorted Z.le (proxy_cpp.sort l).
Proof. apply (StronglySorted_merge_sort Z.le); apply _. Qed.

Lemma sort_Permutation l : proxy_cpp.sort l ≡ₚ l.
Proof. apply merge_sort_Permutation. Qed.

(** [std::sort] leaves no choice: a sorted rearrangement of [l] is [sort l]. *)
Lemma sort_unique l l' : StronglySorted Z.le l' -> l' ≡ₚ l -> l' = proxy_cpp.sort l.
Proof.
  intros Hs Hp. apply (StronglySorted_unique Z.le); [done | apply sort_sorted |].
  by rewrite Hp, sort_Permutation.
Qed.




Lemma set_difference_nil_r a : proxy_cpp.set_difference a [] = a.
Proof. by destruct a. Qed.

Lemma set_difference_cons x a y b :
  proxy_cpp.set_difference (x :: a) (y :: b)
  = if x <? y then x :: proxy_cpp.set_difference a (y :: b)
    else if y <? x then proxy_cpp.set_difference (x :: a) b
    else proxy_cpp.set_difference a b.
Proof. reflexivity. Qed.


(** Why the statements below ask for distinct targeted groups: on a vector
    that repeats a group the walk is a multiset difference. *)
Example set_difference_multiset : proxy_cpp.set_difference [1; 1; 2] [1] = [1; 2].
Proof. reflexivity. Qed.







Example upload_error_quorum_not_reached :
  proxy_cpp.req_upload_on_finished example.lib example.srv example.upload 0
    [example.entry 2 0] (Some {| error_code := -5; error_message := "quorum not reached" |})
  = ([ev_log SWARM_LOG_DEBUG "Upload: prepare response";
      ev_log SWARM_LOG_ERROR "good groups: [2]; all groups: [1, 2, 3]";
      ev_log SWARM_LOG_ERROR
        ("Upload finish ERROR: quorum not reached; "
         +:+ "wrote into groups: [2]; cannot write into: [1, 3]");
      ev_send_code 500],
     Normal tt).
Proof. by vm_compute. Qed.

(** ** upload: the document of a completed write *)

Lemma complete_loop_spec lib srv swr : forall oss written,
  proxy_cpp.complete_loop lib srv swr oss written
  = (oss +:+ concat_strings (map (complete_element lib) swr), written + written_count swr).
Proof.
  unfold written_count.
  induction swr as [|it swr IH]; intros oss written.
  - simpl. rewrite append_nil_r. f_equal. lia.
  - cbn [proxy_cpp.complete_loop proxy_cpp.parse_lookup lookup_result_cpp.make
         lookup_result_cpp.addr lookup_result_cpp.full_path lookup_result_cpp.status
         lookup_result_cpp.group lookup_result_cpp.reset_addr
         lookup_result_cpp.reset_full_path m_addr m_full_path m_entry].
    rewrite IH. cbn [map concat_strings foldr].
    fold (concat_strings (map (complete_element lib) swr)).
    unfold complete_element. rewrite filter_cons.
    f_equal; [by autorewrite with string_norm|].
    change (lookup_result_cpp.status (proxy_cpp.parse_lookup srv it))
      with (command_status it).
    destruct (Z.eqb_spec (command_status it) 0) as [Heq|Hne].
    + rewrite decide_True by done. cbn [length]. lia.
    + rewrite decide_False by done. lia.
Qed.

Lemma fold_left_min_spec l : forall x,
  fold_left Z.min l x ∈ x :: l /\ forall y, y ∈ x :: l -> fold_left Z.min l x <= y.
Proof.
  induction l as [|z l IH]; intros x; simpl.
  - split; [left|]. intros y ->%list_elem_of_singleton. lia.
  - destruct (IH (Z.min x z)) as [Hin Hle]. split.
    + apply elem_of_cons in Hin as [Heq|Hin]; [|by do 2 right].
      rewrite Heq. destruct (Z.min_spec x z) as [[_ ->]|[_ ->]]; [left | right; left].
    + intros y Hy.
      assert (fold_left Z.min l (Z.min x z) <= Z.min x z) as Hm by (apply Hle; left).
      apply elem_of_cons in Hy as [->|[->|Hy]%elem_of_cons]; [lia | lia |].
      apply Hle. by right.
Qed.

Lemma min_element_spec v :
  v <> [] ->
  exists git, proxy_cpp.min_element v = Normal git /\ git ∈ v /\ forall g, g ∈ v -> git <= g.
Proof.
  destruct v as [|x l]; [done|]. intros _. exists (fold_left Z.min l x).
  split; [done|]. apply fold_left_min_spec.
Qed.

(** C3, as the code has it.  Completion of an upload without a policy-level
    error, for a session that targets at least one group: the handler
    returns, and all it sends is one 200 text/plain reply whose body is the
    XML document with the least targeted group in its key, one <complete>
    element per entry of the write result, in result order, each with the
    address, path, group and status of its entry, and <written> holding the
    number of entries whose status is 0. *)
Theorem upload_document_per_result lib srv (self : proxy_cpp.req_upload) now swr :
  get_groups (proxy_cpp.m_session self) <> [] ->
  exists git,
    git ∈ get_groups (proxy_cpp.m_session self) /\
    (forall g, g ∈ get_groups (proxy_cpp.m_session self) -> git <= g) /\
    (proxy_cpp.req_upload_on_finished lib srv self now swr None).2 = Normal tt /\
    sent (proxy_cpp.req_upload_on_finished lib srv self now swr None).1
    = [text_reply (upload_document lib self git swr)] /\
    length (map (complete_element lib) swr) = length swr.
Proof.
  intros Hne. destruct (min_element_spec _ Hne) as (git & Hmin & Hin & Hle).
  exists git. split; [done|]. split; [done|].
  assert (proxy_cpp.req_upload_on_finished lib srv self now swr None
          = (ev_log SWARM_LOG_DEBUG "Upload: prepare response"
             :: (if proxy_cpp.level_ge srv SWARM_LOG_INFO
                 then [ev_log SWARM_LOG_INFO
                         (proxy_cpp.print_groups (proxy_cpp.good_groups_of swr)
                            ("Upload: done; status code: 200; spent time: "
                             +:+ pretty (now - proxy_cpp.m_beg_time self)
                             +:+ "; wrote into groups: [") +:+ "]")]
                 else [])
             ++ [text_reply (upload_document lib self git swr)], Normal tt)) as ->.
  { unfold proxy_cpp.req_upload_on_finished. rewrite Hmin.
    cbn [lift bind log emit app fst snd]. rewrite complete_loop_spec.
    cbn [fst snd].
    match goal with
    | |- context [send_reply_data _ ?body] =>
        replace body with (upload_document lib self git swr)
          by (unfold upload_document; by autorewrite with string_norm)
    end.
    by destruct (proxy_cpp.level_ge srv SWARM_LOG_INFO). }
  split; [done|]. split; [|by rewrite length_map].
  by destruct (proxy_cpp.level_ge srv SWARM_LOG_INFO).
Qed.

Lemma upload_document_per_result_witness :
  exists git,
    git ∈ get_groups (proxy_cpp.m_session example.upload) /\
    (forall g, g ∈ get_groups (proxy_cpp.m_session example.upload) -> git <= g) /\
    (proxy_cpp.req_upload_on_finished example.lib example.srv example.upload 5
       [example.entry 1 0; example.entry 2 (-110); example.entry 3 0] None).2 = Normal tt /\
    sent (proxy_cpp.req_upload_on_finished example.lib example.srv example.upload 5
            [example.entry 1 0; example.entry 2 (-110); example.entry 3 0] None).1
    = [text_reply
         (upload_document example.lib example.upload git
            [example.entry 1 0; example.entry 2 (-110); example.entry 3 0])] /\
    length (map (complete_element example.lib)
              [example.entry 1 0; example.entry 2 (-110); example.entry 3 0]) = 3%nat.
Proof.
  apply (upload_document_per_result example.lib example.srv example.upload 5
           [example.entry 1 0; example.entry 2 (-110); example.entry 3 0]).
  discriminate.
Defined.

(** C3 as stated fails: three groups are targeted, two of them report a
    result, no policy-level error is raised, and the 200 document holds two
    <complete> elements, not three. *)
Lemma upload_two_results_three_groups :
  proxy_cpp.req_upload_on_finished example.lib example.srv example.upload 5
    [example.entry 1 0; example.entry 2 0] None
  = ([ev_log SWARM_LOG_DEBUG "Upload: prepare response";
      ev_log SWARM_LOG_INFO
        "Upload: done; status code: 200; spent time: 5; wrote into groups: [1, 2]";
      text_reply
        (upload_document example.lib example.upload 1
           [example.entry 1 0; example.entry 2 0])],
     Normal tt) /\
  get_groups (proxy_cpp.m_session example.upload) = [1; 2; 3] /\
  occurrences "<complete "
    (upload_document example.lib example.upload 1 [example.entry 1 0; example.entry 2 0])
  = 2%nat /\
  occurrences "<written>2</written>"
    (upload_document example.lib example.upload 1 [example.entry 1 0; example.entry 2 0])
  = 1%nat.
Proof. by vm_compute. Qed.

(** ** URLs built from their parts *)

Lemma length_append (a b : string) :
  String.length (a +:+ b) = (String.length a + String.length b)%nat.
Proof.
  induction a as [|x a IH]; [done|].
  change (S (String.length (a +:+ b)) = S (String.length a + String.length b)).
  by rewrite IH.
Qed.

Lemma size_append (a b : string) :
  std_string.size (a +:+ b) = std_string.size a + std_string.size b.
Proof. unfold std_string.size. rewrite length_append. lia. Qed.

Lemma drop_string_append (a b : string) :
  std_string.drop_string (String.length a) (a +:+ b) = b.
Proof. induction a as [|x a IH]; [by destruct b|]. exact IH. Qed.

Lemma take_string_append (a b : string) :
  std_string.take_string (String.length a) (a +:+ b) = a.
Proof.
  induction a as [|x a IH]; [by destruct b|].
  change (String x (std_string.take_string (String.length a) (a +:+ b)) = String x a).
  by rewrite IH.
Qed.

Lemma take_string_all (n : nat) (a : string) :
  (String.length a <= n)%nat -> std_string.take_string n a = a.
Proof.
  revert n. induction a as [|x a IH]; intros [|n] Hn; simpl in *; try done; try lia.
  rewrite IH; [done|lia].
Qed.

Lemma index_of_here c b : std_string.index_of c (String c b) = Some O.
Proof. simpl. by rewrite Ascii.eqb_refl. Qed.

Lemma index_of_append c (a b : string) :
  c ∉ String.list_ascii_of_string a ->
  std_string.index_of c (a +:+ b)
  = option_map (Nat.add (String.length a)) (std_string.index_of c b).
Proof.
  induction a as [|x a IH]; intros Hc.
  - change (EmptyString +:+ b) with b. by destruct (std_string.index_of c b).
  - change (String x a +:+ b) with (String x (a +:+ b)). simpl.
    destruct (Ascii.eqb_spec x c) as [->|Hne]; [exfalso; apply Hc; left|].
    rewrite IH by (intros Hin; apply Hc; by right).
    by destruct (std_string.index_of c b).
Qed.

Lemma size_t_wrap_small x :
  0 <= x < std_string.size_t_modulus -> std_string.size_t_wrap x = x.
Proof. intros Hx. unfold std_string.size_t_wrap. by apply Z.mod_small. Qed.

Lemma to_nat_size a : Z.to_nat (std_string.size a) = String.length a.
Proof. unfold std_string.size. apply Nat2Z.id. Qed.

(** [find] from the end of a prefix looks at what follows the prefix. *)
Lemma find_after (a b : string) c :
  std_string.find (a +:+ b) c (std_string.size a)
  = match std_string.index_of c b with
    | Some k => std_string.size a + Z.of_nat k
    | None => std_string.npos
    end.
Proof.
  unfold std_string.find. rewrite size_append.
  destruct (Z.ltb_spec (std_string.size a + std_string.size b) (std_string.size a)) as [Hlt|_].
  { pose proof (size_nonneg b). lia. }
  by rewrite to_nat_size, drop_string_append.
Qed.

(** [substr] from the end of a prefix cuts what follows the prefix. *)
Lemma substr_after (a b : string) n :
  std_string.substr (a +:+ b) (std_string.size a) n
  = Normal (std_string.take_string (Z.to_nat (Z.min n (std_string.size b))) b).
Proof.
  unfold std_string.substr. rewrite size_append.
  destruct (Z.ltb_spec (std_string.size a + std_string.size b) (std_string.size a)) as [Hlt|_].
  { pose proof (size_nonneg b). lia. }
  rewrite to_nat_size, drop_string_append.
  do 3 f_equal. lia.
Qed.

Lemma substr_after_exact (a b c : string) :
  std_string.substr (a +:+ b +:+ c) (std_string.size a) (std_string.size b) = Normal b.
Proof.
  rewrite substr_after, size_append. pose proof (size_nonneg c).
  rewrite Z.min_l by lia. by rewrite to_nat_size, take_string_append.
Qed.

Lemma substr_after_rest (a b : string) n :
  std_string.size b <= n -> std_string.substr (a +:+ b) (std_string.size a) n = Normal b.
Proof.
  intros Hn. rewrite substr_after, Z.min_r by lia.
  by rewrite to_nat_size, take_string_all.
Qed.

Lemma chars_append (a b : string) :
  String.list_ascii_of_string (a +:+ b)
  = String.list_ascii_of_string a ++ String.list_ascii_of_string b.
Proof.
  induction a as [|x a IH]; [done|].
  change (x :: String.list_ascii_of_string (a +:+ b)
          = x :: String.list_ascii_of_string a ++ String.list_ascii_of_string b).
  by rewrite IH.
Qed.

Lemma index_of_first c (a b : string) :
  c ∉ String.list_ascii_of_string a ->
  std_string.index_of c (a +:+ String c b) = Some (String.length a).
Proof.
  intros Hc. rewrite index_of_append, index_of_here by done. simpl. f_equal. lia.
Qed.

Lemma find_from_start (s : string) c :
  std_string.find s c 0
  = match std_string.index_of c s with
    | Some k => Z.of_nat k
    | None => std_string.npos
    end.
Proof. exact (find_after EmptyString s c). Qed.

(** What [find('?', begin)] and the [substr] after it make of a file name
    followed by a query string. *)
Lemma filename_after (p file query : string) :
  "?"%char ∉ String.list_ascii_of_string file ->
  is_query query ->
  std_string.size (p +:+ file +:+ query) < std_string.npos ->
  std_string.substr (p +:+ file +:+ query) (std_string.size p)
    (std_string.size_t_wrap
       (std_string.find (p +:+ file +:+ query) "?" (std_string.size p) - std_string.size p))
  = Normal file.
Proof.
  intros Hfile Hq Hsize. rewrite !size_append in Hsize.
  pose proof (size_nonneg p). pose proof (size_nonneg file). pose proof (size_nonneg query).
  assert (std_string.npos < std_string.size_t_modulus) by done.
  rewrite find_after. destruct Hq as [-> | [q ->]].
  - rewrite append_nil_r in *. rewrite index_of_absent by done.
    rewrite size_t_wrap_small by lia. apply substr_after_rest. lia.
  - rewrite index_of_first by done.
    replace (std_string.size p + Z.of_nat (String.length file) - std_string.size p)
      with (std_string.size file) by (unfold std_string.size; lia).
    rewrite size_t_wrap_small by lia. apply substr_after_exact.
Qed.

Lemma not_elem_of_chars_append c (a b : string) :
  (c ∉ String.list_ascii_of_string (a +:+ b)) <->
  ((c ∉ String.list_ascii_of_string a) /\ (c ∉ String.list_ascii_of_string b)).
Proof. rewrite chars_append, not_elem_of_app. tauto. Qed.

Lemma get_filename_segments req verb ns file query :
  url_to_string req = "/" +:+ verb +:+ "-" +:+ ns +:+ "/" +:+ file +:+ query ->
  "-"%char ∉ String.list_ascii_of_string verb ->
  "/"%char ∉ String.list_ascii_of_string verb ->
  "/"%char ∉ String.list_ascii_of_string ns ->
  "?"%char ∉ String.list_ascii_of_string file ->
  is_query query ->
  std_string.size (url_to_string req) < std_string.npos ->
  get_filename req = Normal (file, ns).
Proof.
  intros Hurl Hdash Hslash Hns Hfile Hq Hsize.
  unfold get_filename. rewrite Hurl in *. clear Hurl.
  set (p := "/" +:+ verb +:+ "-" +:+ ns +:+ "/").
  set (q := "/" +:+ verb +:+ "-").
  assert ("/" +:+ verb +:+ "-" +:+ ns +:+ "/" +:+ file +:+ query = p +:+ file +:+ query) as Hp
    by (subst p; by autorewrite with string_norm).
  assert (std_string.size p = std_string.size q + std_string.size ns + 1) as Hsp.
  { subst p q. rewrite !size_append. change (std_string.size "/") with 1.
    change (std_string.size "-") with 1. lia. }
  assert (std_string.size q = std_string.size verb + 2) as Hsq.
  { subst q. rewrite !size_append. change (std_string.size "/") with 1.
    change (std_string.size "-") with 1. lia. }
  assert ("/" +:+ verb +:+ "-" +:+ ns +:+ "/" +:+ file +:+ query
          = q +:+ ns +:+ "/" +:+ file +:+ query) as Hq'
    by (subst q; by autorewrite with string_norm).
  clearbody p q.
  assert (std_string.npos < std_string.size_t_modulus) by done.
  pose proof (size_nonneg verb). pose proof (size_nonneg ns).
  pose proof (size_nonneg file). pose proof (size_nonneg query).
  assert (std_string.size p + std_string.size file + std_string.size query
          < std_string.npos) as Hbound.
  { rewrite Hp, !size_append in Hsize. lia. }
  (* the second '/' *)
  assert (std_string.find ("/" +:+ verb +:+ "-" +:+ ns +:+ "/" +:+ file +:+ query) "/" 1
          = std_string.size p - 1) as ->.
  { change 1 with (std_string.size "/") at 1. rewrite find_after.
    replace (verb +:+ "-" +:+ ns +:+ "/" +:+ file +:+ query)
      with ((verb +:+ "-" +:+ ns) +:+ String "/" (file +:+ query))
      by (by autorewrite with string_norm).
    rewrite index_of_first.
    - rewrite !length_append. change (std_string.size "/") with 1.
      unfold std_string.size in *. simpl. lia.
    - rewrite !not_elem_of_chars_append. split; [done|]. split; [|done].
      simpl. rewrite list_elem_of_singleton. discriminate. }
  replace (std_string.size p - 1 + 1) with (std_string.size p) by lia.
  rewrite (size_t_wrap_small (std_string.size p)) by lia.
  rewrite Hp at 1 2. rewrite filename_after by (done || rewrite !size_append; lia).
  cbn [outcome_bind].
  (* the first '-' *)
  assert (std_string.find ("/" +:+ verb +:+ "-" +:+ ns +:+ "/" +:+ file +:+ query) "-" 0
          = std_string.size q - 1) as ->.
  { rewrite find_from_start.
    replace ("/" +:+ verb +:+ "-" +:+ ns +:+ "/" +:+ file +:+ query)
      with (("/" +:+ verb) +:+ String "-" (ns +:+ "/" +:+ file +:+ query))
      by (by autorewrite with string_norm).
    rewrite index_of_first.
    - rewrite length_append. unfold std_string.size in *. simpl. lia.
    - rewrite not_elem_of_chars_append. split; [|done].
      simpl. rewrite list_elem_of_singleton. discriminate. }
  destruct (Z.eqb_spec (std_string.size q - 1) std_string.npos) as [Heq|_]; [lia|].
  replace (std_string.size q - 1 + 1) with (std_string.size q) by lia.
  rewrite (size_t_wrap_small (std_string.size q)) by lia.
  rewrite (size_t_wrap_small (std_string.size p - 1)) by lia.
  destruct (Z.ltb_spec (std_string.size q) (std_string.size p - 1)) as [Hlt|Hge].
  - replace (std_string.size p - 1 - std_string.size q) with (std_string.size ns) by lia.
    rewrite (size_t_wrap_small (std_string.size ns)) by lia.
    by rewrite Hq', substr_after_exact.
  - assert (std_string.size ns = 0) as Hempty by lia.
    destruct ns; [done|]. unfold std_string.size in Hempty. simpl in Hempty. lia.
Qed.

(** [get_filename] on a URL of the shape [/<verb>-<namespace>/<file>] with
    an optional query string: the file name is what stands between the
    second '/' and the '?', the namespace what stands between the first '-'
    and the second '/'.  [get_file_info] then answers the file name as key
    and the namespace registered under that name, the empty namespace when
    there is none. *)
Theorem get_filename_parses srv req verb ns file query :
  url_to_string req = "/" +:+ verb +:+ "-" +:+ ns +:+ "/" +:+ file +:+ query ->
  "-"%char ∉ String.list_ascii_of_string verb ->
  "/"%char ∉ String.list_ascii_of_string verb ->
  "/"%char ∉ String.list_ascii_of_string ns ->
  "?"%char ∉ String.list_ascii_of_string file ->
  is_query query ->
  std_string.size (url_to_string req) < std_string.npos ->
  get_filename req = Normal (file, ns) /\
  get_file_info srv req
  = Normal (key_remote file,
            match m_namespaces srv !! ns with
            | Some item => item
            | None => namespace_t_default
            end).
Proof.
  intros Hurl Hdash Hslash Hns Hfile Hq Hsize.
  pose proof (get_filename_segments req verb ns file query
                Hurl Hdash Hslash Hns Hfile Hq Hsize) as Hf.
  split; [done|]. unfold get_file_info. by rewrite Hf.
Qed.

Lemma get_filename_parses_witness :
  get_file_info example.srv (example.request "/upload-bar/file.txt?embed&timestamp=7")
  = Normal (key_remote "file.txt", example.bar).
Proof.
  apply (get_filename_parses example.srv _ "upload" "bar" "file.txt" "?embed&timestamp=7");
    first [reflexivity | by right; eexists | by apply (bool_decide_unpack _)].
Defined.

(** ** One action per handler *)

Lemma sent_app t t' : sent (t ++ t') = sent t ++ sent t'.
Proof. apply List.filter_app. Qed.

Lemma bind_ret_l {A B} (a : A) (k : A -> io B) : bind (ret a) k = k a.
Proof. unfold bind, ret. by destruct (k a). Qed.

Lemma bind_lift_Normal {A B} (a : A) (k : A -> io B) : bind (lift (Normal a)) k = k a.
Proof. apply bind_ret_l. Qed.

Lemma quiet_ret {A} (a : A) : quiet (ret a).
Proof. done. Qed.

Lemma quiet_log l msg : quiet (log l msg).
Proof. done. Qed.

Lemma quiet_lift {A} (o : outcome A) : quiet (lift o).
Proof. done. Qed.

Lemma quiet_bind {A B} (m : io A) (k : A -> io B) :
  quiet m -> (forall a, quiet (k a)) -> quiet (bind m k).
Proof.
  unfold quiet. destruct m as [t [a|e|]]; simpl; intros Hm Hk; try done.
  specialize (Hk a). destruct (k a) as [t' o]. simpl in *.
  by rewrite sent_app, Hm, Hk.
Qed.

Lemma quiet_try_catch_all {A} (body on_any : io A) :
  quiet body -> quiet on_any -> quiet (try_catch_all body on_any).
Proof.
  unfold quiet. destruct body as [t [a|e|]], on_any as [t' o]; simpl; intros Hb Hh; try done.
  by rewrite sent_app, Hb, Hh.
Qed.

Lemma once_emit P e : is_log e = false -> P e = true -> once_or_nothing P (emit e).
Proof. intros Hl HP. exists e. unfold sent. simpl. by rewrite Hl. Qed.

Lemma once_throw {A} P e : once_or_nothing P (@throw A e).
Proof. done. Qed.

Lemma once_bind_quiet {A B} P (m : io A) (k : A -> io B) :
  quiet m -> (forall a, once_or_nothing P (k a)) -> once_or_nothing P (bind m k).
Proof.
  unfold quiet, once_or_nothing. destruct m as [t [a|e|]]; simpl; intros Hm Hk; try done.
  specialize (Hk a). destruct (k a) as [t' o]. simpl in *.
  rewrite sent_app, Hm. by destruct o.
Qed.

Lemma once_bind_ret {A B} P (m : io A) (f : A -> B) :
  once_or_nothing P m -> once_or_nothing P (bind m (fun a => ret (f a))).
Proof.
  unfold once_or_nothing. destruct m as [t [a|e|]]; simpl; try done.
  by rewrite app_nil_r.
Qed.

Lemma acts_once_try_catch P body on_std on_other :
  once_or_nothing P body ->
  (forall what, replies_once P (on_std what)) ->
  replies_once P on_other ->
  acts_once P (try_catch body on_std on_other).
Proof.
  unfold once_or_nothing, acts_once, replies_once.
  destruct body as [t [[]|[what|]|]]; simpl; intros Hb Hs Ho; try done.
  - specialize (Hs what). destruct (on_std what) as [t' o]. simpl in *.
    destruct Hs as [-> Hs]. by rewrite sent_app, Hb.
  - destruct on_other as [t' o]. simpl in *.
    destruct Ho as [-> Ho]. by rewrite sent_app, Hb.
Qed.

Lemma replies_once_log_code P l msg c :
  P (ev_send_code c) = true -> replies_once P (run log l msg; send_reply_code c).
Proof. intros HP. split; [done|]. by exists (ev_send_code c). Qed.

Ltac effects :=
  repeat first
    [ apply acts_once_try_catch; [| intros; by apply replies_once_log_code
                                  | by apply replies_once_log_code]
    | apply quiet_ret | apply quiet_log | apply quiet_lift
    | apply once_throw
    | apply once_emit; [reflexivity | reflexivity]
    | apply once_bind_ret
    | apply quiet_try_catch_all
    | apply once_bind_quiet; [| intros]
    | apply quiet_bind; [| intros]
    | match goal with
      | |- once_or_nothing _ (if ?b then _ else _) => destruct b
      | |- quiet (if ?b then _ else _) => destruct b
      | |- once_or_nothing _ (match ?x with _ => _ end) => destruct x
      | |- quiet (match ?x with _ => _ end) => destruct x
      | |- once_or_nothing _ (let '(_, _) := ?x in _) => destruct x
      end ].

Lemma write_once lib s k d q : once_or_nothing is_storage_op (proxy_cpp.write lib s k d q).
Proof. unfold proxy_cpp.write. effects. Qed.

Lemma prepare_session_quiet lib srv req : quiet (proxy_cpp.prepare_session lib srv req).
Proof. unfold proxy_cpp.prepare_session. effects. Qed.

(** The four handlers of proxy.cpp that work on stored data let no
    exception out, and one that returns has done exactly one thing besides
    logging: it has sent one reply or issued one storage operation, never
    both and never two. *)
Theorem dispatch_acts_once lib srv req buffer :
  acts_once any_event (proxy_cpp.req_upload_on_request lib srv req buffer) /\
  acts_once any_event (proxy_cpp.req_get_on_request lib srv req) /\
  acts_once any_event (proxy_cpp.req_delete_on_request lib srv req) /\
  acts_once any_event (proxy_cpp.req_download_info_on_request lib srv req).
Proof.
  repeat split.
  - unfold proxy_cpp.req_upload_on_request, proxy_cpp.upload_catch. effects.
  - unfold proxy_cpp.req_get_on_request. effects.
  - unfold proxy_cpp.req_delete_on_request. effects.
  - unfold proxy_cpp.req_download_info_on_request. effects.
Qed.

(** The same for the other handlers: stat-log issues its query or replies
    500, ping and cache always reply, and the revision of delete.cpp that
    resolves the namespace first replies or removes.
    [req_delete::on_request] of delete.cpp is not in the list: it can send
    the 401 and go on. *)
Theorem service_handlers_act_once srv req :
  acts_once any_event (proxy_cpp.req_stat_log_on_request srv req) /\
  acts_once is_reply (proxy_cpp.req_ping_on_request srv req) /\
  acts_once is_reply (proxy_cpp.req_cache_on_request srv req) /\
  acts_once any_event (delete_cpp_ns.on_request srv req).
Proof.
  repeat split.
  - unfold proxy_cpp.req_stat_log_on_request. effects.
  - unfold proxy_cpp.req_ping_on_request. effects.
  - unfold proxy_cpp.req_cache_on_request. effects.
  - unfold delete_cpp_ns.on_request.
    destruct (get_namespace srv (url_to_string req) "/delete") as [ns|[what|]|];
      [| unfold acts_once; simpl; by eexists ..].
    apply acts_once_try_catch;
      [| intros; by apply replies_once_log_code | by apply replies_once_log_code].
    apply once_bind_quiet; [apply quiet_log|]. intros _.
    rewrite bind_lift_Normal, bind_ret_l.
    effects.
Qed.

Lemma download_info_loop_once lib srv slr :
  once_or_nothing is_reply (proxy_cpp.download_info_loop lib srv slr).
Proof.
  induction slr as [|it slr IH]; cbn [proxy_cpp.download_info_loop]; [effects|].
  destruct (entry_error it); [done|].
  unfold proxy_cpp.download_info_reply. effects.
Qed.

(** No [on_finished] callback lets an exception out, and one that returns
    has sent exactly one reply and issued no storage operation, whatever the
    result and the error it is handed. *)
Theorem completion_answers_once lib srv self now swr q srr ims slr rrr error :
  acts_once is_reply (proxy_cpp.req_upload_on_finished lib srv self now swr error) /\
  acts_once is_reply (proxy_cpp.req_get_on_finished lib q srr error ims) /\
  acts_once is_reply (proxy_cpp.req_download_info_on_finished lib srv slr error) /\
  acts_once is_reply (delete_cpp.on_finished rrr error).
Proof.
  repeat split.
  - unfold proxy_cpp.req_upload_on_finished. effects.
  - unfold proxy_cpp.req_get_on_finished. effects.
  - unfold proxy_cpp.req_download_info_on_finished. effects.
    apply download_info_loop_once.
  - destruct error; unfold acts_once; simpl; by eexists.
Qed.

(** ** upload: the bad groups as a multiset *)

Lemma count_occ_above x l :
  Forall (fun w => x < w) l -> count_occ Z.eq_dec l x = O.
Proof.
  induction 1 as [|w l Hw _ IH]; [done|].
  simpl. destruct (Z.eq_dec w x); [lia | done].
Qed.

Lemma Forall_le_lt x y l : x < y -> Forall (Z.le y) l -> Forall (fun w => x < w) l.
Proof. intros Hxy Hall. eapply Forall_impl; [done|]. intros w Hw. simpl in *. lia. Qed.

(** On sorted vectors the merge walk subtracts multiplicities. *)
Lemma set_difference_count a :
  forall b z,
    StronglySorted Z.le a -> StronglySorted Z.le b ->
    count_occ Z.eq_dec (proxy_cpp.set_difference a b) z
    = (count_occ Z.eq_dec a z - count_occ Z.eq_dec b z)%nat.
Proof.
  induction a as [|x a IHa]; intros b z Ha Hb; [done|].
  induction b as [|y b IHb].
  - rewrite set_difference_nil_r. change (count_occ Z.eq_dec [] z) with O. lia.
  - rewrite set_difference_cons.
    apply StronglySorted_inv in Ha as Ha'. destruct Ha' as [Ha' Hxa].
    apply StronglySorted_inv in Hb as Hb'. destruct Hb' as [Hb' Hyb].
    destruct (Z.ltb_spec x y) as [Hxy|Hyx].
    + destruct (Z.eq_dec x z) as [->|Hne].
      * rewrite !count_occ_cons_eq by done. rewrite (IHa (y :: b) z Ha' Hb).
        rewrite (count_occ_above z (y :: b)); [lia|].
        constructor; [done|]. by apply (Forall_le_lt z y).
      * rewrite !(count_occ_cons_neq _ _ Hne). by apply IHa.
    + destruct (Z.ltb_spec y x) as [Hlt|Hge].
      * rewrite (IHb Hb').
        destruct (Z.eq_dec y z) as [->|Hne];
          [|by rewrite (count_occ_cons_neq _ b Hne)].
        rewrite (count_occ_above z (x :: a)); [lia|].
        constructor; [done|]. by apply (Forall_le_lt z x).
      * assert (x = y) as -> by lia.
        rewrite (IHa b z Ha' Hb').
        destruct (Z.eq_dec y z) as [->|Hne].
        -- rewrite !count_occ_cons_eq by done. lia.
        -- by rewrite !(count_occ_cons_neq _ _ Hne).
Qed.

Lemma set_difference_sublist a : forall b, proxy_cpp.set_difference a b `sublist_of` a.
Proof.
  induction a as [|x a IHa]; intros b; [done|].
  induction b as [|y b IHb]; [by rewrite set_difference_nil_r|].
  rewrite set_difference_cons.
  destruct (x <? y); [by apply sublist_skip|].
  destruct (y <? x); [done|]. by apply sublist_cons.
Qed.

Lemma StronglySorted_sublist_of (l k : list Z) :
  l `sublist_of` k -> StronglySorted Z.le k -> StronglySorted Z.le l.
Proof.
  induction 1 as [|x l k Hsub IH|x l k Hsub IH]; intros Hk; [done| |].
  - apply StronglySorted_inv in Hk as [Hk Hall]. constructor; [by apply IH|].
    rewrite Forall_forall in Hall |- *. intros y Hy. apply Hall.
    by apply (elem_of_sublist l).
  - apply StronglySorted_inv in Hk as [Hk _]. by apply IH.
Qed.

(** What the error branch of [req_upload::on_finished] reports as bad
    groups, whatever the vectors hold: a sorted vector in which a group
    occurs as many times as it is targeted more often than it reports. *)
Theorem bad_groups_multiset (self : proxy_cpp.req_upload) swr :
  StronglySorted Z.le (proxy_cpp.bad_groups_of self swr) /\
  forall g,
    count_occ Z.eq_dec (proxy_cpp.bad_groups_of self swr) g
    = (count_occ Z.eq_dec (get_groups (proxy_cpp.m_session self)) g
       - count_occ Z.eq_dec (proxy_cpp.good_groups_of swr) g)%nat.
Proof.
  unfold proxy_cpp.bad_groups_of. split.
  - eapply StronglySorted_sublist_of; [apply set_difference_sublist | apply sort_sorted].
  - intros g. rewrite set_difference_count by apply sort_sorted.
    by rewrite !(proj1 (Permutation_count_occ Z.eq_dec _ _) (sort_Permutation _)).
Qed.

(** ** lookup_result: the memo cells *)

(** Calling an accessor changes no answer of the object, neither its own
    nor another accessor's; and the answer of a second call is the memo
    cell's, whatever the platform would say then: [host] makes one DNS
    lookup per object. *)
Theorem lookup_result_memo lib self :
  Forall (fun self' => answers lib self' = answers lib self) (after_call lib self) /\
  (forall lib' h self',
     lookup_result_cpp.host lib self = Normal (h, self') ->
     lookup_result_cpp.host lib' self' = Normal (h, self')) /\
  (forall lib',
     lookup_result_cpp.port lib' (lookup_result_cpp.port lib self).2
     = lookup_result_cpp.port lib self /\
     lookup_result_cpp.addr lib' (lookup_result_cpp.addr lib self).2
     = lookup_result_cpp.addr lib self) /\
  lookup_result_cpp.path (lookup_result_cpp.path self).2 = lookup_result_cpp.path self /\
  lookup_result_cpp.full_path (lookup_result_cpp.full_path self).2
  = lookup_result_cpp.full_path self.
Proof.
  destruct self as [entry sign_port h p a pa fp].
  unfold answers, after_call, lookup_result_cpp.host, lookup_result_cpp.port,
    lookup_result_cpp.addr, lookup_result_cpp.path, lookup_result_cpp.full_path.
  repeat split.
  - repeat first [apply Forall_cons_2 | apply Forall_nil_2]; simpl;
      destruct h, p, a, pa, fp; simpl; try done;
      destruct (getnameinfo lib (storage_address entry) 0) eqn:Hg; simpl; by rewrite ?Hg.
  - intros lib' h0 self'. simpl. destruct h as [h|].
    + by intros [= <- <-].
    + destruct (getnameinfo lib (storage_address entry) 0); [|done].
      by intros [= <- <-].
  - by destruct p.
  - by destruct a.
  - by destruct pa.
  - by destruct fp.
Qed.

(** ** The registry, name by name *)

Lemma generate_namespaces_loop_lookup members :
  forall res reg,
    proxy_cpp.generate_namespaces_loop members res = Normal reg ->
    forall n,
      match res !! n with
      | Some ns => reg !! n = Some ns
      | None =>
          match first_member members n with
          | Some o => exists ns, o = Normal ns /\ reg !! n = Some ns
          | None => reg !! n = None
          end
      end.
Proof.
  induction members as [|[k value] rest IH]; intros res reg; simpl.
  - intros [= <-] n. by destruct (res !! n).
  - destruct (proxy_cpp.generate_namespace (k, value)) as [item| |] eqn:Hitem;
      simpl; try discriminate.
    intros Hloop n. specialize (IH _ _ Hloop n).
    destruct (generate_namespace_accepted _ _ _ Hitem) as [Hname _].
    rewrite Hname in IH. unfold first_member in *. simpl.
    unfold proxy_cpp.map_insert in IH.
    destruct (String.eqb_spec k n) as [->|Hne].
    + destruct (res !! n) as [ns|] eqn:Hres.
      * by rewrite Hres in IH.
      * rewrite lookup_insert_eq in IH. simpl. eauto.
    + destruct (res !! k) eqn:Hk; [done|].
      by rewrite lookup_insert_ne in IH.
Qed.

(** After a load that returned, the registry holds under each name what
    [generate_namespace] made of the first member of that name, under its
    own name, and nothing under a name that no member has: a later member
    of the same name is validated and then dropped. *)
Theorem generate_namespaces_first_member config members reg :
  member config "namespaces" = Normal (kObject members) ->
  proxy_cpp.generate_namespaces config = Normal reg ->
  registry_by_name reg /\
  forall n,
    match first_member members n with
    | Some o => exists ns, o = Normal ns /\ reg !! n = Some ns
    | None => reg !! n = None
    end.
Proof.
  intros Hm Hgen.
  apply generate_namespaces_members in Hgen as (members' & Hm' & Hloop).
  rewrite Hm in Hm'. injection Hm' as <-.
  pose proof (generate_namespaces_loop_lookup _ _ _ Hloop) as Hlookup.
  assert (forall n,
             match first_member members n with
             | Some o => exists ns, o = Normal ns /\ reg !! n = Some ns
             | None => reg !! n = None
             end) as Hall.
  { intros n. specialize (Hlookup n). by rewrite lookup_empty in Hlookup. }
  split; [|done].
  intros n ns Hreg. specialize (Hall n). unfold first_member in Hall.
  destruct (FindMember members n) as [value|]; simpl in Hall; [|congruence].
  destruct Hall as (ns' & Hgen & Hreg'). rewrite Hreg in Hreg'. injection Hreg' as <-.
  by destruct (generate_namespace_accepted _ _ _ Hgen).
Qed.

Lemma generate_namespaces_first_member_witness :
  registry_by_name
    {[ "foo"%string :=
         {| name := "foo"; groups_count := 0;
            result_checker := Some checkers_all; auth_key := EmptyString |} ]}.
Proof.
  exact (proj1 (generate_namespaces_first_member example.config_zero _ _ eq_refl eq_refl)).
Defined.

(** ** URLs with a group segment *)

(** [find] from the end of a prefix stops at the first [c] after it. *)
Lemma find_next (p a b : string) c :
  c ∉ String.list_ascii_of_string a ->
  std_string.find (p +:+ a +:+ String c b) c (std_string.size p)
  = std_string.size p + std_string.size a.
Proof. intros Hc. by rewrite find_after, index_of_first. Qed.

Lemma index_of_present c s :
  c ∈ String.list_ascii_of_string s -> exists k, std_string.index_of c s = Some k.
Proof.
  induction s as [|d s IH]; simpl; [by intros ?%elem_of_nil|].
  intros Hin. destruct (Ascii.eqb_spec d c) as [->|Hne]; [eauto|].
  apply elem_of_cons in Hin as [->|Hin]; [done|].
  destruct (IH Hin) as [k ->]. simpl. eauto.
Qed.

Section group_url.

Variables (lib : platform) (srv : proxy) (req : http_request).
Variables (verb g filename query : string).

Hypothesis Hurl :
  url_to_string req = "/" +:+ verb +:+ "/" +:+ g +:+ "/" +:+ filename +:+ query.
Hypothesis Hverb : "/"%char ∉ String.list_ascii_of_string verb.
Hypothesis Hg : "/"%char ∉ String.list_ascii_of_string g.
Hypothesis Hfile : "?"%char ∉ String.list_ascii_of_string filename.
Hypothesis Hquery : is_query query.
Hypothesis Hsize : std_string.size (url_to_string req) < std_string.npos.

Lemma prepare_session_segments :
  let url := url_to_string req in
  let bg := std_string.size_t_wrap (std_string.find url "/" 1 + 1) in
  let eg := std_string.find url "/" bg in
  let bf := std_string.size_t_wrap (eg + 1) in
  let ef := std_string.find url "?" bf in
  std_string.substr url bg (std_string.size_t_wrap (eg - bg)) = Normal g /\
  std_string.substr url bf (std_string.size_t_wrap (ef - bf)) = Normal filename.
Proof.
  intros url. subst url. rewrite Hurl in *. clear Hurl.
  set (u := "/" +:+ verb +:+ "/" +:+ g +:+ "/" +:+ filename +:+ query) in *.
  set (p1 := "/" +:+ verb +:+ "/").
  set (p2 := p1 +:+ g +:+ "/").
  assert (u = "/" +:+ verb +:+ String "/" (g +:+ "/" +:+ filename +:+ query)) as Hu0
    by (subst u; by autorewrite with string_norm).
  assert (u = p1 +:+ g +:+ String "/" (filename +:+ query)) as Hu1
    by (subst u p1; by autorewrite with string_norm).
  assert (u = p1 +:+ g +:+ ("/" +:+ filename +:+ query)) as Hu1'
    by (subst u p1; by autorewrite with string_norm).
  assert (u = p2 +:+ filename +:+ query) as Hu2
    by (subst u p2 p1; by autorewrite with string_norm).
  assert (std_string.size p1 = std_string.size verb + 2) as Hs1.
  { subst p1. rewrite !size_append. change (std_string.size "/") with 1. lia. }
  assert (std_string.size p2 = std_string.size p1 + std_string.size g + 1) as Hs2.
  { subst p2. rewrite !size_append. change (std_string.size "/") with 1. lia. }
  clearbody p1 p2. clearbody u.
  assert (std_string.npos < std_string.size_t_modulus) by done.
  pose proof (size_nonneg verb). pose proof (size_nonneg g).
  pose proof (size_nonneg filename). pose proof (size_nonneg query).
  assert (std_string.size p2 + std_string.size filename + std_string.size query
          < std_string.npos) as Hbound.
  { rewrite Hu2, !size_append in Hsize. lia. }
  assert (std_string.find u "/" 1 = std_string.size p1 - 1) as ->.
  { rewrite Hu0. change 1 with (std_string.size "/") at 1.
    rewrite find_next by done. change (std_string.size "/") with 1. lia. }
  cbv zeta.
  replace (std_string.size p1 - 1 + 1) with (std_string.size p1) by lia.
  rewrite (size_t_wrap_small (std_string.size p1)) by lia.
  assert (std_string.find u "/" (std_string.size p1)
          = std_string.size p1 + std_string.size g) as ->.
  { rewrite Hu1. by apply find_next. }
  replace (std_string.size p1 + std_string.size g - std_string.size p1)
    with (std_string.size g) by lia.
  replace (std_string.size p1 + std_string.size g + 1) with (std_string.size p2) by lia.
  rewrite (size_t_wrap_small (std_string.size g)) by lia.
  rewrite (size_t_wrap_small (std_string.size p2)) by lia.
  split.
  - rewrite Hu1'. apply substr_after_exact.
  - rewrite Hu2. apply filename_after; [done | done |]. rewrite !size_append. lia.
Qed.

Lemma prepare_session_run :
  exists t,
    sent t = [] /\
    proxy_cpp.prepare_session lib srv req
    = (t, match fetched_groups lib srv g filename with
          | Normal gs => Normal (set_groups (get_session srv) gs, key_remote filename)
          | Thrown _ => Normal (get_session srv, key_remote filename)
          | Undefined => Undefined
          end).
Proof.
  pose proof (prepare_session_quiet lib srv req) as Hq.
  destruct (proxy_cpp.prepare_session lib srv req) as [t o] eqn:Hrun.
  exists t. split; [done|]. f_equal.
  apply (f_equal snd) in Hrun. simpl in Hrun. rewrite <- Hrun. clear Hrun Hq.
  destruct prepare_session_segments as [Hgs Hfs]. cbv zeta in Hgs, Hfs.
  unfold proxy_cpp.prepare_session, fetched_groups.
  rewrite Hgs, Hfs, !bind_lift_Normal.
  destruct (lexical_cast_int lib g) as [group| |]; simpl;
    [|by destruct (proxy_cpp.level_ge srv SWARM_LOG_INFO) | done].
  destruct (get_symmetric_groups (m_mastermind srv) group) as [v1| |]; simpl;
    [|by destruct (proxy_cpp.level_ge srv SWARM_LOG_INFO) | done].
  destruct (get_cache_groups (m_mastermind srv) filename) as [v2| |]; simpl;
    [|by destruct (proxy_cpp.level_ge srv SWARM_LOG_INFO) | done].
  by destruct (proxy_cpp.level_ge srv SWARM_LOG_INFO).
Qed.

(** [prepare_session] on a URL of the shape [/<verb>/<group>/<file>] with
    an optional query string: it only logs; the key is the file name, and
    the session targets the groups the balancer names for the group and the
    file.  When the group is no number or a balancer call throws, nothing
    is reported: the session keeps the groups it had. *)
Theorem prepare_session_parses :
  storage_ops (proxy_cpp.prepare_session lib srv req).1 = [] /\
  (proxy_cpp.prepare_session lib srv req).2
  = match fetched_groups lib srv g filename with
    | Normal gs => Normal (set_groups (get_session srv) gs, key_remote filename)
    | Thrown _ => Normal (get_session srv, key_remote filename)
    | Undefined => Undefined
    end.
Proof.
  destruct prepare_session_run as (t & Hq & ->). split; [|done].
  simpl. clear -Hq. induction t as [|e t IH]; [done|].
  unfold sent in Hq. simpl in Hq. destruct e; simpl in *; try done; by apply IH.
Qed.

(** When the groups of such a URL cannot be determined and the server's
    session targets no group of its own, the get, delete and download-info
    handlers answer 404 and issue nothing. *)
Theorem unresolved_group_404 e :
  fetched_groups lib srv g filename = Thrown e ->
  get_groups (get_session srv) = [] ->
  sent (proxy_cpp.req_get_on_request lib srv req).1 = [ev_send_code 404] /\
  sent (proxy_cpp.req_delete_on_request lib srv req).1 = [ev_send_code 404] /\
  sent (proxy_cpp.req_download_info_on_request lib srv req).1 = [ev_send_code 404].
Proof.
  intros Hf Hempty. destruct prepare_session_run as (t & Hq & Hrun).
  rewrite Hf in Hrun.
  unfold proxy_cpp.req_get_on_request, proxy_cpp.req_delete_on_request,
    proxy_cpp.req_download_info_on_request.
  rewrite Hrun. simpl. rewrite Hempty. simpl.
  by rewrite !sent_app, Hq.
Qed.

(** When the balancer names groups for such a URL, the three handlers issue
    their operation on the file name as key with a session that targets
    those groups: download-info a lookup and delete a remove, both with the
    filter [all], delete only when the node has enough live connections;
    get a read of the range the query asks for, whatever the number of
    connections. *)
Theorem group_url_dispatch gs :
  fetched_groups lib srv g filename = Normal gs ->
  gs <> [] ->
  let session := set_groups (get_session srv) gs in
  (forall offset sz,
     proxy_cpp.get_arg lib (url_query_list req) "offset" 0 = Normal offset ->
     proxy_cpp.get_arg lib (url_query_list req) "size" 0 = Normal sz ->
     sent (proxy_cpp.req_get_on_request lib srv req).1
     = [ev_read_data session (key_remote filename) offset sz]) /\
  sent (proxy_cpp.req_delete_on_request lib srv req).1
  = (if state_num (get_session srv) <? die_limit srv then [ev_send_code 500]
     else [ev_remove (set_filter session filters_all) (key_remote filename)]) /\
  sent (proxy_cpp.req_download_info_on_request lib srv req).1
  = [ev_lookup (set_filter session filters_all) (key_remote filename)].
Proof.
  intros Hf Hne session. destruct prepare_session_run as (t & Hq & Hrun).
  rewrite Hf in Hrun.
  unfold proxy_cpp.req_get_on_request, proxy_cpp.req_delete_on_request,
    proxy_cpp.req_download_info_on_request.
  rewrite Hrun. destruct gs as [|g0 gs']; [done|].
  split; [|split].
  - intros offset sz -> ->. simpl. by rewrite !sent_app, Hq.
  - simpl. destruct (_ <? _); simpl; by rewrite !sent_app, Hq.
  - simpl. by rewrite !sent_app, Hq.
Qed.

End group_url.

Lemma prepare_session_parses_witness :
  (proxy_cpp.prepare_session example.lib example.srv
     (example.request "/get/1/file.txt?size=4")).2
  = Normal (set_groups example.the_session [1], key_remote "file.txt").
Proof.
  apply (prepare_session_parses example.lib example.srv _ "get" "1" "file.txt" "?size=4");
    first [reflexivity | by right; eexists | by apply (bool_decide_unpack _)].
Defined.

Lemma unresolved_group_404_witness :
  sent (proxy_cpp.req_get_on_request example.lib example.srv
          (example.request "/get/x/file.txt")).1 = [ev_send_code 404] /\
  sent (proxy_cpp.req_delete_on_request example.lib example.srv
          (example.request "/get/x/file.txt")).1 = [ev_send_code 404] /\
  sent (proxy_cpp.req_download_info_on_request example.lib example.srv
          (example.request "/get/x/file.txt")).1 = [ev_send_code 404].
Proof.
  apply (unresolved_group_404 example.lib example.srv (example.request "/get/x/file.txt")
           "get" "x" "file.txt" EmptyString eq_refl)
    with (e := std_exception "bad lexical cast");
    first [reflexivity | by left | by apply (bool_decide_unpack _)].
Defined.

Lemma group_url_dispatch_witness :
  sent (proxy_cpp.req_download_info_on_request example.lib example.srv
          (example.request "/download-info/1/file.txt")).1
  = [ev_lookup (set_filter (set_groups example.the_session [1]) filters_all)
       (key_remote "file.txt")].
Proof.
  edestruct (group_url_dispatch example.lib example.srv
               (example.request "/download-info/1/file.txt") "download-info" "1" "file.txt"
               EmptyString eq_refl) with (gs := [1]) as (_ & _ & H);
    [by apply (bool_decide_unpack _) ..| by left | reflexivity | reflexivity | done
    | exact H].
Defined.

(** ** URLs without a namespace *)

Section file_url.

Variables (req : http_request) (verb file query : string).

Hypothesis Hurl : url_to_string req = "/" +:+ verb +:+ "/" +:+ file +:+ query.
Hypothesis Hdash : "-"%char ∉ String.list_ascii_of_string verb.
Hypothesis Hslash : "/"%char ∉ String.list_ascii_of_string verb.
Hypothesis Hfile : "?"%char ∉ String.list_ascii_of_string file.
Hypothesis Hquery : is_query query.
Hypothesis Hsize : std_string.size (url_to_string req) < std_string.npos.

Lemma get_filename_dash_after_slash :
  "-"%char ∈ String.list_ascii_of_string (file +:+ query) ->
  get_filename req = Normal (file, EmptyString).
Proof.
  intros Hin. unfold get_filename. rewrite Hurl in *. clear Hurl.
  set (u := "/" +:+ verb +:+ "/" +:+ file +:+ query) in *.
  set (p := "/" +:+ verb +:+ "/").
  assert (u = "/" +:+ verb +:+ String "/" (file +:+ query)) as Hu0
    by (subst u; by autorewrite with string_norm).
  assert (u = p +:+ file +:+ query) as Hu1
    by (subst u p; by autorewrite with string_norm).
  assert (std_string.size p = std_string.size verb + 2) as Hsp.
  { subst p. rewrite !size_append. change (std_string.size "/") with 1. lia. }
  assert ("-"%char ∉ String.list_ascii_of_string p) as Hp.
  { subst p. rewrite !not_elem_of_chars_append. split; [|split; [done|]];
      simpl; rewrite list_elem_of_singleton; discriminate. }
  clearbody p. clearbody u.
  assert (std_string.npos < std_string.size_t_modulus) by done.
  pose proof (size_nonneg verb). pose proof (size_nonneg file).
  pose proof (size_nonneg query).
  assert (std_string.size p + std_string.size file + std_string.size query
          < std_string.npos) as Hbound.
  { rewrite Hu1, !size_append in Hsize. lia. }
  assert (std_string.find u "/" 1 = std_string.size p - 1) as ->.
  { rewrite Hu0. change 1 with (std_string.size "/") at 1.
    rewrite find_next by done. change (std_string.size "/") with 1. lia. }
  replace (std_string.size p - 1 + 1) with (std_string.size p) by lia.
  rewrite (size_t_wrap_small (std_string.size p)) by lia.
  rewrite Hu1 at 1 2. rewrite filename_after by (done || rewrite !size_append; lia).
  cbn [outcome_bind].
  destruct (index_of_present _ _ Hin) as [k Hk].
  pose proof (index_of_lt _ _ _ Hk) as Hlt. rewrite length_append in Hlt.
  assert (std_string.find u "-" 0 = std_string.size p + Z.of_nat k) as ->.
  { rewrite find_from_start, Hu1, index_of_append, Hk by done. simpl.
    unfold std_string.size. lia. }
  unfold std_string.size in *.
  destruct (Z.eqb_spec (Z.of_nat (String.length p) + Z.of_nat k) std_string.npos); [lia|].
  rewrite !size_t_wrap_small by lia.
  by destruct (Z.ltb_spec (Z.of_nat (String.length p) + Z.of_nat k + 1)
                 (Z.of_nat (String.length p) - 1)); [lia|].
Qed.

(** A URL without a namespace is resolved to "default" only when no '-'
    follows: a '-' in the file name or the query string makes the namespace
    name empty, and with no namespace registered under the empty name the
    upload handler and the delete handler of delete.cpp answer 400 and issue
    nothing. *)
Theorem dash_in_file_name_400 lib srv buffer :
  "-"%char ∈ String.list_ascii_of_string (file +:+ query) ->
  m_namespaces srv !! EmptyString = None ->
  get_filename req = Normal (file, EmptyString) /\
  sent (proxy_cpp.req_upload_on_request lib srv req buffer).1 = [ev_send_code 400] /\
  sent (delete_cpp.on_request lib srv req).1 = [ev_send_code 400].
Proof.
  intros Hin Hreg. pose proof (get_filename_dash_after_slash Hin) as Hf.
  pose proof (get_file_info_unknown srv req _ _ Hf Hreg) as Hinfo.
  split; [done|]. split.
  - unfold proxy_cpp.req_upload_on_request, proxy_cpp.upload_catch.
    rewrite Hinfo. simpl. by destruct (proxy_cpp.level_ge srv SWARM_LOG_DEBUG).
  - unfold delete_cpp.on_request. by rewrite Hinfo.
Qed.

End file_url.

Lemma dash_in_file_name_400_witness :
  get_filename (example.request "/upload/my-file.txt") = Normal ("my-file.txt"%string, EmptyString) /\
  sent (proxy_cpp.req_upload_on_request example.lib example.srv
          (example.request "/upload/my-file.txt") "payload").1 = [ev_send_code 400] /\
  sent (delete_cpp.on_request example.lib example.srv
          (example.request "/upload/my-file.txt")).1 = [ev_send_code 400].
Proof.
  apply (dash_in_file_name_400 (example.request "/upload/my-file.txt")
           "upload" "my-file.txt" EmptyString eq_refl);
    first [reflexivity | by left | by apply (bool_decide_unpack _)].
Defined.

(** ** URLs with a namespace, end to end *)

(** What runs before the interesting part of a [try] block and only logs
    does not show in what the handler sends. *)
Lemma sent_try_catch_quiet {A} (m : io A) a (k : A -> io unit) on_std on_other :
  quiet m -> m.2 = Normal a ->
  sent (try_catch (bind m k) on_std on_other).1 = sent (try_catch (k a) on_std on_other).1.
Proof.
  unfold quiet. destruct m as [t o]. simpl. intros Hq ->. simpl.
  destruct (k a) as [t' [[]|[what|]|]]; simpl; try by rewrite sent_app, Hq.
  - destruct (on_std what) as [t'' o'']. simpl. by rewrite <- app_assoc, sent_app, Hq.
  - destruct on_other as [t'' o'']. simpl. by rewrite <- app_assoc, sent_app, Hq.
Qed.

Section namespace_url.

Variables (lib : platform) (srv : proxy) (req : http_request).
Variables (verb ns file query : string) (item : namespace_t).

Hypothesis Hurl :
  url_to_string req = "/" +:+ verb +:+ "-" +:+ ns +:+ "/" +:+ file +:+ query.
Hypothesis Hdash : "-"%char ∉ String.list_ascii_of_string verb.
Hypothesis Hslash : "/"%char ∉ String.list_ascii_of_string verb.
Hypothesis Hns : "/"%char ∉ String.list_ascii_of_string ns.
Hypothesis Hfile : "?"%char ∉ String.list_ascii_of_string file.
Hypothesis Hquery : is_query query.
Hypothesis Hsize : std_string.size (url_to_string req) < std_string.npos.
Hypothesis Hitem : m_namespaces srv !! ns = Some item.
Hypothesis Hname : std_string.empty (name item) = false.

Lemma get_file_info_registered :
  get_file_info srv req = Normal (key_remote file, item).
Proof.
  unfold get_file_info.
  rewrite (get_filename_segments req verb ns file query) by done.
  simpl. by rewrite Hitem.
Qed.

(** An upload to a registered namespace with enough live connections: the
    handler hands [write] the file name as key, a session with the
    namespace's checker and the groups the balancer chose for it, and the
    packed body; when the query asks for embeds, the container carries the
    timestamp of the query and the session the flag [UF_EMBEDS], which on a
    later read makes the get handler unpack embeds whatever its own query
    says.  What the handler sends is what [write] issues or, when [write]
    throws, the 500 of the catch blocks. *)
Theorem upload_end_to_end buffer gs ts :
  proxy_cpp.groups_for_upload srv item = Normal gs ->
  die_limit srv <= state_num (get_session srv) ->
  (embed_requested (url_query_list req) = true ->
   proxy_cpp.get_arg lib (url_query_list req) "timestamp" 0 = Normal ts) ->
  let q := url_query_list req in
  let session := set_groups (set_checker (get_session srv) (result_checker item)) gs in
  let session :=
    if embed_requested q
    then set_user_flags session (Z.lor (get_user_flags session) proxy_cpp.UF_EMBEDS)
    else session in
  let dc :=
    if embed_requested q then set_timestamp (data_container_of buffer) (ts, 0)
    else data_container_of buffer in
  sent (proxy_cpp.req_upload_on_request lib srv req buffer).1
  = sent (proxy_cpp.upload_catch
            (do _ <- proxy_cpp.write lib session (key_remote file) (pack lib dc) q;
             ret tt)).1 /\
  (embed_requested q = true ->
   forall q' rr, io_attribute_user_flags rr = get_user_flags session ->
                 proxy_cpp.embeded_flag q' rr = true).
Proof.
  intros Hgs Hdie Hts q session0 session dc. split.
  - unfold proxy_cpp.req_upload_on_request, proxy_cpp.upload_catch.
    rewrite (sent_try_catch_quiet _ tt) by done.
    rewrite (sent_try_catch_quiet _ tt)
      by (by destruct (proxy_cpp.level_ge srv SWARM_LOG_DEBUG)).
    rewrite get_file_info_registered, bind_lift_Normal.
    cbn [fst snd]. rewrite Hname, Hgs, bind_lift_Normal.
    cbn [state_num set_groups set_checker].
    destruct (Z.ltb_spec (state_num (get_session srv)) (die_limit srv)) as [?|_]; [lia|].
    subst session dc session0 q. unfold embed_requested in *.
    destruct (has_item (url_query_list req) "embed"
              || has_item (url_query_list req) "embed_timestamp") eqn:He.
    + rewrite (Hts eq_refl), bind_lift_Normal, bind_ret_l.
      cbn [embeds_count set_timestamp embed_timestamp negb Z.eqb].
      by rewrite (sent_try_catch_quiet _ tt)
        by (by destruct (proxy_cpp.level_ge srv SWARM_LOG_INFO)).
    + rewrite bind_ret_l.
      cbn [embeds_count data_container_of embed_timestamp negb Z.eqb].
      by rewrite (sent_try_catch_quiet _ tt)
        by (by destruct (proxy_cpp.level_ge srv SWARM_LOG_INFO)).
  - intros He q' rr Hrr. subst session. rewrite He in Hrr.
    unfold proxy_cpp.embeded_flag. rewrite Hrr. cbn [get_user_flags set_user_flags].
    rewrite land_one_testbit.
    assert (Z.testbit (Z.lor (get_user_flags session0) proxy_cpp.UF_EMBEDS) 0 = true) as ->;
      [|done].
    rewrite Z.lor_spec. by rewrite orb_true_r.
Qed.

End namespace_url.

Lemma upload_end_to_end_witness :
  sent (proxy_cpp.req_upload_on_request example.lib example.srv
          (example.request "/upload-bar/file.txt") "payload").1
  = [ev_write
       (set_error_handler
          (set_groups (set_checker example.the_session (Some checkers_all)) [1; 2])
          error_handlers_remove_on_fail)
       (key_remote "file.txt") "payload" 0 (write_data 0)].
Proof.
  edestruct (upload_end_to_end example.lib example.srv
               (example.request "/upload-bar/file.txt") "upload" "bar" "file.txt"
               EmptyString example.bar eq_refl) with (buffer := "payload"%string) (ts := 0)
    as [H _];
    [by apply (bool_decide_unpack _) .. | by left | reflexivity | reflexivity
    | reflexivity | reflexivity | done | discriminate | exact H].
Defined.

Section namespace_group_url.

Variables (lib : platform) (srv : proxy) (req : http_request).
Variables (verb ns g file query : string) (item : namespace_t).

Hypothesis Hurl :
  url_to_string req
  = "/" +:+ verb +:+ "-" +:+ ns +:+ "/" +:+ g +:+ "/" +:+ file +:+ query.
Hypothesis Hdash : "-"%char ∉ String.list_ascii_of_string verb.
Hypothesis Hslash : "/"%char ∉ String.list_ascii_of_string verb.
Hypothesis Hns : "/"%char ∉ String.list_ascii_of_string ns.
Hypothesis Hg : "/"%char ∉ String.list_ascii_of_string g.
Hypothesis Hgq : "?"%char ∉ String.list_ascii_of_string g.
Hypothesis Hfile : "?"%char ∉ String.list_ascii_of_string file.
Hypothesis Hquery : is_query query.
Hypothesis Hsize : std_string.size (url_to_string req) < std_string.npos.
Hypothesis Hitem : m_namespaces srv !! ns = Some item.
Hypothesis Hname : std_string.empty (name item) = false.

(** A delete through delete.cpp of [/<verb>-<namespace>/<group>/<file>] in
    a registered namespace, with groups known for the file and enough live
    connections: the handler removes the key [<name>.<file>], [<name>] the
    registered name of the namespace, from the groups [get_groups] names
    for the group and the file, with the filter [all].  When the
    credentials are refused the 401 challenge is sent first and the remove
    is issued all the same. *)
Theorem delete_cpp_end_to_end group gs :
  lexical_cast_int lib g = Normal group ->
  proxy_get_groups srv group file = Normal gs ->
  gs <> [] ->
  die_limit srv <= state_num (get_session srv) ->
  sent (delete_cpp.on_request lib srv req).1
  = (if check_basic_auth srv (name item) (auth_key item)
          (headers_get (request_headers req) "Authorization")
     then []
     else [ev_send_reply
             {| response_code := 401;
                response_headers :=
                  [("WWW-Authenticate"%string,
                    "Basic realm=" +:+ dquote +:+ name item +:+ dquote)] |}])
    ++ [ev_remove (set_filter (set_groups (get_session srv) gs) filters_all)
          (key_remote (name item +:+ "." +:+ file))].
Proof.
  intros Hcast Hgroups Hgs Hdie.
  assert (get_file_info srv req = Normal (key_remote (g +:+ "/" +:+ file), item)) as Hinfo.
  { apply (get_file_info_registered srv req verb ns (g +:+ "/" +:+ file) query); try done.
    - rewrite Hurl. by autorewrite with string_norm.
    - rewrite !not_elem_of_chars_append. split; [done|]. split; [|done].
      simpl. rewrite list_elem_of_singleton. discriminate. }
  assert (std_string.npos < std_string.size_t_modulus) by done.
  pose proof (size_nonneg g). pose proof (size_nonneg file).
  assert (std_string.size g + 1 + std_string.size file < std_string.npos) as Hbound.
  { rewrite Hurl, !size_append in Hsize. change (std_string.size "/") with 1 in Hsize.
    pose proof (size_nonneg verb). pose proof (size_nonneg ns).
    pose proof (size_nonneg query). change (std_string.size "-") with 1 in Hsize. lia. }
  assert (std_string.find (g +:+ "/" +:+ file) "/" 0 = std_string.size g) as Hfind.
  { rewrite find_from_start.
    change (g +:+ "/" +:+ file) with (g +:+ String "/" file).
    rewrite index_of_first by done. done. }
  assert (std_string.substr_from (g +:+ "/" +:+ file)
            (std_string.size_t_wrap (std_string.size g + 1)) = Normal file) as Hfn.
  { rewrite size_t_wrap_small by lia. unfold std_string.substr_from.
    replace (g +:+ "/" +:+ file) with ((g +:+ "/") +:+ file)
      by (by autorewrite with string_norm).
    replace (std_string.size g + 1) with (std_string.size (g +:+ "/"))
      by (rewrite size_append; done).
    apply substr_after_rest. lia. }
  assert (std_string.substr (g +:+ "/" +:+ file) 0 (std_string.size g) = Normal g) as Hgr.
  { exact (substr_after_exact EmptyString g ("/" +:+ file)). }
  unfold delete_cpp.on_request. rewrite Hinfo.
  cbn [bind lift log emit fst snd remote]. rewrite Hname.
  rewrite Hfind.
  destruct (Z.eqb_spec (std_string.size g) std_string.npos) as [?|_]; [lia|].
  rewrite Hfn, Hgr, Hcast, Hgroups.
  destruct gs as [|g0 gs']; [done|].
  destruct (check_basic_auth _ _ _ _); simpl;
    by destruct (Z.ltb_spec (state_num (get_session srv)) (die_limit srv)); [lia|].
Qed.

End namespace_group_url.

Lemma delete_cpp_end_to_end_witness :
  sent (delete_cpp.on_request example.lib example.srv
          (example.request "/delete-bar/1/file.txt")).1
  = [ev_send_reply
       {| response_code := 401;
          response_headers :=
            [("WWW-Authenticate"%string, "Basic realm=" +:+ dquote +:+ "bar" +:+ dquote)] |};
     ev_remove (set_filter (set_groups example.the_session [1]) filters_all)
       (key_remote "bar.file.txt")].
Proof.
  apply (delete_cpp_end_to_end example.lib example.srv
           (example.request "/delete-bar/1/file.txt") "delete" "bar" "1" "file.txt"
           EmptyString example.bar eq_refl) with (group := 1);
    first [reflexivity | by left | by apply (bool_decide_unpack _) | done].
Defined.

(** ** What is issued, and when *)

Section guards.

Variable P : event -> Prop.
Hypothesis P_log : forall l msg, P (ev_log l msg).

Lemma guard_nil {A} (o : outcome A) : Forall P (([], o) : io A).1.
Proof. constructor. Qed.

Lemma guard_emit e : P e -> Forall P (emit e).1.
Proof. intros He. by repeat constructor. Qed.

Lemma guard_bind {A B} (m : io A) (k : A -> io B) :
  Forall P m.1 -> (forall a, Forall P (k a).1) -> Forall P (bind m k).1.
Proof.
  destruct m as [t [a|e|]]; simpl; intros Hm Hk; try done.
  specialize (Hk a). destruct (k a) as [t' o]. simpl in *. by apply Forall_app.
Qed.

Lemma guard_try_catch_all {A} (body on_any : io A) :
  Forall P body.1 -> Forall P on_any.1 -> Forall P (try_catch_all body on_any).1.
Proof.
  destruct body as [t [a|e|]], on_any as [t' o]; simpl; intros Hb Hh; try done.
  by apply Forall_app.
Qed.

Lemma guard_try_catch body on_std on_other :
  Forall P body.1 -> (forall what, Forall P (on_std what).1) -> Forall P on_other.1 ->
  Forall P (try_catch body on_std on_other).1.
Proof.
  destruct body as [t [[]|[what|]|]]; simpl; intros Hb Hs Ho; try done.
  - specialize (Hs what). destruct (on_std what) as [t' o]. by apply Forall_app.
  - destruct on_other as [t' o]. by apply Forall_app.
Qed.

Lemma guard_quiet {A} (m : io A) : quiet m -> Forall P m.1.
Proof.
  unfold quiet. destruct m as [t o]. simpl. induction t as [|e t IH]; [done|].
  unfold sent. simpl. destruct e; simpl; try done.
  intros Hq. constructor; [apply P_log | by apply IH].
Qed.

End guards.

Ltac guards :=
  repeat first
    [ progress intros
    | apply guard_try_catch
    | apply guard_try_catch_all
    | apply guard_nil
    | apply guard_quiet; [done | apply prepare_session_quiet]
    | apply guard_emit
    | apply guard_bind; [| intros]
    | match goal with
      | |- Forall _ (if ?a <? ?b then _ else _).1 => destruct (Z.ltb_spec a b)
      | |- Forall _ (if bool_decide ?Q then _ else _).1 => destruct (decide Q); [rewrite bool_decide_eq_true_2 by done | rewrite bool_decide_eq_false_2 by done]
      | |- Forall _ (if ?b then _ else _).1 => destruct b
      | |- Forall _ (match ?x with _ => _ end).1 => destruct x
      end ].

Ltac guard_leaf :=
  simpl in *;
  repeat match goal with |- context [if ?b then _ else _] => destruct b end;
  simpl; try split; first [done | lia].

(** Whatever the request, a handler of proxy.cpp issues a storage
    operation only under the conditions of [guarded]: no write and no
    remove below the die limit, every write with [remove_on_fail], every
    remove and lookup with the filter [all], no read and no lookup without
    a group. *)
Theorem storage_operations_guarded lib srv req buffer :
  Forall (guarded srv) (proxy_cpp.req_upload_on_request lib srv req buffer).1 /\
  Forall (guarded srv) (proxy_cpp.req_get_on_request lib srv req).1 /\
  Forall (guarded srv) (proxy_cpp.req_delete_on_request lib srv req).1 /\
  Forall (guarded srv) (proxy_cpp.req_download_info_on_request lib srv req).1.
Proof.
  repeat split.
  - unfold proxy_cpp.req_upload_on_request, proxy_cpp.upload_catch. guards; guard_leaf.
  - unfold proxy_cpp.req_get_on_request. guards; guard_leaf.
  - unfold proxy_cpp.req_delete_on_request. guards; guard_leaf.
  - unfold proxy_cpp.req_download_info_on_request. guards; guard_leaf.
Qed.

(** Both revisions of delete.cpp keep to the same conditions: whatever the
    request, a remove is issued only at or above the die limit and with the
    filter [all], also the remove that follows a 401. *)
Theorem delete_cpp_removes_guarded lib srv req :
  Forall (guarded srv) (delete_cpp.on_request lib srv req).1 /\
  Forall (guarded srv) (delete_cpp_ns.on_request srv req).1.
Proof.
  split.
  - unfold delete_cpp.on_request. guards; guard_leaf.
  - unfold delete_cpp_ns.on_request.
    apply guard_try_catch; [| guards; guard_leaf ..].
    apply guard_bind; [by repeat constructor | intros _].
    apply guard_bind.
    + destruct (get_namespace srv (url_to_string req) "/delete") as [ns|[what|]|];
        by repeat constructor.
    + intros [ns|]; guards; guard_leaf.
Qed.

(** ** stat-log: the document *)

Lemma stat_loop_step lib render_load data rest oss base :
  proxy_cpp.stat_loop lib render_load (data :: rest) oss base
  = proxy_cpp.stat_loop lib render_load rest
      (oss +:+ stat_element lib render_load base data) proxy_cpp.ios_hex.
Proof.
  cbn [proxy_cpp.stat_loop]. unfold stat_element, proxy_cpp.uint64_t.
  destruct (stat_la data) as [[la0 la1] la2]. cbn [fst snd].
  f_equal. by autorewrite with string_norm.
Qed.

Lemma stat_loop_hex lib render_load ssr : forall oss,
  proxy_cpp.stat_loop lib render_load ssr oss proxy_cpp.ios_hex
  = (oss +:+ concat_strings (map (stat_element lib render_load proxy_cpp.ios_hex) ssr),
     proxy_cpp.ios_hex).
Proof.
  induction ssr as [|data rest IH]; intros oss.
  - simpl. by rewrite append_nil_r.
  - rewrite stat_loop_step, IH. cbn [map concat_strings foldr].
    by autorewrite with string_norm.
Qed.

(** The answer to a stat-log query.  An error is answered 500, whatever
    its code.  Otherwise the reply is a 200 XML document with one [<stat>]
    element per node, in the order of the result.  [std::hex], set for the
    filesystem id of the first node, stays set on the stream: the counters
    of the first node are printed in decimal, those of every later node in
    hexadecimal. *)
Theorem stat_log_document lib render_load ssr :
  (forall e,
     sent (proxy_cpp.req_stat_log_on_finished lib render_load ssr (Some e)).1
     = [ev_send_code 500]) /\
  let body :=
    proxy_cpp.xml_declaration +:+ "<data>" +:+ endl
    +:+ match ssr with
        | [] => EmptyString
        | data :: rest =>
            stat_element lib render_load proxy_cpp.ios_dec data
            +:+ concat_strings (map (stat_element lib render_load proxy_cpp.ios_hex) rest)
        end
    +:+ "</data>" in
  sent (proxy_cpp.req_stat_log_on_finished lib render_load ssr None).1
  = [ev_send_data
       {| response_code := 200;
          response_headers := [("Content-Type"%string, "text/xml"%string);
                               ("Content-Length"%string, pretty (std_string.size body))] |}
       body].
Proof.
  split; [done|]. intros body. unfold proxy_cpp.req_stat_log_on_finished.
  assert (proxy_cpp.stat_loop lib render_load ssr
            (proxy_cpp.xml_declaration +:+ "<data>" +:+ endl) proxy_cpp.ios_dec
          = (proxy_cpp.xml_declaration +:+ "<data>" +:+ endl
             +:+ match ssr with
                 | [] => EmptyString
                 | data :: rest =>
                     stat_element lib render_load proxy_cpp.ios_dec data
                     +:+ concat_strings
                           (map (stat_element lib render_load proxy_cpp.ios_hex) rest)
                 end,
             match ssr with [] => proxy_cpp.ios_dec | _ => proxy_cpp.ios_hex end)) as Hloop.
  { destruct ssr as [|data rest].
    - simpl. by autorewrite with string_norm.
    - rewrite stat_loop_step, stat_loop_hex. by autorewrite with string_norm. }
  rewrite Hloop. cbn [bind log emit try_catch fst snd].
  unfold sent. simpl. subst body. by autorewrite with string_norm.
Qed.

(** With two nodes of 255 KB each the document says [255] for the first
    and [ff] for the second. *)
Example stat_log_second_node_in_hex :
  exists r body,
    sent (proxy_cpp.req_stat_log_on_finished example.lib example.load
            [example.node 1; example.node 2] None).1 = [ev_send_data r body] /\
    occurrences "<memtotal>255</memtotal>" body = 1%nat /\
    occurrences "<memtotal>ff</memtotal>" body = 1%nat /\
    occurrences "<la>1.25 0.50 0.07</la>" body = 2%nat.
Proof. do 2 eexists. split; [reflexivity|]. by vm_compute. Qed.

(** ** Start-up *)

Lemma add_remotes_spec rt logger hosts :
  add_remote_throws_std rt ->
  forall node,
    proxy_cpp.add_remotes rt logger (map kString hosts) node
    = (map (fun r => dnet_log_info logger
                       ("Can't connect to remote node " +:+ r.1 +:+ " : " +:+ r.2))
         (refused rt hosts node),
       Normal (connect rt hosts node)).
Proof.
  intros Hstd. induction hosts as [|host rest IH]; intros node; [done|].
  cbn [map proxy_cpp.add_remotes GetString connect refused].
  destruct (Hstd node host) as [Hr | [what Hr]];
    destruct (add_remote rt node host) as [node' r]; simpl in Hr; subst r;
    cbn [fst snd]; by rewrite IH.
Qed.

(** [generate_session] throws when the configuration has no "remotes".
    Otherwise it calls [add_remote] for every remote in turn, and a remote
    that cannot be reached costs one log line and nothing else: the session
    is made of the node as it is after all the calls, with the error
    handler [none]. *)
Theorem generate_session_connects rt config logger node :
  proxy_cpp.generate_node rt config logger = Normal node ->
  (HasMember config "remotes" = Normal false ->
   proxy_cpp.generate_session rt config logger
   = ([], Thrown (std_exception "You should set a list of remote addresses"))) /\
  (forall hosts,
     add_remote_throws_std rt ->
     member config "remotes" = Normal (kArray (map kString hosts)) ->
     proxy_cpp.generate_session rt config logger
     = (map (fun r => dnet_log_info logger
                        ("Can't connect to remote node " +:+ r.1 +:+ " : " +:+ r.2))
          (refused rt hosts node),
        eval session <- new_session rt (connect rt hosts node);
        Normal (set_error_handler session error_handlers_none))).
Proof.
  intros Hnode. unfold proxy_cpp.generate_session. rewrite Hnode. split.
  - by intros ->.
  - intros hosts Hstd Hm. rewrite (member_HasMember _ _ _ Hm), Hm.
    cbn [outcome_bind Elements]. by rewrite add_remotes_spec.
Qed.

Lemma generate_session_connects_witness :
  proxy_cpp.generate_session example.rt example.config_remotes example.stderr_logger
  = ([dnet_log_info example.stderr_logger
        "Can't connect to remote node down : timed out"],
     Normal example.the_session).
Proof.
  refine (proj2 (generate_session_connects example.rt example.config_remotes
                   example.stderr_logger [] eq_refl)
            ["down"%string; "node1:1025:2"%string] _ eq_refl).
  intros node host. unfold example.rt. simpl.
  destruct (String.eqb host "down"); eauto.
Defined.









Lemma HasMember_false_member value n :
  HasMember value n = Normal false -> member value n = Undefined.
Proof.
  destruct value as [| | | | |ms]; simpl; try done.
  by destruct (FindMember ms n).
Qed.

(** The loop of [generate_mastermind], when it returns: the remotes are
    those of the hosted nodes, in the order of the array, and there is one
    line for each node without a host. *)
Lemma mastermind_remotes_exact rt sp_lg nodes :
  forall acc t remotes,
    proxy_cpp.mastermind_remotes rt sp_lg nodes acc = (t, Normal remotes) ->
    remotes = acc ++ omap hosted nodes /\
    t = map (fun _ => cocaine_log_info sp_lg
                        "You should set a host address in each node of mastermind settings")
          (List.filter hostless nodes) /\
    Forall (fun node => is_Some (hosted node) <-> hostless node = false) nodes.
Proof.
  induction nodes as [|node rest IH]; intros acc t remotes.
  - intros [= <- <-]. by rewrite app_nil_r.
  - cbn [proxy_cpp.mastermind_remotes].
    destruct (HasMember node "host") as [[|]| |] eqn:Hh; try done.
    + destruct (member node "host") as [v| |] eqn:Hv; try done.
      destruct v as [| | |host| |]; try done. cbn [outcome_bind GetString].
      destruct (proxy_cpp.get_int node "port" 10053) as [port| |] eqn:Hp; try done.
      cbn [outcome_bind]. intros Hloop.
      destruct (IH _ _ _ Hloop) as (-> & -> & Hall).
      assert (hosted node = Some (host, port)) as Hhosted
        by (unfold hosted; by rewrite Hv, Hp).
      assert (hostless node = false) as Hhostless by (unfold hostless; by rewrite Hh).
      cbn [omap list_omap List.filter]. rewrite Hhosted, Hhostless, <- app_assoc.
      split; [done|]. split; [done|]. constructor; [|done].
      rewrite Hhosted, Hhostless. by split.
    + destruct (proxy_cpp.mastermind_remotes rt sp_lg rest acc) as [t' o] eqn:Hloop.
      intros [= <- ->].
      destruct (IH _ _ _ Hloop) as (-> & -> & Hall).
      assert (hosted node = None) as Hhosted
        by (unfold hosted; by rewrite (HasMember_false_member _ _ Hh)).
      assert (hostless node = true) as Hhostless by (unfold hostless; by rewrite Hh).
      cbn [omap list_omap List.filter]. rewrite Hhosted, Hhostless.
      split; [done|]. split; [done|]. constructor; [|done].
      rewrite Hhosted, Hhostless. split; [by intros [? ?] | done].
Qed.

(** [generate_mastermind] throws when the configuration has no
    "mastermind" or that has no "nodes".  When it returns, the balancer was
    made of exactly the remotes of the nodes that have a "host", in the
    order of the array, each with its "port" or 10053, and of the update
    period of the configuration or 60; the lines logged are one for each
    node without a host, and every node is of one of the two kinds. *)
Theorem generate_mastermind_remotes rt config logger :
  (HasMember config "mastermind" = Normal false ->
   proxy_cpp.generate_mastermind rt config logger
   = ([], Thrown (std_exception "You should set settings for mastermind"))) /\
  (forall mastermind,
     member config "mastermind" = Normal mastermind ->
     HasMember mastermind "nodes" = Normal false ->
     proxy_cpp.generate_mastermind rt config logger
     = ([], Thrown (std_exception
                      "You should set at least one node to connect to mastermind"))) /\
  (forall t mm,
     proxy_cpp.generate_mastermind rt config logger = (t, Normal mm) ->
     exists mastermind nodes period,
       member config "mastermind" = Normal mastermind /\
       member mastermind "nodes" = Normal (kArray nodes) /\
       proxy_cpp.get_int mastermind "group-info-update-period" 60 = Normal period /\
       new_mastermind rt (omap hosted nodes) logger period = Normal mm /\
       t = map (fun _ => cocaine_log_info logger
                           "You should set a host address in each node of mastermind settings")
             (List.filter hostless nodes) /\
       Forall (fun node => is_Some (hosted node) <-> hostless node = false) nodes).
Proof.
  unfold proxy_cpp.generate_mastermind. split; [|split].
  - by intros ->.
  - intros mastermind Hm Hn. by rewrite (member_HasMember _ _ _ Hm), Hm, Hn.
  - intros t mm.
    destruct (HasMember config "mastermind") as [[|]| |]; try done.
    destruct (member config "mastermind") as [mastermind| |]; try done.
    destruct (HasMember mastermind "nodes") as [[|]| |]; try done.
    destruct (member mastermind "nodes") as [nodes| |] eqn:Hnodes; try done.
    destruct nodes as [| | | |nodes|]; try done. cbn [outcome_bind Elements].
    destruct (proxy_cpp.mastermind_remotes rt logger nodes []) as [t' o] eqn:Hloop.
    destruct o as [remotes| |]; try done. cbn [outcome_bind].
    destruct (proxy_cpp.get_int mastermind "group-info-update-period" 60)
      as [period| |] eqn:Hperiod; try done.
    cbn [outcome_bind]. intros [= <- Hmm].
    destruct (mastermind_remotes_exact _ _ _ _ _ _ Hloop) as (-> & -> & Hall).
    by exists mastermind, nodes, period.
Qed.

Lemma generate_mastermind_remotes_witness :
  exists mastermind nodes period,
    member example.config_mastermind "mastermind" = Normal mastermind /\
    member mastermind "nodes" = Normal (kArray nodes) /\
    proxy_cpp.get_int mastermind "group-info-update-period" 60 = Normal period /\
    new_mastermind example.rt (omap hosted nodes) example.stderr_logger period
    = Normal example.mastermind /\
    [cocaine_log_info example.stderr_logger
       "You should set a host address in each node of mastermind settings"]
    = map (fun _ => cocaine_log_info example.stderr_logger
                      "You should set a host address in each node of mastermind settings")
        (List.filter hostless nodes) /\
    Forall (fun node => is_Some (hosted node) <-> hostless node = false) nodes.
Proof.
  exact (proj2 (proj2 (generate_mastermind_remotes example.rt example.config_mastermind
                         example.stderr_logger)) _ _ eq_refl).
Defined.

(** The balancer of [config_mastermind] is made of mm1:10053 and
    mm2:10054; the node that has only a port costs one line. *)
Example generate_mastermind_two_of_three :
  exists nodes,
    (eval mastermind <- member example.config_mastermind "mastermind";
     member mastermind "nodes") = Normal (kArray nodes) /\
    omap hosted nodes = [("mm1"%string, 10053); ("mm2"%string, 10054)] /\
    map hostless nodes = [false; true; false] /\
    proxy_cpp.generate_mastermind example.rt example.config_mastermind
      example.stderr_logger
    = ([cocaine_log_info example.stderr_logger
          "You should set a host address in each node of mastermind settings"],
       Normal example.mastermind).
Proof. eexists. split; [reflexivity|]. by vm_compute. Qed.

(** A configuration without "remotes": [initialize] answers [true],
    reports the exception on the proxy's logger, and leaves the server
    without a session and with the die limit it had. *)
Example initialize_without_remotes :
  let '(t, self', o) :=
    proxy_cpp.initialize example.rt example.config_mastermind example.blank in
  t = [swarm_log_error example.stderr_logger "You should set a list of remote addresses"] /\
  o = Normal true /\
  proxy_cpp.m_elliptics_session self' = None /\
  proxy_cpp.m_die_limit self' = 0.
Proof. by vm_compute. Qed.
